(** * lit_it_up / python_dj : the real-time event-detection engine

    A shallow embedding of the detection logic of the Python scripts
    [dj_listener.py], [music_rhythm_test.py], [simple_rhythm_demo.py],
    [live_song_analyzer.py] and [ai_audio_analyzer.py].

    Conventions of the embedding.
    - Python floats (float64, numpy scalars) are idealised as exact
      rationals [Q]; NaN is outside the model. Where a property depends on
      rounding (the cooldown test on [time.time() * 1000], the bin
      frequencies of [np.fft.rfftfreq]) the functions are stated a second
      time, in the modules whose name ends in [F], over the float
      operations of a [Float64.arith]: [Float64.exact] does not round,
      [Float64.binary64] rounds to the nearest binary64 number, ties to
      even.
    - [collections.deque(maxlen=n)] is the record [Deque.deque]; its
      [append] follows CPython (append on the right, then drop one item on
      the left when the length exceeds [maxlen]).
    - Module-level globals and function attributes ([last_flash_time],
      [current_bpm], [volume_history], [audio_callback.bass_history], ...)
      are the fields of a per-script [state] record that every function
      takes and returns.
    - The numeric primitives of numpy and librosa ([np.abs (np.fft.rfft x)],
      [np.sqrt], [librosa.beat.beat_track]) are parameters of the model;
      the wall clock ([time.time ()]) and the success of [sio.emit] are
      inputs of each step. *)

From Stdlib Require Import QArith Qabs Qminmax Qround Qpower ZArith List Bool Lia Lqa.
From Stdlib Require Import PeanoNat.
From Stdlib Require String.
Import ListNotations.

Local Open Scope Q_scope.

(** ** Python and numpy arithmetic on rationals *)

(** [a > b] *)
Definition Qgtb (a b : Q) : bool := negb (Qle_bool a b).

(** [a < b] *)
Definition Qltb (a b : Q) : bool := negb (Qle_bool b a).

(** [a >= b] *)
Definition Qgeb (a b : Q) : bool := Qle_bool b a.

(** [a <= b] *)
Definition Qleb (a b : Q) : bool := Qle_bool a b.

(** Python's [max(a, b)]: the first argument unless the second is larger. *)
Definition py_max (a b : Q) : Q := if Qgtb b a then b else a.

(** Python's [min(a, b)]: the first argument unless the second is smaller. *)
Definition py_min (a b : Q) : Q := if Qltb b a then b else a.

(** [np.sum] *)
Definition np_sum (l : list Q) : Q := fold_right Qplus 0 l.

(** [np.mean]; on an empty sequence numpy yields NaN, here [0 / 0 = 0]:
    every use below is behind a length guard. *)
Definition np_mean (l : list Q) : Q := np_sum l / inject_Z (Z.of_nat (length l)).

(** [int(x)] on a float: truncation towards zero. *)
Definition py_int (x : Q) : Z := Z.quot (Qnum x) (Zpos (Qden x)).

(** [l[-n:]] for [n > 0] *)
Definition lastn {A : Type} (n : nat) (l : list A) : list A :=
  skipn (length l - n) l.

(** ** [collections.deque] with [maxlen] *)

Module Deque.

Record deque (A : Type) : Type := mk { maxlen : nat; items : list A }.
Arguments mk {A} _ _.
Arguments maxlen {A} _.
Arguments items {A} _.

Section Ops.
Context {A : Type}.

(** [deque(maxlen=n)] *)
Definition empty (n : nat) : deque A := mk n [].

(** [len(d)] *)
Definition len (d : deque A) : nat := length (items d).

(** [d.append(x)]: the item goes to the right end; when the deque is
    then longer than [maxlen], one item is popped from the left. *)
Definition append (d : deque A) (x : A) : deque A :=
  let l := items d ++ [x] in
  mk (maxlen d) (if (maxlen d <? length l)%nat then tl l else l).

(** A sequence of appends, oldest first. *)
Definition extend (d : deque A) (xs : list A) : deque A :=
  fold_left append xs d.

(** The deque respects its bound. *)
Definition bounded (d : deque A) : Prop := (len d <= maxlen d)%nat.
End Ops.

End Deque.

Import Deque.

(** ** [config.py] *)

Record Config : Type := {
  SAMPLE_RATE : Q;
  CHUNK_SIZE : nat;
  VOLUME_THRESHOLD_MULTIPLIER : Q;
  COOLDOWN_MS : Q;
  HISTORY_SIZE : nat;
  MIN_VOLUME_THRESHOLD : Q;
  MAX_VOLUME_THRESHOLD : Q
}.

(** The values of the repository's [config.py]. *)
Definition config : Config := {|
  SAMPLE_RATE := 44100;
  CHUNK_SIZE := 1024;
  VOLUME_THRESHOLD_MULTIPLIER := 1.5;
  COOLDOWN_MS := 250;
  HISTORY_SIZE := 10;
  MIN_VOLUME_THRESHOLD := 500;
  MAX_VOLUME_THRESHOLD := 10000
|}.

(** ** numpy helpers shared by the scripts *)

(** A value stored in an [int16] array: results wrap around modulo 2^16. *)
Definition int16_wrap (z : Z) : Z := ((z + 32768) mod 65536 - 32768)%Z.

(** The range of an [int16] sample. *)
Definition is_int16 (z : Z) : Prop := (-32768 <= z <= 32767)%Z.

(** [np.fft.rfftfreq(n, d)]: [arange(0, n//2 + 1) * (1.0 / (n*d))]. *)
Definition rfftfreq (n : nat) (d : Q) : list Q :=
  let val := 1 / (inject_Z (Z.of_nat n) * d) in
  map (fun k => inject_Z (Z.of_nat k) * val) (seq 0 (n / 2 + 1)).

(** [(frequencies >= lo) & (frequencies <= hi)] *)
Definition band_mask (frequencies : list Q) (range : Q * Q) : list bool :=
  map (fun f => Qgeb f (fst range) && Qleb f (snd range)) frequencies.

(** Boolean-mask indexing [magnitudes[mask]]. *)
Fixpoint mask_select (magnitudes : list Q) (mask : list bool) : list Q :=
  match magnitudes, mask with
  | m :: ms, b :: bs => if b then m :: mask_select ms bs else mask_select ms bs
  | _, _ => []
  end.

(** ** [dj_listener.py] *)

Module DjListener.

Record state : Type := {
  volume_history : deque Q;
  last_flash_time : Q
}.

Section Script.
Variable cfg : Config.

(** The module-level initialisation. *)
Definition init : state :=
  {| volume_history := Deque.empty (HISTORY_SIZE cfg); last_flash_time := 0 |}.

(** The dynamic threshold computed inside [detect_beat]. *)
Definition threshold_of (avg_volume : Q) : Q :=
  py_max (MIN_VOLUME_THRESHOLD cfg)
         (py_min (avg_volume * VOLUME_THRESHOLD_MULTIPLIER cfg)
                 (MAX_VOLUME_THRESHOLD cfg)).

(** [detect_beat(rms_volume)]; [now] is the value [time.time()] returns. *)
Definition detect_beat (st : state) (rms_volume : Q) (now : Q) : bool * state :=
  let vh := append (volume_history st) rms_volume in
  let st1 := {| volume_history := vh; last_flash_time := last_flash_time st |} in
  if (len vh <? 3)%nat then (false, st1)
  else
    let avg_volume := np_mean (items vh) in
    let threshold := threshold_of avg_volume in
    let is_beat := Qgtb rms_volume threshold in
    let current_time := now * 1000 in
    let time_since_last_flash := current_time - last_flash_time st in
    if is_beat && Qgeb time_since_last_flash (COOLDOWN_MS cfg)
    then (true, {| volume_history := vh; last_flash_time := current_time |})
    else (false, st1).
End Script.

End DjListener.

(** ** [music_rhythm_test.py] *)

Module MusicRhythmTest.

(** The element type of an [ndarray], as far as the script looks at it. *)
Inductive dtype : Type := np_int16 | np_float32 | np_float64.

Definition dtype_eqb (a b : dtype) : bool :=
  match a, b with
  | np_int16, np_int16 | np_float32, np_float32 | np_float64, np_float64 => true
  | _, _ => false
  end.

Record ndarray : Type := { arr_dtype : dtype; arr_data : list Q }.

(** [np.frombuffer(b, dtype=np.int16)] on the decoded samples. *)
Definition frombuffer_int16 (samples : list Z) : ndarray :=
  {| arr_dtype := np_int16; arr_data := map inject_Z samples |}.

(** [a.astype(np.float32)] *)
Definition astype_float32 (a : ndarray) : ndarray :=
  {| arr_dtype := np_float32; arr_data := arr_data a |}.

(** [a / 32768.0]: true division, the result is a float array. *)
Definition div_scalar (a : ndarray) (c : Q) : ndarray :=
  {| arr_dtype := match arr_dtype a with np_float32 => np_float32 | _ => np_float64 end;
     arr_data := map (fun x => x / c) (arr_data a) |}.

Record state : Type := {
  volume_history : deque Q;
  bass_history : deque Q;
  last_flash_time : Q
}.

Definition init : state :=
  {| volume_history := Deque.empty 20; bass_history := Deque.empty 20;
     last_flash_time := 0 |}.

Section Script.
Variable rfft_abs : list Q -> list Q.
Variable cfg : Config.

(** The array handed to [np.fft.rfft] by [analyze_frequency_bands]. *)
Definition fft_input (audio_data : ndarray) : ndarray :=
  let audio_array := astype_float32 audio_data in
  if dtype_eqb (arr_dtype audio_array) np_int16
  then div_scalar audio_array 32768
  else audio_array.

(** [analyze_frequency_bands(audio_data, sample_rate)] *)
Definition analyze_frequency_bands (audio_data : ndarray) (sample_rate : Q)
  : Q * Q * Q :=
  let audio_array := fft_input audio_data in
  let magnitudes := rfft_abs (arr_data audio_array) in
  let frequencies := rfftfreq (length (arr_data audio_array)) (1 / sample_rate) in
  let bass_mask := band_mask frequencies (20, 250) in
  let mid_mask := band_mask frequencies (250, 2000) in
  let high_mask := band_mask frequencies (2000, 8000) in
  (np_sum (mask_select magnitudes bass_mask),
   np_sum (mask_select magnitudes mid_mask),
   np_sum (mask_select magnitudes high_mask)).

(** [detect_beat(rms_volume, bass_energy)] *)
Definition detect_beat (st : state) (rms_volume bass_energy : Q) (now : Q)
  : (bool * Q) * state :=
  let vh := append (volume_history st) rms_volume in
  let bh := append (bass_history st) bass_energy in
  let st1 := {| volume_history := vh; bass_history := bh;
                last_flash_time := last_flash_time st |} in
  if (len vh <? 5)%nat then ((false, 0.0), st1)
  else
    let avg_volume := np_mean (items vh) in
    let avg_bass := np_mean (items bh) in
    let volume_threshold := avg_volume * 1.5 in
    let bass_threshold := avg_bass * 1.8 in
    let current_time := now * 1000 in
    if Qltb (current_time - last_flash_time st) (COOLDOWN_MS cfg)
    then ((false, 0.0), st1)
    else
      let is_beat :=
        (Qgtb rms_volume volume_threshold && Qgtb rms_volume 500)
        || (Qgtb bass_energy bass_threshold && Qgtb bass_energy 1000) in
      if is_beat
      then
        let intensity := py_min 1.0 (py_max 0.3 (rms_volume / 5000)) in
        ((true, intensity),
         {| volume_history := vh; bass_history := bh;
            last_flash_time := current_time |})
      else ((false, 0.0), st1).
End Script.

End MusicRhythmTest.

(** ** [simple_rhythm_demo.py] *)

Module SimpleRhythmDemo.

Record state : Type := {
  volume_history : deque Q;
  bass_history : deque Q;
  last_flash_time : Q
}.

Definition init : state :=
  {| volume_history := Deque.empty 20; bass_history := Deque.empty 20;
     last_flash_time := 0 |}.

Section Script.
Variable cfg : Config.

(** [detect_beat(rms, bass)] *)
Definition detect_beat (st : state) (rms bass : Q) (now : Q)
  : (bool * Q) * state :=
  let vh := append (volume_history st) rms in
  let bh := append (bass_history st) bass in
  let st1 := {| volume_history := vh; bass_history := bh;
                last_flash_time := last_flash_time st |} in
  if (len vh <? 5)%nat then ((false, 0.0), st1)
  else
    let avg_vol := np_mean (items vh) in
    let avg_bass := np_mean (items bh) in
    let is_beat := Qgtb rms (avg_vol * 1.5) || Qgtb bass (avg_bass * 1.8) in
    let current_time := now * 1000 in
    if is_beat && Qgeb (current_time - last_flash_time st) (COOLDOWN_MS cfg)
    then
      let intensity := py_min 1.0 (py_max 0.3 (rms / 5000)) in
      ((true, intensity),
       {| volume_history := vh; bass_history := bh;
          last_flash_time := current_time |})
    else ((false, 0.0), st1).

(** The intensity [analyze_music_file] sends for a chunk near a tracked
    beat: [min(1.0, rms * 10)]. *)
Definition file_beat_intensity (rms : Q) : Q := py_min 1.0 (rms * 10).
End Script.

End SimpleRhythmDemo.

(** ** [live_song_analyzer.py] *)

Module LiveSongAnalyzer.

Record state : Type := {
  volume_history : deque Q;
  bass_history : deque Q;
  last_flash_time : Q
}.

Definition init : state :=
  {| volume_history := Deque.empty 30; bass_history := Deque.empty 30;
     last_flash_time := 0 |}.

Section Script.
Variable rfft_abs : list Q -> list Q.
Variable cfg : Config.

(** The normalisation step of [analyze_bass]:
    [audio_array.astype(np.float32) / 32768.0]. *)
Definition normalize (samples : list Z) : list Q :=
  map (fun x => inject_Z x / 32768) samples.

(** [analyze_bass(audio_data, sample_rate)] *)
Definition analyze_bass (audio_data : list Z) (sample_rate : Q) : Q :=
  let audio_array := normalize audio_data in
  let magnitudes := rfft_abs audio_array in
  let freqs := rfftfreq (length audio_array) (1 / sample_rate) in
  let bass_mask := band_mask freqs (20, 250) in
  np_sum (mask_select magnitudes bass_mask).

(** [detect_beat(rms, bass)] *)
Definition detect_beat (st : state) (rms bass : Q) (now : Q)
  : (bool * Q) * state :=
  let vh := append (volume_history st) rms in
  let bh := append (bass_history st) bass in
  let st1 := {| volume_history := vh; bass_history := bh;
                last_flash_time := last_flash_time st |} in
  if (len vh <? 10)%nat then ((false, 0.0), st1)
  else
    let avg_vol := np_mean (items vh) in
    let avg_bass := np_mean (items bh) in
    let vol_threshold := avg_vol * 1.6 in
    let bass_threshold := avg_bass * 1.9 in
    let current_time := now * 1000 in
    if Qltb (current_time - last_flash_time st) (COOLDOWN_MS cfg)
    then ((false, 0.0), st1)
    else
      let is_beat :=
        (Qgtb rms vol_threshold && Qgtb rms 800)
        || (Qgtb bass bass_threshold && Qgtb bass 2000) in
      if is_beat
      then
        let intensity := py_min 1.0 (py_max 0.4 (rms / 4000)) in
        ((true, intensity),
         {| volume_history := vh; bass_history := bh;
            last_flash_time := current_time |})
      else ((false, 0.0), st1).
End Script.

End LiveSongAnalyzer.

(** ** [ai_audio_analyzer.py] *)

Module AiAudioAnalyzer.

(** The event tags ['bass_drop'], ['vocal'], ['rhythm'], ['build']. *)
Inductive event_type : Type := bass_drop | vocal | rhythm | build.

Definition BASS_RANGE : Q * Q := (20, 250).
Definition MID_RANGE : Q * Q := (250, 2000).
Definition HIGH_RANGE : Q * Q := (2000, 8000).
Definition VOCAL_RANGE : Q * Q := (300, 3400).

(** The dictionary passed to [sio.emit('audio_analysis', ...)]. *)
Record flash_event : Type := {
  ev_event_type : event_type;
  ev_intensity : Q;
  ev_bpm : Z;
  ev_bass_energy : Z;
  ev_mid_energy : Z;
  ev_high_energy : Z;
  ev_timestamp : Q            (* seconds *)
}.

Record state : Type := {
  volume_history : deque Q;
  bass_history : deque Q;       (* audio_callback.bass_history *)
  mid_history : deque Q;        (* audio_callback.mid_history *)
  frame_counter : nat;          (* audio_callback.frame_counter *)
  current_bpm : Q;
  last_flash_time : Q           (* milliseconds *)
}.

(** What the outside world answers during one call of [audio_callback]:
    the three readings of [time.time()] (in [detect_rhythm_event], for the
    event's timestamp, and for [last_flash_time]), in seconds, and whether
    [sio.emit] returns ([true]) or raises ([false]). *)
Record env : Type := {
  t_detect : Q;
  t_emit : Q;
  t_set : Q;
  emit_ok : bool
}.

Definition set_last_flash_time (st : state) (t : Q) : state :=
  {| volume_history := volume_history st; bass_history := bass_history st;
     mid_history := mid_history st; frame_counter := frame_counter st;
     current_bpm := current_bpm st; last_flash_time := t |}.

Section Script.
(** [np.abs(np.fft.rfft(x))] *)
Variable rfft_abs : list Q -> list Q.
(** [np.sqrt] *)
Variable np_sqrt : Q -> Q.
(** [librosa.beat.beat_track(y, sr)]: the tempo, or [None] when it raises. *)
Variable beat_track : list Q -> Q -> option Q.
Variable cfg : Config.

(** Module-level initialisation, with the attributes [audio_callback]
    creates on its first call. *)
Definition init : state :=
  {| volume_history := Deque.empty (HISTORY_SIZE cfg);
     bass_history := Deque.empty 10; mid_history := Deque.empty 10;
     frame_counter := 0; current_bpm := 0; last_flash_time := 0 |}.

(** [analyze_frequency_bands(audio_data, sample_rate)] *)
Definition analyze_frequency_bands (audio_data : list Z) (sample_rate : Q)
  : Q * Q * Q * Q :=
  let magnitudes := rfft_abs (map inject_Z audio_data) in
  let frequencies := rfftfreq (length audio_data) (1 / sample_rate) in
  let bass_mask := band_mask frequencies BASS_RANGE in
  let mid_mask := band_mask frequencies MID_RANGE in
  let high_mask := band_mask frequencies HIGH_RANGE in
  let vocal_mask := band_mask frequencies VOCAL_RANGE in
  (np_sum (mask_select magnitudes bass_mask),
   np_sum (mask_select magnitudes mid_mask),
   np_sum (mask_select magnitudes high_mask),
   np_sum (mask_select magnitudes vocal_mask)).

(** [detect_bass_drop(bass_energy, bass_history)] *)
Definition detect_bass_drop (bass_energy : Q) (bass_history : deque Q) : bool :=
  if (len bass_history <? 5)%nat then false
  else
    let avg_bass := np_mean (items bass_history) in
    let threshold := avg_bass * 2.0 in
    Qgtb bass_energy threshold && Qgtb bass_energy 5000.

(** [estimate_bpm(audio_data, sample_rate)] *)
Definition estimate_bpm (audio_data : list Z) (sample_rate : Q) : Q :=
  let audio_float := map (fun x => inject_Z x / 32767) audio_data in
  match beat_track audio_float sample_rate with
  | Some tempo => tempo
  | None => 0
  end.

(** [calculate_rms(audio_data)]; the square is taken in [int16]. *)
Definition calculate_rms (audio_data : list Z) : Q :=
  np_sqrt (np_mean (map (fun x => inject_Z (int16_wrap (x * x))) audio_data)).

(** The test of the build-up branch:
    [all(recent[i] < recent[i+1] for i in range(len(recent)-1))]. *)
Definition strictly_increasing (recent_bass : list Q) : bool :=
  forallb (fun i => Qltb (nth i recent_bass 0) (nth (i + 1) recent_bass 0))
          (seq 0 (length recent_bass - 1)).

(** [detect_rhythm_event(bass_energy, mid_energy, bass_history, mid_history)];
    it reads the global [last_flash_time] and the clock. *)
Definition detect_rhythm_event (last_flash_time : Q) (now : Q)
    (bass_energy mid_energy : Q) (bass_history mid_history : deque Q)
  : option event_type :=
  let current_time := now * 1000 in
  if Qltb (current_time - last_flash_time) (COOLDOWN_MS cfg) then None
  else if (len bass_history <? 5)%nat || (len mid_history <? 5)%nat then None
  else
    let avg_bass := np_mean (items bass_history) in
    let avg_mid := np_mean (items mid_history) in
    if detect_bass_drop bass_energy bass_history then Some bass_drop
    else if Qgtb bass_energy (avg_bass * 1.5) && Qgtb bass_energy 3000
    then Some rhythm
    else if Qgtb mid_energy (avg_mid * 1.3) && Qgtb mid_energy (bass_energy * 1.2)
    then Some vocal
    else if (5 <=? len bass_history)%nat
            && strictly_increasing (lastn 5 (items bass_history))
    then Some build
    else None.

(** [send_flash_event(...)]: the emitted dictionary, if [sio.emit]
    returned, and the new [last_flash_time]; when [sio.emit] raises the
    handler only prints and the global is left alone. *)
Definition send_flash_event (st : state) (e : env) (event_type : event_type)
    (intensity bpm bass mid high : Q) : state * option flash_event :=
  if emit_ok e
  then (set_last_flash_time st (t_set e * 1000),
        Some {| ev_event_type := event_type; ev_intensity := intensity;
                ev_bpm := py_int bpm; ev_bass_energy := py_int bass;
                ev_mid_energy := py_int mid; ev_high_energy := py_int high;
                ev_timestamp := t_emit e |})
  else (st, None).

(** The intensity table of [audio_callback], [dict.get(event_type, 0.6)]. *)
Definition intensity_of (event_type : event_type) : Q :=
  match event_type with
  | bass_drop => 1.0
  | vocal => 0.7
  | rhythm => 0.8
  | build => 0.5
  end.

(** [audio_callback(in_data, ...)] on the decoded [int16] samples. *)
Definition audio_callback (st : state) (audio_data : list Z) (e : env)
  : state * option flash_event :=
  let rms_volume := calculate_rms audio_data in
  let vh := append (volume_history st) rms_volume in
  let '(bass, mid, high, _) :=
    analyze_frequency_bands audio_data (SAMPLE_RATE cfg) in
  let bh := append (bass_history st) bass in
  let mh := append (mid_history st) mid in
  let fc := S (frame_counter st) in
  let bpm :=
    if (fc mod 20 =? 0)%nat then estimate_bpm audio_data (SAMPLE_RATE cfg)
    else current_bpm st in
  let st1 := {| volume_history := vh; bass_history := bh; mid_history := mh;
                frame_counter := fc; current_bpm := bpm;
                last_flash_time := last_flash_time st |} in
  match detect_rhythm_event (last_flash_time st1) (t_detect e) bass mid bh mh with
  | Some event_type =>
      send_flash_event st1 e event_type (intensity_of event_type) bpm bass mid high
  | None => (st1, None)
  end.

(** The stream: one call of [audio_callback] per chunk; the emitted
    events are collected in emission order. *)
Fixpoint run (st : state) (chunks : list (list Z * env))
  : state * list flash_event :=
  match chunks with
  | [] => (st, [])
  | (audio_data, e) :: rest =>
      let '(st1, ev) := audio_callback st audio_data e in
      let '(st2, evs) := run st1 rest in
      (st2, match ev with Some x => x :: evs | None => evs end)
  end.
End Script.

(** The clock never runs backwards: the readings of a run, in the order in
    which the calls are made, are non-decreasing from [t0] on. *)
Fixpoint clock_monotone (t0 : Q) (chunks : list (list Z * env)) : Prop :=
  match chunks with
  | [] => True
  | (_, e) :: rest =>
      t0 <= t_detect e /\ t_detect e <= t_emit e /\ t_emit e <= t_set e
      /\ clock_monotone (t_set e) rest
  end.

End AiAudioAnalyzer.

(** ** The specification's vocabulary *)

Module Spec.

(** [clamp(x, lo, hi)] *)
Definition clamp (x lo hi : Q) : Q := Qmin (Qmax x lo) hi.

(** Centre frequency of bin [k] of a real-input transform of [n] samples. *)
Definition bin_frequency (n : nat) (sample_rate : Q) (k : nat) : Q :=
  inject_Z (Z.of_nat k) * sample_rate / inject_Z (Z.of_nat n).

(** The bins of a chunk of [n] samples: [0 .. n/2]. *)
Definition bin_frequencies (n : nat) (sample_rate : Q) : list Q :=
  map (bin_frequency n sample_rate) (seq 0 (n / 2 + 1)).

(** Energy of the band [[lo, hi]]: every bin contributes its magnitude
    when its centre frequency lies in the closed interval, nothing
    otherwise. *)
Definition band_energy (frequencies magnitudes : list Q) (lo hi : Q) : Q :=
  np_sum (map (fun fm => if Qle_bool lo (fst fm) && Qle_bool (fst fm) hi
                         then snd fm else 0)
              (combine frequencies magnitudes)).

(** Samples scaled by the magnitude bound of [int16]. *)
Definition normalized (samples : list Z) : list Q :=
  map (fun x => inject_Z x / 32768) samples.

(** The analyzer of section 4.1: normalise, transform, sum per band. *)
Definition analyze (rfft_abs : list Q -> list Q) (samples : list Z)
    (sample_rate : Q) : Q * Q * Q * Q :=
  let magnitudes := rfft_abs (normalized samples) in
  let frequencies := bin_frequencies (length samples) sample_rate in
  (band_energy frequencies magnitudes 20 250,
   band_energy frequencies magnitudes 250 2000,
   band_energy frequencies magnitudes 2000 8000,
   band_energy frequencies magnitudes 300 3400).

(** Consecutive samples strictly increase. *)
Fixpoint increasing (l : list Q) : Prop :=
  match l with
  | a :: (b :: _) as t => a < b /\ increasing t
  | _ => True
  end.

End Spec.

(** ** Concrete inputs used by the examples *)

Module Fixtures.

(** One chunk of silence and one chunk holding a single click of
    amplitude 1, both of [CHUNK_SIZE] samples. *)
Definition silence : list Z := repeat 0%Z 1024.
Definition click : list Z := 1%Z :: repeat 0%Z 1023.

(** A chunk holding a single full-scale click. *)
Definition loud_click : list Z := 32767%Z :: repeat 0%Z 1023.

(** The magnitude spectrum of a chunk whose only non-zero sample is the
    first one: every bin has magnitude [|x0|]. On [silence], [click] and
    [loud_click], scaled or not, this is what [np.abs(np.fft.rfft(x))]
    returns. *)
Definition rfft_abs_impulse (x : list Q) : list Q :=
  repeat (Qabs (hd 0 x)) (length x / 2 + 1).

(** A square root that is exact on squares of rationals
    (here [0] and [1/1024]). *)
Definition sqrt_exact (q : Q) : Q :=
  let r := Qred q in
  inject_Z (Z.sqrt (Qnum r)) / inject_Z (Z.sqrt (Zpos (Qden r))).

(** A tempo estimator that answers 120 BPM on a chunk that starts with a
    non-zero sample and raises on any other chunk. *)
Definition beat_track_click (y : list Q) (sr : Q) : option Q :=
  match y with
  | x :: _ => if Qeq_bool x 0 then None else Some 120
  | [] => None
  end.

(** A clock answer: all three readings at [t] seconds, [sio.emit] returns. *)
Definition at_time (t : Q) : AiAudioAnalyzer.env :=
  {| AiAudioAnalyzer.t_detect := t; AiAudioAnalyzer.t_emit := t;
     AiAudioAnalyzer.t_set := t; AiAudioAnalyzer.emit_ok := true |}.

(** [ai_audio_analyzer] with the primitives above and [config.py]. *)
Definition ai_callback :=
  AiAudioAnalyzer.audio_callback rfft_abs_impulse sqrt_exact beat_track_click config.
Definition ai_run :=
  AiAudioAnalyzer.run rfft_abs_impulse sqrt_exact beat_track_click config.
Definition ai_init := AiAudioAnalyzer.init config.

(** Four silent chunks followed by a click, 23 ms apart: the click is the
    first chunk with five samples of history. *)
Definition quiet_then_click : list (list Z * AiAudioAnalyzer.env) :=
  [ (silence, at_time 1.000); (silence, at_time 1.023);
    (silence, at_time 1.046); (silence, at_time 1.069);
    (click, at_time 1.092) ].

(** The same stream followed by two more clicks, one 23 ms and one 308 ms
    after the first. *)
Definition three_clicks : list (list Z * AiAudioAnalyzer.env) :=
  quiet_then_click ++ [ (click, at_time 1.115); (click, at_time 1.400) ].

(** Forty chunks, 23 ms apart; only the twentieth holds a click, so the
    scheduled tempo update succeeds at chunk 20 and fails at chunk 40. *)
Definition tempo_stream : list (list Z * AiAudioAnalyzer.env) :=
  map (fun i => (if (i =? 19)%nat then click else silence,
                 at_time (1 + inject_Z (Z.of_nat i) * 0.023)))
      (seq 0 40).

(** [dj_listener] after two silent chunks. *)
Definition dj_two_quiet : DjListener.state :=
  {| DjListener.volume_history := extend (Deque.empty 10) [0; 0];
     DjListener.last_flash_time := 0 |}.

(** [simple_rhythm_demo] after four silent chunks. *)
Definition demo_four_quiet : SimpleRhythmDemo.state :=
  {| SimpleRhythmDemo.volume_history := extend (Deque.empty 20) [0; 0; 0; 0];
     SimpleRhythmDemo.bass_history := extend (Deque.empty 20) [0; 0; 0; 0];
     SimpleRhythmDemo.last_flash_time := 0 |}.

(** [music_rhythm_test] after four silent chunks. *)
Definition mrt_four_quiet : MusicRhythmTest.state :=
  {| MusicRhythmTest.volume_history := extend (Deque.empty 20) [0; 0; 0; 0];
     MusicRhythmTest.bass_history := extend (Deque.empty 20) [0; 0; 0; 0];
     MusicRhythmTest.last_flash_time := 0 |}.

(** [live_song_analyzer] after nine silent chunks. *)
Definition live_nine_quiet : LiveSongAnalyzer.state :=
  {| LiveSongAnalyzer.volume_history := extend (Deque.empty 30) (repeat 0 9);
     LiveSongAnalyzer.bass_history := extend (Deque.empty 30) (repeat 0 9);
     LiveSongAnalyzer.last_flash_time := 0 |}.

End Fixtures.

(** ** Python built-ins used by the file modes *)

Module Py.

(** [range(start, stop, step)] for a positive [step]. *)
Definition range (start stop step : Z) : list Z :=
  map (fun k => (start + Z.of_nat k * step)%Z)
      (seq 0 (Z.to_nat ((stop - start + step - 1) / step))).

(** [l[i:j]] for non-negative [i] and [j]. *)
Definition slice {A : Type} (l : list A) (i j : Z) : list A :=
  firstn (Z.to_nat j - Z.to_nat i) (skipn (Z.to_nat i) l).

(** The chunk loop shared by the two [analyze_music_file]:
    [for i in range(0, len(audio) - chunk_size, chunk_size)]. *)
Definition chunk_starts (n : nat) (chunk_size : Z) : list Z :=
  range 0 (Z.of_nat n - chunk_size) chunk_size.

(** The slices [audio[i:i+chunk_size]] the loop visits, in order. *)
Definition file_chunks {A : Type} (audio : list A) (chunk_size : Z) : list (list A) :=
  map (fun i => slice audio i (i + chunk_size))
      (chunk_starts (length audio) chunk_size).

End Py.

(** ** Successive calls of a gate *)

Module Calls.

Section Trace.
Context {State Input : Type}.
Variable step : State -> Input -> Q -> bool * State.

(** The gate is called once per element of [calls], each time with the
    reading of the clock made during the call; the readings of the calls
    that answered true are collected, in order. *)
Fixpoint firing_times (st : State) (calls : list (Input * Q)) : list Q :=
  match calls with
  | [] => []
  | (x, now) :: rest =>
      let r := step st x now in
      if fst r then now :: firing_times (snd r) rest
      else firing_times (snd r) rest
  end.
End Trace.

(** Clock readings that never decrease, from [t0] on. *)
Fixpoint nondecreasing (t0 : Q) (times : list Q) : Prop :=
  match times with
  | [] => True
  | t :: rest => t0 <= t /\ nondecreasing t rest
  end.

(** [dj_listener.detect_beat(rms_volume)] as a gate. *)
Definition dj_gate (cfg : Config) (st : DjListener.state) (rms : Q) (now : Q)
  : bool * DjListener.state :=
  DjListener.detect_beat cfg st rms now.

End Calls.

(** ** [music_rhythm_test.py]: the file mode *)

Module MusicRhythmTestFile.

(** What the chunk loop of [analyze_music_file] accumulates: the detector
    state, [beat_count], and the intensities passed to
    [send_flash_trigger], in order. *)
Record loop_state : Type := {
  detector : MusicRhythmTest.state;
  beat_count : nat;
  sent : list Q
}.

Definition start : loop_state :=
  {| detector := MusicRhythmTest.init; beat_count := 0; sent := [] |}.

Section Script.
Variable rfft_abs : list Q -> list Q.
Variable np_sqrt : Q -> Q.
Variable cfg : Config.

(** [(chunk * 32767).astype(np.int16)]: truncation towards zero; for
    samples in [[-1, 1]] the product is in range. *)
Definition to_int16 (chunk : list Q) : list Z :=
  map (fun x => int16_wrap (py_int (x * 32767))) chunk.

(** [calculate_rms] on an [int16] array. *)
Definition calculate_rms (audio_array : list Z) : Q :=
  np_sqrt (np_mean (map (fun x => inject_Z (int16_wrap (x * x))) audio_array)).

(** The body of the loop for one chunk; [now] is the clock reading made
    inside [detect_beat]. *)
Definition process_chunk (ls : loop_state) (chunk : list Q) (now : Q) : loop_state :=
  let chunk_int16 := to_int16 chunk in
  let rms := calculate_rms chunk_int16 in
  let '(bass, _, _) :=
    MusicRhythmTest.analyze_frequency_bands rfft_abs
      (MusicRhythmTest.frombuffer_int16 chunk_int16) (SAMPLE_RATE cfg) in
  let '((is_beat, intensity), st) :=
    MusicRhythmTest.detect_beat cfg (detector ls) rms bass now in
  if is_beat
  then {| detector := st; beat_count := S (beat_count ls);
          sent := sent ls ++ [intensity] |}
  else {| detector := st; beat_count := beat_count ls; sent := sent ls |}.

(** The loop over chunks paired with the clock reading of their
    iteration. *)
Definition process_chunks (ls : loop_state) (chunks : list (list Q * Q)) : loop_state :=
  fold_left (fun acc c => process_chunk acc (fst c) (snd c)) chunks ls.

(** The chunk loop of [analyze_music_file] on the loaded [audio_data];
    [clock k] is the reading of the clock in iteration [k]. *)
Definition analyze_chunks (audio_data : list Q) (clock : nat -> Q) : loop_state :=
  let chunks := Py.file_chunks audio_data (Z.of_nat (CHUNK_SIZE cfg)) in
  process_chunks start (combine chunks (map clock (seq 0 (length chunks)))).

(** [total_chunks = len(audio_data) // chunk_size] *)
Definition total_chunks (audio_data : list Q) : Z :=
  (Z.of_nat (length audio_data) / Z.of_nat (CHUNK_SIZE cfg))%Z.
End Script.

End MusicRhythmTestFile.

(** ** [simple_rhythm_demo.py]: the file mode *)

Module SimpleRhythmDemoFile.

(** What the chunk loop of [analyze_music_file] accumulates: [beat_idx],
    [beat_count], and the triggers sent, each with the [current_time] of
    its chunk and its intensity. *)
Record loop_state : Type := {
  beat_idx : nat;
  beat_count : nat;
  sent : list (Q * Q)
}.

Definition start : loop_state := {| beat_idx := 0; beat_count := 0; sent := [] |}.

Definition chunk_size : Z := 2048.

Section Script.
Variable np_sqrt : Q -> Q.
(** [sr] and [beat_times], as returned by [librosa.load] and
    [librosa.frames_to_time]. *)
Variable sr : Q.
Variable beat_times : list Q.
Variable audio : list Q.

(** [calculate_rms] on a float array. *)
Definition calculate_rms (audio_data : list Q) : Q :=
  np_sqrt (np_mean (map (fun x => x * x) audio_data)).

(** The body of the loop for the chunk starting at sample [i]. *)
Definition process_chunk (ls : loop_state) (i : Z) : loop_state :=
  let chunk := Py.slice audio i (i + chunk_size) in
  let current_time := inject_Z i / sr in
  let rms := calculate_rms chunk in
  if (beat_idx ls <? length beat_times)%nat
     && Qltb (Qabs (current_time - nth (beat_idx ls) beat_times 0)) 0.1
  then {| beat_idx := beat_idx ls + 1; beat_count := beat_count ls + 1;
          sent := sent ls ++ [(current_time, SimpleRhythmDemo.file_beat_intensity rms)] |}
  else ls.

(** The loop from an intermediate state over the remaining starts. *)
Definition match_beats (ls : loop_state) (starts : list Z) : loop_state :=
  fold_left process_chunk starts ls.

(** The bookkeeping of the loop: the counters agree with the triggers
    sent, [beat_idx] never passes the number of beats, and trigger [k]
    was sent for beat [k], from a chunk less than 0.1 s away from it. *)
Definition matched (ls : loop_state) : Prop :=
  beat_count ls = beat_idx ls
  /\ beat_idx ls = length (sent ls)
  /\ (beat_idx ls <= length beat_times)%nat
  /\ forall k, (k < length (sent ls))%nat ->
       Qabs (fst (nth k (sent ls) (0, 0)) - nth k beat_times 0) < 0.1.

(** The chunk loop of [analyze_music_file]. *)
Definition analyze_chunks : loop_state :=
  match_beats start (Py.chunk_starts (length audio) chunk_size).
End Script.

End SimpleRhythmDemoFile.

(** ** [live_song_analyzer.py]: [process_audio_chunk] *)

Module LiveSongProcess.

(** The fields of the recognition result the script reads. *)
Record song_data : Type := { title : String.string; artist : String.string }.

Inductive event_type : Type := bass_drop | rhythm.

(** The dictionary of [send_flash_event]. *)
Record flash : Type := {
  fl_event_type : event_type;
  fl_intensity : Q;
  fl_bpm : Q;
  fl_timestamp : Q
}.

Record state : Type := {
  beat : LiveSongAnalyzer.state;
  recognition_buffer : list (list Z);
  last_recognition_time : Q;      (* seconds *)
  current_song : option String.string;
  current_artist : option String.string;
  current_bpm : Q
}.

(** The answers of the outside world during one call: the clock inside
    [detect_beat], the clock and the success of [sio.emit] inside
    [send_flash_event], and the clock read before the recognition test. *)
Record env : Type := {
  t_detect : Q;
  t_emit : Q;
  emit_ok : bool;
  t_recognition : Q
}.

(** What one call sends or starts: the flash, whether a recognition was
    attempted, and the song announced with [send_song_info]. *)
Record output : Type := {
  out_flash : option flash;
  out_attempt : bool;
  out_song : option song_data
}.

Definition recognition_cooldown : Q := 30.
Definition buffer_duration : Q := 10.

Definition init : state :=
  {| beat := LiveSongAnalyzer.init; recognition_buffer := [];
     last_recognition_time := 0; current_song := None;
     current_artist := None; current_bpm := 0 |}.

Section Script.
Variable rfft_abs : list Q -> list Q.
Variable np_sqrt : Q -> Q.
(** Saving the buffer to a WAV file and asking Shazam: the recognised
    song, or [None] when nothing is recognised or the request fails. *)
Variable recognize : list (list Z) -> option song_data.
Variable cfg : Config.

(** [calculate_rms] on the [int16] samples. *)
Definition calculate_rms (audio_data : list Z) : Q :=
  np_sqrt (np_mean (map (fun x => inject_Z (int16_wrap (x * x))) audio_data)).

(** [send_flash_event(intensity, event_type)]: failures are silent. *)
Definition send_flash_event (st : state) (e : env) (intensity : Q)
    (event_type : event_type) : option flash :=
  if emit_ok e
  then Some {| fl_event_type := event_type; fl_intensity := intensity;
               fl_bpm := current_bpm st; fl_timestamp := t_emit e |}
  else None.

(** [process_audio_chunk(audio_data, sample_rate)] *)
Definition process_audio_chunk (st : state) (audio_data : list Z)
    (sample_rate : Q) (e : env) : state * output :=
  let buffer := recognition_buffer st ++ [audio_data] in
  let rms := calculate_rms audio_data in
  let bass := LiveSongAnalyzer.analyze_bass rfft_abs audio_data sample_rate in
  let '((is_beat, intensity), beat1) :=
    LiveSongAnalyzer.detect_beat cfg (beat st) rms bass (t_detect e) in
  let flash :=
    if is_beat
    then
      let event_type :=
        if Qgtb bass (np_mean (items (LiveSongAnalyzer.bass_history beat1)) * 2)
        then bass_drop else rhythm in
      send_flash_event st e intensity event_type
    else None in
  let current_time := t_recognition e in
  let buffer_length :=
    inject_Z (Z.of_nat (length buffer)) * inject_Z (Z.of_nat (CHUNK_SIZE cfg))
    / sample_rate in
  if Qgeb buffer_length buffer_duration
     && Qgeb (current_time - last_recognition_time st) recognition_cooldown
  then
    let song := recognize buffer in
    ({| beat := beat1; recognition_buffer := [];
        last_recognition_time := current_time;
        current_song := match song with
                        | Some s => Some (title s)
                        | None => current_song st
                        end;
        current_artist := current_artist st;
        current_bpm := current_bpm st |},
     {| out_flash := flash; out_attempt := true; out_song := song |})
  else
    ({| beat := beat1; recognition_buffer := buffer;
        last_recognition_time := last_recognition_time st;
        current_song := current_song st;
        current_artist := current_artist st;
        current_bpm := current_bpm st |},
     {| out_flash := flash; out_attempt := false; out_song := None |}).

(** [audio_callback] once per chunk; the outputs are collected in order. *)
Fixpoint run (st : state) (chunks : list (list Z * env)) : state * list output :=
  match chunks with
  | [] => (st, [])
  | (in_data, e) :: rest =>
      let '(st1, o) := process_audio_chunk st in_data (SAMPLE_RATE cfg) e in
      let '(st2, os) := run st1 rest in
      (st2, o :: os)
  end.

(** The recognition test of [process_audio_chunk] as a gate on the clock
    reading [t_recognition]. *)
Definition recognition_gate (st : state) (x : list Z * env) (now : Q) : bool * state :=
  let e := {| t_detect := t_detect (snd x); t_emit := t_emit (snd x);
              emit_ok := emit_ok (snd x); t_recognition := now |} in
  let r := process_audio_chunk st (fst x) (SAMPLE_RATE cfg) e in
  (out_attempt (snd r), fst r).
End Script.

End LiveSongProcess.

(** ** Concrete inputs for [live_song_analyzer] *)

Module LiveFixtures.
Import String.

(** A recogniser that always finds the same song. *)
Definition same_song (buffer : list (list Z)) : option LiveSongProcess.song_data :=
  Some {| LiveSongProcess.title := "Song"%string;
          LiveSongProcess.artist := "Artist"%string |}.

(** The state after 430 silent chunks that fired nothing, before any
    recognition. *)
Definition buffered_430 : LiveSongProcess.state :=
  {| LiveSongProcess.beat := LiveSongAnalyzer.init;
     LiveSongProcess.recognition_buffer := repeat Fixtures.silence 430;
     LiveSongProcess.last_recognition_time := 0;
     LiveSongProcess.current_song := None;
     LiveSongProcess.current_artist := None;
     LiveSongProcess.current_bpm := 0 |}.

(** The answers of the outside world at [t] seconds. *)
Definition at_time (t : Q) : LiveSongProcess.env :=
  {| LiveSongProcess.t_detect := t; LiveSongProcess.t_emit := t;
     LiveSongProcess.emit_ok := true; LiveSongProcess.t_recognition := t |}.

(** 431 silent chunks, one second apart from second 100 on: the last
    one completes 10 s of audio. *)
Definition first_recognition : list (list Z * LiveSongProcess.env) :=
  map (fun k => (Fixtures.silence, at_time (100 + inject_Z (Z.of_nat k))))
      (seq 0 431).

End LiveFixtures.

(** ** Float arithmetic on clock readings and bin frequencies *)

Module Float64.

(** Round to the nearest integer, ties to the even one. *)
Definition round_half_even (q : Q) : Z :=
  let f := Qfloor q in
  let r := q - inject_Z f in
  if Qltb r (1 # 2) then f
  else if Qltb (1 # 2) r then (f + 1)%Z
  else if Z.even f then f else (f + 1)%Z.

(** The binary exponent of a positive rational:
    [2 ^ exponent q <= q < 2 ^ (exponent q + 1)]. *)
Definition exponent (q : Q) : Z :=
  let k := (Z.log2 (Qnum q) - Z.log2 (Zpos (Qden q)))%Z in
  if Qle_bool (2 ^ k) q then k else (k - 1)%Z.

(** The spacing of the binary64 numbers from [2 ^ exponent q] on: a
    significand of 53 bits. *)
Definition ulp (q : Q) : Q := 2 ^ (exponent q - 52).

(** The binary64 number nearest to a non-negative rational. *)
Definition round_pos (q : Q) : Q :=
  if Qle_bool q 0 then 0
  else inject_Z (round_half_even (q / ulp q)) * ulp q.

(** IEEE 754 rounding to nearest, ties to even, of a rational to
    binary64. The exponent range is not bounded: no overflow, no
    subnormal numbers. *)
Definition round (q : Q) : Q :=
  if Qle_bool 0 q then round_pos q else - round_pos (- q).

(** The operations the scripts apply to clock readings and to bin
    frequencies. *)
Record arith : Type := {
  mul : Q -> Q -> Q;
  div : Q -> Q -> Q;
  sub : Q -> Q -> Q
}.

(** Arithmetic without rounding. *)
Definition exact : arith := {| mul := Qmult; div := Qdiv; sub := Qminus |}.

(** Python's [*], [/] and [-] on floats: the exact result, rounded. *)
Definition binary64 : arith :=
  {| mul := fun a b => round (a * b);
     div := fun a b => round (a / b);
     sub := fun a b => round (a - b) |}.

(** Rounding keeps the order: a product with a non-negative factor grows
    with the other factor, a difference grows with its first operand and
    shrinks with its second. *)
Definition monotone (A : arith) : Prop :=
  (forall a b c, 0 <= c -> a <= b -> mul A a c <= mul A b c)
  /\ (forall a a' b b', a <= a' -> b' <= b -> sub A a b <= sub A a' b').

(** On clock readings between [lo] and [hi] seconds, the millisecond value
    [t * 1000] and the difference of two millisecond values are each
    within [delta] of the exact result. *)
Definition accurate (A : arith) (lo hi delta : Q) : Prop :=
  forall s t, lo <= s <= hi -> lo <= t <= hi ->
    Qabs (mul A t 1000 - t * 1000) <= delta
    /\ Qabs (sub A (mul A t 1000) (mul A s 1000)
             - (mul A t 1000 - mul A s 1000)) <= delta.

(** [np.fft.rfftfreq(n, d)]: [val = 1.0 / (n * d)], then
    [arange(0, n//2 + 1) * val]. *)
Definition rfftfreq (A : arith) (n : nat) (d : Q) : list Q :=
  let val := div A 1 (mul A (inject_Z (Z.of_nat n)) d) in
  map (fun k => mul A (inject_Z (Z.of_nat k)) val) (seq 0 (n / 2 + 1)).

End Float64.

(** ** The scripts over a float arithmetic

    The functions that read the clock or compute bin frequencies, with
    the float operations on those values taken from a [Float64.arith];
    with [Float64.exact] they are the functions of the modules above. *)

Module DjListenerF.
Import DjListener.

Section Script.
Variable A : Float64.arith.
Variable cfg : Config.

(** [detect_beat(rms_volume)] *)
Definition detect_beat (st : state) (rms_volume : Q) (now : Q) : bool * state :=
  let vh := append (volume_history st) rms_volume in
  let st1 := {| volume_history := vh; last_flash_time := last_flash_time st |} in
  if (len vh <? 3)%nat then (false, st1)
  else
    let avg_volume := np_mean (items vh) in
    let threshold := threshold_of cfg avg_volume in
    let is_beat := Qgtb rms_volume threshold in
    let current_time := Float64.mul A now 1000 in
    let time_since_last_flash := Float64.sub A current_time (last_flash_time st) in
    if is_beat && Qgeb time_since_last_flash (COOLDOWN_MS cfg)
    then (true, {| volume_history := vh; last_flash_time := current_time |})
    else (false, st1).
End Script.

End DjListenerF.

Module MusicRhythmTestF.
Import MusicRhythmTest.

Section Script.
Variable A : Float64.arith.
Variable cfg : Config.

(** [detect_beat(rms_volume, bass_energy)] *)
Definition detect_beat (st : state) (rms_volume bass_energy : Q) (now : Q)
  : (bool * Q) * state :=
  let vh := append (volume_history st) rms_volume in
  let bh := append (bass_history st) bass_energy in
  let st1 := {| volume_history := vh; bass_history := bh;
                last_flash_time := last_flash_time st |} in
  if (len vh <? 5)%nat then ((false, 0.0), st1)
  else
    let avg_volume := np_mean (items vh) in
    let avg_bass := np_mean (items bh) in
    let volume_threshold := avg_volume * 1.5 in
    let bass_threshold := avg_bass * 1.8 in
    let current_time := Float64.mul A now 1000 in
    if Qltb (Float64.sub A current_time (last_flash_time st)) (COOLDOWN_MS cfg)
    then ((false, 0.0), st1)
    else
      let is_beat :=
        (Qgtb rms_volume volume_threshold && Qgtb rms_volume 500)
        || (Qgtb bass_energy bass_threshold && Qgtb bass_energy 1000) in
      if is_beat
      then
        let intensity := py_min 1.0 (py_max 0.3 (rms_volume / 5000)) in
        ((true, intensity),
         {| volume_history := vh; bass_history := bh;
            last_flash_time := current_time |})
      else ((false, 0.0), st1).
End Script.

End MusicRhythmTestF.

Module SimpleRhythmDemoF.
Import SimpleRhythmDemo.

Section Script.
Variable A : Float64.arith.
Variable cfg : Config.

(** [detect_beat(rms, bass)] *)
Definition detect_beat (st : state) (rms bass : Q) (now : Q)
  : (bool * Q) * state :=
  let vh := append (volume_history st) rms in
  let bh := append (bass_history st) bass in
  let st1 := {| volume_history := vh; bass_history := bh;
                last_flash_time := last_flash_time st |} in
  if (len vh <? 5)%nat then ((false, 0.0), st1)
  else
    let avg_vol := np_mean (items vh) in
    let avg_bass := np_mean (items bh) in
    let is_beat := Qgtb rms (avg_vol * 1.5) || Qgtb bass (avg_bass * 1.8) in
    let current_time := Float64.mul A now 1000 in
    if is_beat
       && Qgeb (Float64.sub A current_time (last_flash_time st)) (COOLDOWN_MS cfg)
    then
      let intensity := py_min 1.0 (py_max 0.3 (rms / 5000)) in
      ((true, intensity),
       {| volume_history := vh; bass_history := bh;
          last_flash_time := current_time |})
    else ((false, 0.0), st1).
End Script.

End SimpleRhythmDemoF.

Module LiveSongAnalyzerF.
Import LiveSongAnalyzer.

Section Script.
Variable A : Float64.arith.
Variable rfft_abs : list Q -> list Q.
Variable cfg : Config.

(** [analyze_bass(audio_data, sample_rate)] *)
Definition analyze_bass (audio_data : list Z) (sample_rate : Q) : Q :=
  let audio_array := normalize audio_data in
  let magnitudes := rfft_abs audio_array in
  let freqs :=
    Float64.rfftfreq A (length audio_array) (Float64.div A 1 sample_rate) in
  let bass_mask := band_mask freqs (20, 250) in
  np_sum (mask_select magnitudes bass_mask).

(** [detect_beat(rms, bass)] *)
Definition detect_beat (st : state) (rms bass : Q) (now : Q)
  : (bool * Q) * state :=
  let vh := append (volume_history st) rms in
  let bh := append (bass_history st) bass in
  let st1 := {| volume_history := vh; bass_history := bh;
                last_flash_time := last_flash_time st |} in
  if (len vh <? 10)%nat then ((false, 0.0), st1)
  else
    let avg_vol := np_mean (items vh) in
    let avg_bass := np_mean (items bh) in
    let vol_threshold := avg_vol * 1.6 in
    let bass_threshold := avg_bass * 1.9 in
    let current_time := Float64.mul A now 1000 in
    if Qltb (Float64.sub A current_time (last_flash_time st)) (COOLDOWN_MS cfg)
    then ((false, 0.0), st1)
    else
      let is_beat :=
        (Qgtb rms vol_threshold && Qgtb rms 800)
        || (Qgtb bass bass_threshold && Qgtb bass 2000) in
      if is_beat
      then
        let intensity := py_min 1.0 (py_max 0.4 (rms / 4000)) in
        ((true, intensity),
         {| volume_history := vh; bass_history := bh;
            last_flash_time := current_time |})
      else ((false, 0.0), st1).
End Script.

End LiveSongAnalyzerF.

Module AiAudioAnalyzerF.
Import AiAudioAnalyzer.

Section Script.
Variable A : Float64.arith.
Variable rfft_abs : list Q -> list Q.
Variable np_sqrt : Q -> Q.
Variable beat_track : list Q -> Q -> option Q.
Variable cfg : Config.

(** [analyze_frequency_bands(audio_data, sample_rate)] *)
Definition analyze_frequency_bands (audio_data : list Z) (sample_rate : Q)
  : Q * Q * Q * Q :=
  let magnitudes := rfft_abs (map inject_Z audio_data) in
  let frequencies :=
    Float64.rfftfreq A (length audio_data) (Float64.div A 1 sample_rate) in
  let bass_mask := band_mask frequencies BASS_RANGE in
  let mid_mask := band_mask frequencies MID_RANGE in
  let high_mask := band_mask frequencies HIGH_RANGE in
  let vocal_mask := band_mask frequencies VOCAL_RANGE in
  (np_sum (mask_select magnitudes bass_mask),
   np_sum (mask_select magnitudes mid_mask),
   np_sum (mask_select magnitudes high_mask),
   np_sum (mask_select magnitudes vocal_mask)).

(** [detect_rhythm_event(bass_energy, mid_energy, bass_history, mid_history)] *)
Definition detect_rhythm_event (last_flash_time : Q) (now : Q)
    (bass_energy mid_energy : Q) (bass_history mid_history : deque Q)
  : option event_type :=
  let current_time := Float64.mul A now 1000 in
  if Qltb (Float64.sub A current_time last_flash_time) (COOLDOWN_MS cfg) then None
  else if (len bass_history <? 5)%nat || (len mid_history <? 5)%nat then None
  else
    let avg_bass := np_mean (items bass_history) in
    let avg_mid := np_mean (items mid_history) in
    if detect_bass_drop bass_energy bass_history then Some bass_drop
    else if Qgtb bass_energy (avg_bass * 1.5) && Qgtb bass_energy 3000
    then Some rhythm
    else if Qgtb mid_energy (avg_mid * 1.3) && Qgtb mid_energy (bass_energy * 1.2)
    then Some vocal
    else if (5 <=? len bass_history)%nat
            && strictly_increasing (lastn 5 (items bass_history))
    then Some build
    else None.

(** [send_flash_event(...)] *)
Definition send_flash_event (st : state) (e : env) (event_type : event_type)
    (intensity bpm bass mid high : Q) : state * option flash_event :=
  if emit_ok e
  then (set_last_flash_time st (Float64.mul A (t_set e) 1000),
        Some {| ev_event_type := event_type; ev_intensity := intensity;
                ev_bpm := py_int bpm; ev_bass_energy := py_int bass;
                ev_mid_energy := py_int mid; ev_high_energy := py_int high;
                ev_timestamp := t_emit e |})
  else (st, None).

(** [audio_callback(in_data, ...)] *)
Definition audio_callback (st : state) (audio_data : list Z) (e : env)
  : state * option flash_event :=
  let rms_volume := calculate_rms np_sqrt audio_data in
  let vh := append (volume_history st) rms_volume in
  let '(bass, mid, high, _) :=
    analyze_frequency_bands audio_data (SAMPLE_RATE cfg) in
  let bh := append (bass_history st) bass in
  let mh := append (mid_history st) mid in
  let fc := S (frame_counter st) in
  let bpm :=
    if (fc mod 20 =? 0)%nat then estimate_bpm beat_track audio_data (SAMPLE_RATE cfg)
    else current_bpm st in
  let st1 := {| volume_history := vh; bass_history := bh; mid_history := mh;
                frame_counter := fc; current_bpm := bpm;
                last_flash_time := last_flash_time st |} in
  match detect_rhythm_event (last_flash_time st1) (t_detect e) bass mid bh mh with
  | Some event_type =>
      send_flash_event st1 e event_type (intensity_of event_type) bpm bass mid high
  | None => (st1, None)
  end.

(** The stream: one call of [audio_callback] per chunk. *)
Fixpoint run (st : state) (chunks : list (list Z * env))
  : state * list flash_event :=
  match chunks with
  | [] => (st, [])
  | (audio_data, e) :: rest =>
      let '(st1, ev) := audio_callback st audio_data e in
      let '(st2, evs) := run st1 rest in
      (st2, match ev with Some x => x :: evs | None => evs end)
  end.
End Script.

(** The gap between two events as the cooldown test measures it: the
    difference of the millisecond values [timestamp * 1000]. *)
Definition measured_gap (A : Float64.arith) (e1 e2 : flash_event) : Q :=
  Float64.sub A (Float64.mul A (ev_timestamp e2) 1000)
                (Float64.mul A (ev_timestamp e1) 1000).

End AiAudioAnalyzerF.

(** The gates over a float arithmetic, for [Calls.firing_times]; of the
    pair answered by the [detect_beat] of [music_rhythm_test],
    [simple_rhythm_demo] and [live_song_analyzer] the boolean is kept. *)
Module CallsF.

Definition dj_gate (A : Float64.arith) (cfg : Config) (st : DjListener.state)
    (rms : Q) (now : Q) : bool * DjListener.state :=
  DjListenerF.detect_beat A cfg st rms now.

Definition mrt_gate (A : Float64.arith) (cfg : Config) (st : MusicRhythmTest.state)
    (x : Q * Q) (now : Q) : bool * MusicRhythmTest.state :=
  let r := MusicRhythmTestF.detect_beat A cfg st (fst x) (snd x) now in
  (fst (fst r), snd r).

Definition demo_gate (A : Float64.arith) (cfg : Config) (st : SimpleRhythmDemo.state)
    (x : Q * Q) (now : Q) : bool * SimpleRhythmDemo.state :=
  let r := SimpleRhythmDemoF.detect_beat A cfg st (fst x) (snd x) now in
  (fst (fst r), snd r).

Definition live_gate (A : Float64.arith) (cfg : Config) (st : LiveSongAnalyzer.state)
    (x : Q * Q) (now : Q) : bool * LiveSongAnalyzer.state :=
  let r := LiveSongAnalyzerF.detect_beat A cfg st (fst x) (snd x) now in
  (fst (fst r), snd r).

(** The gap between two clock readings as the cooldown test measures it. *)
Definition measured_gap (A : Float64.arith) (a b : Q) : Q :=
  Float64.sub A (Float64.mul A b 1000) (Float64.mul A a 1000).

End CallsF.

(** ** Concrete inputs at the edge of the cooldown and of a band *)

Module FloatFixtures.

(** Two binary64 clock readings of November 2023, 0.25 s - 2^-22 s
    apart. *)
Definition t_first : Q := 3565158400000011 # 2097152.
Definition t_second : Q := 7130316801048597 # 4194304.

(** Four silent chunks, then a click at each of the two readings. *)
Definition boundary_clicks : list (list Z * AiAudioAnalyzer.env) :=
  [ (Fixtures.silence, Fixtures.at_time 1699999999);
    (Fixtures.silence, Fixtures.at_time (1699999999 + (1 # 4)));
    (Fixtures.silence, Fixtures.at_time (1699999999 + (1 # 2)));
    (Fixtures.silence, Fixtures.at_time (1699999999 + (3 # 4)));
    (Fixtures.click, Fixtures.at_time t_first);
    (Fixtures.click, Fixtures.at_time t_second) ].

(** A click whose timestamp is read at 1.300 s and whose [last_flash_time]
    is read after the wall clock was set back to 1.000 s, then a click at
    1.260 s. *)
Definition clock_set_back : list (list Z * AiAudioAnalyzer.env) :=
  [ (Fixtures.silence, Fixtures.at_time 1.000);
    (Fixtures.silence, Fixtures.at_time 1.023);
    (Fixtures.silence, Fixtures.at_time 1.046);
    (Fixtures.silence, Fixtures.at_time 1.069);
    (Fixtures.click,
     {| AiAudioAnalyzer.t_detect := 1.300; AiAudioAnalyzer.t_emit := 1.300;
        AiAudioAnalyzer.t_set := 1.000; AiAudioAnalyzer.emit_ok := true |});
    (Fixtures.click, Fixtures.at_time 1.260) ].

(** [ai_audio_analyzer] in binary64, with the primitives of [Fixtures]. *)
Definition ai_run :=
  AiAudioAnalyzerF.run Float64.binary64 Fixtures.rfft_abs_impulse
    Fixtures.sqrt_exact Fixtures.beat_track_click config.

(** Loud calls of a gate at the two readings. *)
Definition boundary_calls : list (Q * Q) := [(9000, t_first); (20000, t_second)].
Definition boundary_calls2 : list ((Q * Q) * Q) :=
  [((9000, 0), t_first); ((20000, 0), t_second)].

(** A chunk of 1323 samples holding one click: at 44100 Hz the bins 60,
    102 and 240 are centred on 2000 Hz, 3400 Hz and 8000 Hz. *)
Definition click_1323 : list Z := 1%Z :: repeat 0%Z 1322.

End FloatFixtures.

(** * Properties *)

(** ** Comparisons *)

Lemma Qgtb_true (a b : Q) : Qgtb a b = true <-> b < a.
Proof.
  unfold Qgtb. rewrite negb_true_iff, <- not_true_iff_false, Qle_bool_iff.
  split; [apply Qnot_le_lt | apply Qlt_not_le].
Qed.

Lemma Qgtb_false (a b : Q) : Qgtb a b = false <-> a <= b.
Proof.
  unfold Qgtb. rewrite negb_false_iff. apply Qle_bool_iff.
Qed.

Lemma Qltb_true (a b : Q) : Qltb a b = true <-> a < b.
Proof. apply (Qgtb_true b a). Qed.

Lemma Qltb_false (a b : Q) : Qltb a b = false <-> b <= a.
Proof. apply (Qgtb_false b a). Qed.

Lemma Qgeb_true (a b : Q) : Qgeb a b = true <-> b <= a.
Proof. apply Qle_bool_iff. Qed.

Lemma Qleb_true (a b : Q) : Qleb a b = true <-> a <= b.
Proof. apply Qle_bool_iff. Qed.

Lemma py_max_cases (a b : Q) :
  (a < b /\ py_max a b = b) \/ (b <= a /\ py_max a b = a).
Proof.
  unfold py_max. destruct (Qgtb b a) eqn:E.
  - left. apply Qgtb_true in E. auto.
  - right. apply Qgtb_false in E. auto.
Qed.

Lemma py_min_cases (a b : Q) :
  (b < a /\ py_min a b = b) \/ (a <= b /\ py_min a b = a).
Proof.
  unfold py_min. destruct (Qltb b a) eqn:E.
  - left. apply Qltb_true in E. auto.
  - right. apply Qltb_false in E. auto.
Qed.

(** Python's nested [min(hi, max(lo, x))] is the specification's clamp
    whenever the bounds are ordered. *)
Lemma py_clamp_is_clamp (x lo hi hi' : Q) :
  hi == hi' -> lo <= hi -> py_min hi (py_max lo x) == Spec.clamp x lo hi'.
Proof.
  intros He Hb. unfold Spec.clamp.
  destruct (py_max_cases lo x) as [[H1 ->] | [H1 ->]];
  [ destruct (py_min_cases hi x) as [[H2 ->] | [H2 ->]]
  | destruct (py_min_cases hi lo) as [[H2 ->] | [H2 ->]] ];
  destruct (Q.max_spec x lo) as [[H3 E3] | [H3 E3]];
  destruct (Q.min_spec (Qmax x lo) hi') as [[H4 E4] | [H4 E4]];
  rewrite ?E4, ?E3 in *; lra.
Qed.

Lemma py_clamp_bounds (x lo hi : Q) :
  lo <= hi -> lo <= py_min hi (py_max lo x) <= hi.
Proof.
  intros Hb.
  destruct (py_max_cases lo x) as [[H1 ->] | [H1 ->]];
  [ destruct (py_min_cases hi x) as [[H2 ->] | [H2 ->]]
  | destruct (py_min_cases hi lo) as [[H2 ->] | [H2 ->]] ]; lra.
Qed.

(** ** The bounded deque *)

Section DequeFacts.
Context {A : Type}.
Implicit Types (d : deque A) (l xs : list A).

Lemma lastn_all n l : (length l <= n)%nat -> lastn n l = l.
Proof.
  intros H. unfold lastn. replace (length l - n)%nat with 0%nat by lia.
  reflexivity.
Qed.

Lemma lastn_length n l : length (lastn n l) = Nat.min n (length l).
Proof. unfold lastn. rewrite length_skipn. lia. Qed.

Lemma lastn_app_long n p l : (n <= length l)%nat -> lastn n (p ++ l) = lastn n l.
Proof.
  intros H. unfold lastn. rewrite skipn_app, length_app.
  rewrite skipn_all2 by lia. simpl. f_equal. lia.
Qed.

Lemma lastn_lastn_app n l r : lastn n (lastn n l ++ r) = lastn n (l ++ r).
Proof.
  destruct (Nat.le_gt_cases (length l) n) as [Hs | Hl].
  - now rewrite (lastn_all n l).
  - rewrite <- (firstn_skipn (length l - n) l) at 2.
    rewrite <- app_assoc. fold (lastn n l).
    symmetry. apply lastn_app_long.
    rewrite length_app, lastn_length. lia.
Qed.

Lemma lastn_snoc_tl n l x :
  length l = n -> lastn n (l ++ [x]) = tl (l ++ [x]).
Proof.
  intros H. unfold lastn. rewrite length_app. simpl.
  replace (length l + 1 - n)%nat with 1%nat by lia.
  destruct (l ++ [x]); reflexivity.
Qed.

(** One [append] keeps the most recent [maxlen] items. *)
Lemma append_items d x :
  bounded d -> items (append d x) = lastn (maxlen d) (items d ++ [x]).
Proof.
  unfold bounded, len, append. intros Hb. cbn [items maxlen].
  rewrite length_app. cbn [length].
  destruct (Nat.ltb_spec (maxlen d) (length (items d) + 1)) as [Hfull | Hroom].
  - symmetry. apply lastn_snoc_tl. lia.
  - symmetry. apply lastn_all. rewrite length_app. simpl. lia.
Qed.

Lemma append_maxlen d x : maxlen (append d x) = maxlen d.
Proof. reflexivity. Qed.

Lemma append_bounded d x : bounded d -> bounded (append d x).
Proof.
  intros Hb. unfold bounded, len. rewrite append_items by assumption.
  rewrite lastn_length, append_maxlen. lia.
Qed.

Lemma extend_maxlen xs : forall d, maxlen (extend d xs) = maxlen d.
Proof.
  induction xs as [| x xs IH]; intros d; [reflexivity |].
  cbn [extend fold_left]. fold (extend (append d x) xs). now rewrite IH.
Qed.

Lemma extend_bounded xs : forall d, bounded d -> bounded (extend d xs).
Proof.
  induction xs as [| x xs IH]; intros d Hb; [assumption |].
  apply (IH (append d x)), append_bounded, Hb.
Qed.

(** After any sequence of appends the deque holds the most recent
    [maxlen] items, oldest first. *)
Lemma extend_items xs :
  forall d, bounded d ->
    items (extend d xs) = lastn (maxlen d) (items d ++ xs).
Proof.
  induction xs as [| x xs IH]; intros d Hb.
  - cbn [extend fold_left]. rewrite app_nil_r. symmetry.
    apply lastn_all, Hb.
  - cbn [extend fold_left]. fold (extend (append d x) xs).
    rewrite IH by (apply append_bounded, Hb).
    rewrite append_maxlen, append_items by assumption.
    rewrite lastn_lastn_app, <- app_assoc. reflexivity.
Qed.

Lemma empty_bounded n : bounded (@Deque.empty A n).
Proof. unfold bounded, len. simpl. lia. Qed.

(** The item that was just appended is the newest one of the deque. *)
Lemma append_last d x :
  (0 < maxlen d)%nat -> bounded d ->
  exists older, items (append d x) = older ++ [x].
Proof.
  intros Hpos Hb. rewrite append_items by assumption.
  unfold lastn. rewrite skipn_app, length_app. cbn [length].
  replace (length (items d) + 1 - maxlen d - length (items d))%nat with 0%nat
    by (unfold bounded, len in Hb; lia).
  eexists. reflexivity.
Qed.
End DequeFacts.

Create HintDb deque.
#[local] Hint Resolve empty_bounded append_bounded extend_bounded : deque.

(** ** Float arithmetic *)

Section FloatFacts.

Lemma exact_monotone : Float64.monotone Float64.exact.
Proof.
  split; cbn [Float64.exact Float64.mul Float64.sub].
  - intros a b c Hc Hab. now apply Qmult_le_compat_r.
  - intros a a' b b' Ha Hb. lra.
Qed.

Lemma exact_accurate (lo hi : Q) : Float64.accurate Float64.exact lo hi 0.
Proof.
  intros s t _ _. cbn [Float64.exact Float64.mul Float64.sub].
  split; apply Qabs_Qle_condition; lra.
Qed.

(** With arithmetic without rounding the functions over a float arithmetic
    are those of the exact model. *)
Lemma exact_rfftfreq (n : nat) (d : Q) :
  Float64.rfftfreq Float64.exact n d = rfftfreq n d.
Proof. reflexivity. Qed.

Lemma exact_gates (cfg : Config) :
  DjListenerF.detect_beat Float64.exact cfg = DjListener.detect_beat cfg
  /\ MusicRhythmTestF.detect_beat Float64.exact cfg = MusicRhythmTest.detect_beat cfg
  /\ SimpleRhythmDemoF.detect_beat Float64.exact cfg = SimpleRhythmDemo.detect_beat cfg
  /\ LiveSongAnalyzerF.detect_beat Float64.exact cfg = LiveSongAnalyzer.detect_beat cfg.
Proof. repeat split. Qed.

Lemma exact_analyzers (rfft_abs : list Q -> list Q) :
  AiAudioAnalyzerF.analyze_frequency_bands Float64.exact rfft_abs
  = AiAudioAnalyzer.analyze_frequency_bands rfft_abs
  /\ LiveSongAnalyzerF.analyze_bass Float64.exact rfft_abs
     = LiveSongAnalyzer.analyze_bass rfft_abs.
Proof. split; reflexivity. Qed.

Lemma exact_audio_callback rfft_abs np_sqrt beat_track cfg :
  AiAudioAnalyzerF.audio_callback Float64.exact rfft_abs np_sqrt beat_track cfg
  = AiAudioAnalyzer.audio_callback rfft_abs np_sqrt beat_track cfg.
Proof. reflexivity. Qed.

Lemma exact_run rfft_abs np_sqrt beat_track cfg chunks :
  forall st,
    AiAudioAnalyzerF.run Float64.exact rfft_abs np_sqrt beat_track cfg st chunks
    = AiAudioAnalyzer.run rfft_abs np_sqrt beat_track cfg st chunks.
Proof.
  induction chunks as [| [audio e] rest IH]; intros st; [reflexivity |].
  cbn [AiAudioAnalyzerF.run AiAudioAnalyzer.run].
  rewrite exact_audio_callback.
  destruct (AiAudioAnalyzer.audio_callback _ _ _ _ _ _ _) as [st1 ev].
  rewrite IH. reflexivity.
Qed.

(** A property of all ordered pairs carries over along an implication
    that may use a property of the elements. *)
Lemma ForallOrdPairs_impl_on {T : Type} (R : T -> Prop) (P P' : T -> T -> Prop)
    (l : list T) :
  (forall a b, R a -> R b -> P a b -> P' a b) ->
  Forall R l -> ForallOrdPairs P l -> ForallOrdPairs P' l.
Proof.
  intros Himp HR HP. induction HP as [| a l Ha HP IH]; [constructor |].
  inversion HR as [| ? ? HRa HRl]; subst.
  constructor; [| now apply IH].
  rewrite Forall_forall in *. intros b Hb. apply Himp; auto.
Qed.

(** A gap of at least [cd] between millisecond values, as the arithmetic
    measures it, is a gap of at least [cd - 3 * delta] between the
    readings. *)
Lemma measured_gap_tolerance (A : Float64.arith) (lo hi delta cd a b : Q) :
  Float64.accurate A lo hi delta ->
  lo <= a <= hi -> lo <= b <= hi ->
  cd <= Float64.sub A (Float64.mul A b 1000) (Float64.mul A a 1000) ->
  cd - 3 * delta <= (b - a) * 1000.
Proof.
  intros Hacc Ha Hb Hgap.
  destruct (Hacc a b Ha Hb) as [Hmb Hsub].
  destruct (Hacc a a Ha Ha) as [Hma _].
  apply Qabs_Qle_condition in Hmb, Hma, Hsub. lra.
Qed.
End FloatFacts.

(** ** Rounding to binary64 *)

Section Binary64Facts.
Import Float64.

Lemma round_half_even_floor (q : Q) :
  (Qfloor q <= round_half_even q <= Qfloor q + 1)%Z.
Proof.
  unfold round_half_even.
  destruct (Qltb _ _); [lia |]. destruct (Qltb _ _); [lia |].
  destruct (Z.even _); lia.
Qed.

Lemma round_half_even_near (q : Q) :
  q - (1 # 2) <= inject_Z (round_half_even q) <= q + (1 # 2).
Proof.
  pose proof (Qfloor_le q) as Hlo. pose proof (Qlt_floor q) as Hhi.
  rewrite inject_Z_plus in Hhi. change (inject_Z 1) with 1 in Hhi.
  unfold round_half_even.
  destruct (Qltb (q - inject_Z (Qfloor q)) (1 # 2)) eqn:E1.
  - apply Qltb_true in E1. lra.
  - apply Qltb_false in E1.
    destruct (Qltb (1 # 2) (q - inject_Z (Qfloor q))) eqn:E2.
    + rewrite inject_Z_plus. change (inject_Z 1) with 1. lra.
    + apply Qltb_false in E2.
      destruct (Z.even (Qfloor q));
        rewrite ?inject_Z_plus; change (inject_Z 1) with 1; lra.
Qed.

Lemma round_half_even_Z (z : Z) : round_half_even (inject_Z z) = z.
Proof.
  unfold round_half_even. rewrite Qfloor_Z.
  destruct (Qltb (inject_Z z - inject_Z z) (1 # 2)) eqn:E; [reflexivity |].
  apply Qltb_false in E. lra.
Qed.

Lemma round_half_even_monotone (a b : Q) :
  a <= b -> (round_half_even a <= round_half_even b)%Z.
Proof.
  intros Hab. pose proof (Qfloor_resp_le a b Hab) as Hf.
  pose proof (round_half_even_floor a) as Ha.
  pose proof (round_half_even_floor b) as Hb.
  destruct (Z.eq_dec (Qfloor a) (Qfloor b)) as [Heq | Hne]; [| lia].
  clear Ha Hb Hf. unfold round_half_even. rewrite Heq.
  destruct (Qltb (b - inject_Z (Qfloor b)) (1 # 2)) eqn:B1.
  - apply Qltb_true in B1.
    destruct (Qltb (a - inject_Z (Qfloor b)) (1 # 2)) eqn:A1; [lia |].
    apply Qltb_false in A1. lra.
  - apply Qltb_false in B1.
    destruct (Qltb (1 # 2) (b - inject_Z (Qfloor b))) eqn:B2.
    + destruct (Qltb (a - inject_Z (Qfloor b)) (1 # 2)); [lia |].
      destruct (Qltb (1 # 2) (a - inject_Z (Qfloor b))); [lia |].
      destruct (Z.even (Qfloor b)); lia.
    + apply Qltb_false in B2.
      destruct (Qltb (a - inject_Z (Qfloor b)) (1 # 2)) eqn:A1;
        [destruct (Z.even (Qfloor b)); lia |].
      destruct (Qltb (1 # 2) (a - inject_Z (Qfloor b))) eqn:A2.
      * apply Qltb_true in A2. lra.
      * lia.
Qed.

Lemma pow2_pos (k : Z) : 0 < 2 ^ k.
Proof. apply Qpower_0_lt. lra. Qed.

Lemma pow2_plus (a b : Z) : 2 ^ (a + b) == 2 ^ a * 2 ^ b.
Proof. apply Qpower_plus. lra. Qed.

Lemma pow2_le (a b : Z) : (a <= b)%Z -> 2 ^ a <= 2 ^ b.
Proof. intros H. apply Qpower_le_compat_l; [exact H | lra]. Qed.

Lemma pow2_lt (a b : Z) : (a < b)%Z -> 2 ^ a < 2 ^ b.
Proof. intros H. apply Qpower_lt_compat_l; [exact H | lra]. Qed.

Lemma pow2_lt_inv (a b : Z) : 2 ^ a < 2 ^ b -> (a < b)%Z.
Proof. intros H. apply (Qpower_lt_compat_l_inv 2); [exact H | lra]. Qed.

Lemma pow2_inject (k : Z) : (0 <= k)%Z -> inject_Z (2 ^ k) == 2 ^ k.
Proof. intros H. now rewrite Zpower_Qpower. Qed.

(** The exponent brackets a positive rational. *)
Lemma exponent_spec (q : Q) :
  0 < q -> 2 ^ exponent q <= q /\ q < 2 ^ (exponent q + 1).
Proof.
  intros Hq. destruct q as [n d]. 
  assert (Hn : (0 < n)%Z) by (unfold Qlt in Hq; cbn in Hq; lia).
  unfold exponent. cbn [Qnum Qden].
  set (a := Z.log2 n). set (b := Z.log2 (Zpos d)).
  assert (Ha0 : (0 <= a)%Z) by apply Z.log2_nonneg.
  assert (Hb0 : (0 <= b)%Z) by apply Z.log2_nonneg.
  destruct (Z.log2_spec n Hn) as [Ha1 Ha2]. fold a in Ha1, Ha2.
  destruct (Z.log2_spec (Zpos d) (Pos2Z.is_pos d)) as [Hb1 Hb2].
  fold b in Hb1, Hb2.
  assert (Hq' : n # d == inject_Z n / inject_Z (Zpos d)) by apply Qmake_Qdiv.
  assert (Hd : 0 < inject_Z (Zpos d)).
  { change 0 with (inject_Z 0). rewrite <- Zlt_Qlt. lia. }
  assert (QA1 : 2 ^ a <= inject_Z n).
  { rewrite <- pow2_inject by lia. now rewrite <- Zle_Qle. }
  assert (QA2 : inject_Z n < 2 ^ (a + 1)).
  { rewrite <- pow2_inject by lia. rewrite <- Zlt_Qlt.
    replace (a + 1)%Z with (Z.succ a) by lia. exact Ha2. }
  assert (QB1 : 2 ^ b <= inject_Z (Zpos d)).
  { rewrite <- pow2_inject by lia. now rewrite <- Zle_Qle. }
  assert (QB2 : inject_Z (Zpos d) < 2 ^ (b + 1)).
  { rewrite <- pow2_inject by lia. rewrite <- Zlt_Qlt.
    replace (b + 1)%Z with (Z.succ b) by lia. exact Hb2. }
  pose proof (pow2_pos b) as Pb. pose proof (pow2_pos a) as Pa.
  pose proof (pow2_pos (a - b)) as Pk.
  (* q < 2^(k+1) *)
  assert (Hup : n # d < 2 ^ (a - b + 1)).
  { rewrite Hq'. apply Qlt_shift_div_r; [exact Hd |].
    assert (E : 2 ^ (a + 1) == 2 ^ (a - b + 1) * 2 ^ b).
    { rewrite <- pow2_plus. replace (a - b + 1 + b)%Z with (a + 1)%Z by lia.
      reflexivity. }
    pose proof (pow2_pos (a - b + 1)) as Pk1.
    assert (2 ^ (a - b + 1) * 2 ^ b <= 2 ^ (a - b + 1) * inject_Z (Zpos d)).
    { apply Qmult_le_l; assumption. }
    lra. }
  (* 2^(k-1) < q *)
  assert (Hlo : 2 ^ (a - b - 1) < n # d).
  { rewrite Hq'. apply Qlt_shift_div_l; [exact Hd |].
    assert (E : 2 ^ a == 2 ^ (a - b - 1) * 2 ^ (b + 1)).
    { rewrite <- pow2_plus. replace (a - b - 1 + (b + 1))%Z with a by lia.
      reflexivity. }
    pose proof (pow2_pos (a - b - 1)) as Pk1.
    assert (2 ^ (a - b - 1) * inject_Z (Zpos d) < 2 ^ (a - b - 1) * 2 ^ (b + 1)).
    { apply Qmult_lt_l; assumption. }
    lra. }
  destruct (Qle_bool (2 ^ (a - b)) (n # d)) eqn:E.
  - apply Qle_bool_iff in E. split; assumption.
  - assert (Hlt : n # d < 2 ^ (a - b)).
    { apply Qnot_le_lt. intros H. apply Qle_bool_iff in H. congruence. }
    replace (a - b - 1 + 1)%Z with (a - b)%Z by lia.
    split; [apply Qlt_le_weak; exact Hlo | exact Hlt].
Qed.

Lemma exponent_unique (q : Q) (e : Z) :
  2 ^ e <= q -> q < 2 ^ (e + 1) -> exponent q = e.
Proof.
  intros H1 H2.
  assert (Hq : 0 < q) by (pose proof (pow2_pos e); lra).
  destruct (exponent_spec q Hq) as [H3 H4].
  assert ((e < exponent q + 1)%Z) by (apply pow2_lt_inv; lra).
  assert ((exponent q < e + 1)%Z) by (apply pow2_lt_inv; lra).
  lia.
Qed.

Lemma exponent_monotone (a b : Q) :
  0 < a -> a <= b -> (exponent a <= exponent b)%Z.
Proof.
  intros Ha Hab.
  destruct (exponent_spec a Ha) as [H1 _].
  destruct (exponent_spec b ltac:(lra)) as [_ H2].
  assert ((exponent a < exponent b + 1)%Z) by (apply pow2_lt_inv; lra).
  lia.
Qed.

Lemma ulp_pos (q : Q) : 0 < ulp q.
Proof. apply pow2_pos. Qed.

Lemma round_pos_nonneg (q : Q) : 0 <= round_pos q.
Proof.
  unfold round_pos. destruct (Qle_bool q 0) eqn:E; [lra |].
  assert (Hq : 0 < q).
  { apply Qnot_le_lt. intros H. apply Qle_bool_iff in H. congruence. }
  pose proof (ulp_pos q) as Hu.
  apply Qmult_le_0_compat; [| lra].
  change 0 with (inject_Z 0). rewrite <- Zle_Qle.
  pose proof (round_half_even_floor (q / ulp q)) as Hf.
  assert (0 <= Qfloor (q / ulp q))%Z; [| lia].
  change 0%Z with (Qfloor 0). apply Qfloor_resp_le.
  apply Qle_shift_div_l; [exact Hu | lra].
Qed.

(** A positive rational rounds into its binade. *)
Lemma round_pos_binade (q : Q) :
  0 < q -> 2 ^ exponent q <= round_pos q <= 2 ^ (exponent q + 1).
Proof.
  intros Hq. destruct (exponent_spec q Hq) as [H1 H2].
  unfold round_pos.
  destruct (Qle_bool q 0) eqn:E; [apply Qle_bool_iff in E; lra |].
  pose proof (ulp_pos q) as Hu. unfold ulp in *.
  set (e := exponent q) in *. set (u := 2 ^ (e - 52)) in *.
  assert (E52 : 2 ^ e == inject_Z (2 ^ 52) * u).
  { rewrite pow2_inject by lia. unfold u. rewrite <- pow2_plus.
    replace (52 + (e - 52))%Z with e by lia. reflexivity. }
  assert (E53 : 2 ^ (e + 1) == inject_Z (2 ^ 53) * u).
  { rewrite pow2_inject by lia. unfold u. rewrite <- pow2_plus.
    replace (53 + (e - 52))%Z with (e + 1)%Z by lia. reflexivity. }
  rewrite E52, E53. split.
  - apply Qmult_le_compat_r; [| lra]. rewrite <- Zle_Qle.
    rewrite <- (round_half_even_Z (2 ^ 52)). apply round_half_even_monotone.
    apply Qle_shift_div_l; [exact Hu | lra].
  - apply Qmult_le_compat_r; [| lra]. rewrite <- Zle_Qle.
    rewrite <- (round_half_even_Z (2 ^ 53)). apply round_half_even_monotone.
    apply Qle_shift_div_r; [exact Hu | lra].
Qed.

Lemma round_pos_monotone (a b : Q) : a <= b -> round_pos a <= round_pos b.
Proof.
  intros Hab.
  destruct (Qlt_le_dec 0 a) as [Ha | Ha].
  - assert (Hb : 0 < b) by lra.
    pose proof (exponent_monotone a b Ha Hab) as He.
    destruct (Z.eq_dec (exponent a) (exponent b)) as [Heq | Hne].
    + unfold round_pos.
      destruct (Qle_bool a 0) eqn:Ea; [apply Qle_bool_iff in Ea; lra |].
      destruct (Qle_bool b 0) eqn:Eb; [apply Qle_bool_iff in Eb; lra |].
      unfold ulp. rewrite Heq.
      pose proof (pow2_pos (exponent b - 52)) as Hu.
      apply Qmult_le_compat_r; [| lra]. rewrite <- Zle_Qle.
      apply round_half_even_monotone.
      apply Qle_shift_div_l; [exact Hu |].
      setoid_replace (a / 2 ^ (exponent b - 52) * 2 ^ (exponent b - 52)) with a
        by (field; lra).
      exact Hab.
    + destruct (round_pos_binade a Ha) as [_ H1].
      destruct (round_pos_binade b Hb) as [H2 _].
      assert (2 ^ (exponent a + 1) <= 2 ^ exponent b) by (apply pow2_le; lia).
      lra.
  - assert (E : round_pos a = 0).
    { unfold round_pos. destruct (Qle_bool a 0) eqn:Ea; [reflexivity |].
      exfalso. apply Qle_bool_iff in Ha. congruence. }
    rewrite E. apply round_pos_nonneg.
Qed.

Lemma round_monotone (a b : Q) : a <= b -> round a <= round b.
Proof.
  intros Hab. unfold round.
  destruct (Qle_bool 0 a) eqn:Ea; destruct (Qle_bool 0 b) eqn:Eb.
  - now apply round_pos_monotone.
  - apply Qle_bool_iff in Ea.
    assert (~ 0 <= b) by (intros H; apply Qle_bool_iff in H; congruence). lra.
  - pose proof (round_pos_nonneg (- a)). pose proof (round_pos_nonneg b). lra.
  - assert (H : round_pos (- b) <= round_pos (- a))
      by (apply round_pos_monotone; lra).
    lra.
Qed.

Lemma binary64_monotone : monotone binary64.
Proof.
  split; cbn [binary64 mul sub].
  - intros a b c Hc Hab. apply round_monotone. now apply Qmult_le_compat_r.
  - intros a a' b b' Ha Hb. apply round_monotone. lra.
Qed.

(** The rounding error is half a unit in the last place. *)
Lemma round_pos_error (q : Q) (e : Z) :
  0 <= q -> q < 2 ^ (e + 1) -> Qabs (round_pos q - q) <= 2 ^ (e - 53).
Proof.
  intros Hq He. pose proof (pow2_pos (e - 53)) as Pe.
  apply Qabs_Qle_condition.
  unfold round_pos. destruct (Qle_bool q 0) eqn:E.
  - apply Qle_bool_iff in E. lra.
  - assert (Hq' : 0 < q).
    { apply Qnot_le_lt. intros H. apply Qle_bool_iff in H. congruence. }
    destruct (exponent_spec q Hq') as [H1 _].
    assert (Hle : (exponent q <= e)%Z).
    { assert ((exponent q < e + 1)%Z) by (apply pow2_lt_inv; lra). lia. }
    pose proof (ulp_pos q) as Hu.
    pose proof (round_half_even_near (q / ulp q)) as Hn.
    assert (Hu2 : ulp q * (1 # 2) <= 2 ^ (e - 53)).
    { unfold ulp.
      assert (E2 : 2 ^ (exponent q - 52) * (1 # 2) == 2 ^ (exponent q - 53)).
      { replace (exponent q - 52)%Z with ((exponent q - 53) + 1)%Z by lia.
        rewrite pow2_plus. change (2 ^ 1) with 2. ring. }
      rewrite E2. apply pow2_le. lia. }
    assert (Hx : q / ulp q * ulp q == q) by (field; lra).
    destruct Hn as [Hn1 Hn2].
    assert (Hm1 : (q / ulp q - (1 # 2)) * ulp q
                  <= inject_Z (round_half_even (q / ulp q)) * ulp q)
      by (apply Qmult_le_compat_r; lra).
    assert (Hm2 : inject_Z (round_half_even (q / ulp q)) * ulp q
                  <= (q / ulp q + (1 # 2)) * ulp q)
      by (apply Qmult_le_compat_r; lra).
    lra.
Qed.

Lemma round_error (q : Q) (e : Z) :
  Qabs q < 2 ^ (e + 1) -> Qabs (round q - q) <= 2 ^ (e - 53).
Proof.
  intros He. unfold round. destruct (Qle_bool 0 q) eqn:E.
  - apply Qle_bool_iff in E. rewrite Qabs_pos in He by exact E.
    now apply round_pos_error.
  - assert (Hq : q < 0).
    { apply Qnot_le_lt. intros H. apply Qle_bool_iff in H. congruence. }
    rewrite Qabs_neg in He by lra.
    pose proof (round_pos_error (- q) e ltac:(lra) He) as H.
    apply Qabs_Qle_condition in H. apply Qabs_Qle_condition. lra.
Qed.

Lemma round_upper (q : Q) (e : Z) :
  0 <= q -> q < 2 ^ (e + 1) -> 0 <= round q <= 2 ^ (e + 1).
Proof.
  intros H0 H1. unfold round.
  destruct (Qle_bool 0 q) eqn:E;
    [| exfalso; apply Qle_bool_iff in H0; congruence].
  split; [apply round_pos_nonneg |].
  destruct (Qlt_le_dec 0 q) as [Hq | Hq].
  - destruct (exponent_spec q Hq) as [H2 _].
    destruct (round_pos_binade q Hq) as [_ H3].
    assert ((exponent q < e + 1)%Z) by (apply pow2_lt_inv; lra).
    assert (2 ^ (exponent q + 1) <= 2 ^ (e + 1)) by (apply pow2_le; lia).
    lra.
  - unfold round_pos. apply Qle_bool_iff in Hq. rewrite Hq.
    pose proof (pow2_pos (e + 1)). lra.
Qed.

(** Until 2^41 ms after the epoch (September 2039) the millisecond value
    of a reading and the difference of two millisecond values are within
    2^-12 ms of the exact results. *)
Lemma binary64_accurate (lo hi : Q) :
  0 <= lo -> hi * 1000 < 2 ^ 41 ->
  accurate binary64 lo hi (1 # 4096).
Proof.
  intros Hlo Hhi s t Hs Ht. cbn [binary64 mul sub].
  assert (E12 : 2 ^ (41 - 53) == 1 # 4096) by reflexivity.
  assert (E13 : 2 ^ (40 - 53) <= 1 # 4096) by (vm_compute; discriminate).
  assert (E42 : (2:Q) ^ 41 < 2 ^ (41 + 1)) by (apply pow2_lt; lia).
  assert (Rt : 0 <= round (t * 1000) <= 2 ^ (40 + 1))
    by (apply round_upper; [lra | change (40 + 1)%Z with 41%Z; lra]).
  assert (Rs : 0 <= round (s * 1000) <= 2 ^ (40 + 1))
    by (apply round_upper; [lra | change (40 + 1)%Z with 41%Z; lra]).
  change (40 + 1)%Z with 41%Z in Rt, Rs.
  split.
  - eapply Qle_trans; [| exact E13]. apply round_error.
    rewrite Qabs_pos by lra. change (40 + 1)%Z with 41%Z. lra.
  - rewrite <- E12. apply round_error.
    assert (Hab : Qabs (round (t * 1000) - round (s * 1000)) <= 2 ^ 41)
      by (apply Qabs_Qle_condition; lra).
    eapply Qle_lt_trans; [exact Hab | exact E42].
Qed.
End Binary64Facts.

(** ** [ai_audio_analyzer]: the cooldown between emitted events *)

Section AiCooldown.
Import AiAudioAnalyzer.
Variable A : Float64.arith.
Variable rfft_abs : list Q -> list Q.
Variable np_sqrt : Q -> Q.
Variable beat_track : list Q -> Q -> option Q.
Variable cfg : Config.
Hypothesis A_monotone : Float64.monotone A.

#[local] Abbreviation ms := (fun t : Q => Float64.mul A t 1000).
#[local] Abbreviation detect := (AiAudioAnalyzerF.detect_rhythm_event A cfg).
#[local] Abbreviation callback :=
  (AiAudioAnalyzerF.audio_callback A rfft_abs np_sqrt beat_track cfg).
#[local] Abbreviation stream :=
  (AiAudioAnalyzerF.run A rfft_abs np_sqrt beat_track cfg).

Lemma ms_monotone (a b : Q) : a <= b -> ms a <= ms b.
Proof. intros H. apply (proj1 A_monotone); [lra | exact H]. Qed.

(** An event is only classified once the cooldown has elapsed. *)
Lemma detect_rhythm_event_cooldown last now bass mid bh mh k :
  detect last now bass mid bh mh = Some k ->
  COOLDOWN_MS cfg <= Float64.sub A (ms now) last.
Proof.
  unfold AiAudioAnalyzerF.detect_rhythm_event.
  destruct (Qltb (Float64.sub A (Float64.mul A now 1000) last) (COOLDOWN_MS cfg))
    eqn:Hcd.
  - discriminate.
  - intros _. now apply Qltb_false.
Qed.

(** What one call of [audio_callback] does to the cooldown clock. *)
Lemma audio_callback_cases st audio e :
  (snd (callback st audio e) = None
   /\ last_flash_time (fst (callback st audio e)) = last_flash_time st)
  \/ (exists ev,
        snd (callback st audio e) = Some ev
        /\ ev_timestamp ev = t_emit e
        /\ last_flash_time (fst (callback st audio e)) = ms (t_set e)
        /\ COOLDOWN_MS cfg <= Float64.sub A (ms (t_detect e)) (last_flash_time st)).
Proof.
  unfold AiAudioAnalyzerF.audio_callback.
  destruct (AiAudioAnalyzerF.analyze_frequency_bands A rfft_abs audio (SAMPLE_RATE cfg))
    as [[[bass mid] high] voc].
  cbn [last_flash_time].
  destruct (AiAudioAnalyzerF.detect_rhythm_event A cfg _ _ _ _ _ _) as [k |] eqn:Hd.
  - unfold AiAudioAnalyzerF.send_flash_event. destruct (emit_ok e).
    + right. eexists. repeat split.
      eapply detect_rhythm_event_cooldown. exact Hd.
    + left. split; reflexivity.
  - left. split; reflexivity.
Qed.

(** The events of a run carry non-decreasing timestamps, none earlier than
    the start of the run; the first one passed the cooldown test against
    the [last_flash_time] of the start; and the measured gap between any
    two of them is at least the cooldown. *)
Lemma run_events_apart chunks :
  forall st t0,
    clock_monotone t0 chunks ->
    let evs := snd (stream st chunks) in
    Forall (fun ev => t0 <= ev_timestamp ev) evs
    /\ match evs with
       | ev :: _ =>
           COOLDOWN_MS cfg <= Float64.sub A (ms (ev_timestamp ev)) (last_flash_time st)
       | [] => True
       end
    /\ ForallOrdPairs
         (fun e1 e2 => COOLDOWN_MS cfg <= AiAudioAnalyzerF.measured_gap A e1 e2) evs.
Proof.
  destruct A_monotone as [_ Hsub].
  induction chunks as [| [audio e] rest IH]; intros st t0 Hclock.
  - cbn. repeat split; constructor.
  - destruct Hclock as (H0 & H1 & H2 & Hrest).
    cbn zeta. cbn [AiAudioAnalyzerF.run].
    specialize (IH (fst (callback st audio e)) (t_set e) Hrest).
    cbn zeta in IH.
    destruct (callback st audio e) as [st1 oev] eqn:Hcb.
    destruct (stream st1 rest) as [st2 evs] eqn:Hrun.
    cbn [fst] in IH. rewrite Hrun in IH. cbn [fst snd] in IH |- *.
    destruct IH as (Hlow & Hhead & Hpairs).
    assert (Hlow0 : Forall (fun ev => t0 <= ev_timestamp ev) evs).
    { eapply Forall_impl; [| exact Hlow]. cbn. intros; lra. }
    pose proof (audio_callback_cases st audio e) as Hc.
    rewrite Hcb in Hc. cbn [fst snd] in Hc.
    destruct Hc as [[-> Hlast] | (ev & -> & Hts & Hlast & Hgap)].
    + rewrite Hlast in Hhead. repeat split; assumption.
    + repeat split.
      * constructor; [rewrite Hts; lra | exact Hlow0].
      * rewrite Hts. eapply Qle_trans; [exact Hgap |].
        apply Hsub; [now apply ms_monotone | apply Qle_refl].
      * constructor; [| exact Hpairs].
        rewrite Hlast in Hhead. rewrite Forall_forall in Hlow.
        apply Forall_forall. intros x Hx.
        unfold AiAudioAnalyzerF.measured_gap. rewrite Hts.
        destruct evs as [| h tl]; [contradiction |].
        assert (Hh : COOLDOWN_MS cfg
                     <= Float64.sub A (ms (ev_timestamp h)) (ms (t_emit e))).
        { eapply Qle_trans; [exact Hhead |].
          apply Hsub; [apply Qle_refl | now apply ms_monotone]. }
        destruct Hx as [<- | Hx]; [exact Hh |].
        inversion Hpairs as [| ? ? Hall _]; subst.
        rewrite Forall_forall in Hall. specialize (Hall x Hx).
        unfold AiAudioAnalyzerF.measured_gap in Hall.
        eapply Qle_trans; [exact Hall |].
        apply Hsub; [apply Qle_refl |]. apply ms_monotone.
        specialize (Hlow h (or_introl eq_refl)). cbn in Hlow. lra.
Qed.

(** No event is stamped after the last reading of the clock. *)
Lemma run_events_before (hi : Q) chunks :
  forall st t0,
    clock_monotone t0 chunks ->
    Forall (fun c => t_set (snd c) <= hi) chunks ->
    Forall (fun ev => ev_timestamp ev <= hi) (snd (stream st chunks)).
Proof.
  induction chunks as [| [audio e] rest IH]; intros st t0 Hclock Hhi.
  - constructor.
  - destruct Hclock as (H0 & H1 & H2 & Hrest).
    inversion Hhi as [| ? ? He Hhi']; subst. cbn [snd] in He.
    cbn [AiAudioAnalyzerF.run].
    specialize (IH (fst (callback st audio e)) (t_set e) Hrest Hhi').
    pose proof (audio_callback_cases st audio e) as Hc.
    destruct (callback st audio e) as [st1 oev] eqn:Hcb.
    destruct (stream st1 rest) as [st2 evs] eqn:Hrun.
    cbn [fst] in IH. rewrite Hrun in IH. cbn [fst snd] in IH, Hc |- *.
    destruct Hc as [[-> _] | (ev & -> & Hts & _)]; [exact IH |].
    constructor; [rewrite Hts; lra | exact IH].
Qed.
End AiCooldown.

(** C1, as stated, fails in two ways. In binary64, two clicks whose clock
    readings are 0.25 s - 2^-22 s apart are both emitted: the products
    [time.time() * 1000] of the two readings round to values exactly 250
    apart, so the test [current_time - last_flash_time < COOLDOWN_MS] is
    false, while the timestamps are 249.99976 ms apart. And when the wall
    clock is set back between the reading for the timestamp and the one
    for [last_flash_time], the next event can carry a timestamp 40 ms
    before the previous one. *)
Lemma events_closer_than_the_cooldown :
  (AiAudioAnalyzer.clock_monotone 0 FloatFixtures.boundary_clicks
   /\ map AiAudioAnalyzer.ev_timestamp
          (snd (FloatFixtures.ai_run Fixtures.ai_init FloatFixtures.boundary_clicks))
      = [FloatFixtures.t_first; FloatFixtures.t_second]
   /\ Float64.mul Float64.binary64 FloatFixtures.t_second 1000
      - Float64.mul Float64.binary64 FloatFixtures.t_first 1000 == 250
   /\ (FloatFixtures.t_second - FloatFixtures.t_first) * 1000 < COOLDOWN_MS config)
  /\ (map AiAudioAnalyzer.ev_timestamp
          (snd (Fixtures.ai_run Fixtures.ai_init FloatFixtures.clock_set_back))
      = [1.300; 1.260]
      /\ (1.260 - 1.300) * 1000 < COOLDOWN_MS config).
Proof.
  split; [split; [| split; [| split]] | split].
  - cbn. repeat split; try (unfold Qle; cbn; lia).
  - vm_compute. reflexivity.
  - apply Qeq_bool_eq. vm_compute. reflexivity.
  - vm_compute. reflexivity.
  - vm_compute. reflexivity.
  - vm_compute. reflexivity.
Qed.

(** C1, amended. In every run of [ai_audio_analyzer] under a clock that
    never runs backwards, and with float operations that keep the order,
    any two emitted events are a cooldown apart up to rounding, whatever
    classified them: the millisecond values [timestamp * 1000] of the two
    events, subtracted as the cooldown test subtracts them, differ by at
    least [COOLDOWN_MS]; hence, when the millisecond value of a reading
    and the difference of two such values are each within [delta] of the
    exact result, the timestamps are at least [COOLDOWN_MS - 3 * delta]
    milliseconds apart. *)
Theorem cooldown_between_events_up_to_rounding :
  forall (A : Float64.arith) rfft_abs np_sqrt beat_track cfg chunks t0,
    Float64.monotone A ->
    AiAudioAnalyzer.clock_monotone t0 chunks ->
    let events :=
      snd (AiAudioAnalyzerF.run A rfft_abs np_sqrt beat_track cfg
             (AiAudioAnalyzer.init cfg) chunks) in
    ForallOrdPairs
      (fun e1 e2 => COOLDOWN_MS cfg <= AiAudioAnalyzerF.measured_gap A e1 e2)
      events
    /\ (forall hi delta,
          Float64.accurate A t0 hi delta ->
          Forall (fun c => AiAudioAnalyzer.t_set (snd c) <= hi) chunks ->
          ForallOrdPairs
            (fun e1 e2 =>
               COOLDOWN_MS cfg - 3 * delta
               <= (AiAudioAnalyzer.ev_timestamp e2
                   - AiAudioAnalyzer.ev_timestamp e1) * 1000)
            events).
Proof.
  intros A rfft_abs np_sqrt beat_track cfg chunks t0 Hmono Hclock events.
  destruct (run_events_apart A rfft_abs np_sqrt beat_track cfg Hmono chunks
              (AiAudioAnalyzer.init cfg) t0 Hclock) as (Hlow & _ & Hpairs).
  split; [exact Hpairs |].
  intros hi delta Hacc Hhi.
  pose proof (run_events_before A rfft_abs np_sqrt beat_track cfg hi chunks
                (AiAudioAnalyzer.init cfg) t0 Hclock Hhi) as Hup.
  apply (ForallOrdPairs_impl_on
           (fun ev => t0 <= AiAudioAnalyzer.ev_timestamp ev <= hi)
           (fun e1 e2 => COOLDOWN_MS cfg <= AiAudioAnalyzerF.measured_gap A e1 e2)).
  - intros e1 e2 H1 H2 Hgap.
    apply (measured_gap_tolerance A t0 hi delta); assumption.
  - fold events in Hlow, Hup. rewrite Forall_forall in *.
    intros ev Hev. split; [apply Hlow | apply Hup]; exact Hev.
  - exact Hpairs.
Qed.

(** The amended claim in binary64 on the two clicks whose readings are
    0.25 s - 2^-22 s apart: both are emitted, the measured gap is at least
    250 ms and the timestamps are at least 250 - 3/4096 ms apart. *)
Lemma cooldown_between_events_up_to_rounding_witness :
  Float64.monotone Float64.binary64
  /\ AiAudioAnalyzer.clock_monotone 0 FloatFixtures.boundary_clicks
  /\ Float64.accurate Float64.binary64 0 1700000001 (1 # 4096)
  /\ map AiAudioAnalyzer.ev_timestamp
         (snd (FloatFixtures.ai_run (AiAudioAnalyzer.init config)
                 FloatFixtures.boundary_clicks))
     = [FloatFixtures.t_first; FloatFixtures.t_second]
  /\ ForallOrdPairs
       (fun e1 e2 =>
          COOLDOWN_MS config <= AiAudioAnalyzerF.measured_gap Float64.binary64 e1 e2)
       (snd (FloatFixtures.ai_run (AiAudioAnalyzer.init config)
               FloatFixtures.boundary_clicks))
  /\ ForallOrdPairs
       (fun e1 e2 =>
          COOLDOWN_MS config - 3 * (1 # 4096)
          <= (AiAudioAnalyzer.ev_timestamp e2
              - AiAudioAnalyzer.ev_timestamp e1) * 1000)
       (snd (FloatFixtures.ai_run (AiAudioAnalyzer.init config)
               FloatFixtures.boundary_clicks)).
Proof.
  assert (Hclock : AiAudioAnalyzer.clock_monotone 0 FloatFixtures.boundary_clicks).
  { cbn. repeat split; try (unfold Qle; cbn; lia). }
  assert (Hacc : Float64.accurate Float64.binary64 0 1700000001 (1 # 4096)).
  { apply binary64_accurate; [lra | vm_compute; reflexivity]. }
  destruct (cooldown_between_events_up_to_rounding Float64.binary64
              Fixtures.rfft_abs_impulse Fixtures.sqrt_exact
              Fixtures.beat_track_click config FloatFixtures.boundary_clicks 0
              binary64_monotone Hclock) as [Hgap Htol].
  split; [exact binary64_monotone | split; [exact Hclock | split; [exact Hacc |]]].
  split; [vm_compute; reflexivity | split; [exact Hgap |]].
  apply (Htol 1700000001 (1 # 4096) Hacc).
  repeat constructor; cbn; unfold Qle; cbn; lia.
Defined.

(** ** Absolute floors *)

Section Floors.
Variable cfg : Config.

Lemma dj_threshold_floor avg : MIN_VOLUME_THRESHOLD cfg <= DjListener.threshold_of cfg avg.
Proof.
  unfold DjListener.threshold_of.
  destruct (py_max_cases (MIN_VOLUME_THRESHOLD cfg)
              (py_min (avg * VOLUME_THRESHOLD_MULTIPLIER cfg)
                      (MAX_VOLUME_THRESHOLD cfg))) as [[H ->] | [H ->]]; lra.
Qed.

Lemma dj_quiet_no_beat st rms now :
  rms <= MIN_VOLUME_THRESHOLD cfg ->
  fst (DjListener.detect_beat cfg st rms now) = false.
Proof.
  intros Hq. unfold DjListener.detect_beat.
  destruct (len _ <? 3)%nat; [reflexivity |].
  assert (Hno : Qgtb rms (DjListener.threshold_of cfg
                  (np_mean (items (append (DjListener.volume_history st) rms)))) = false).
  { apply Qgtb_false. pose proof (dj_threshold_floor
      (np_mean (items (append (DjListener.volume_history st) rms)))). lra. }
  rewrite Hno. reflexivity.
Qed.

Lemma mrt_quiet_no_beat st rms bass now :
  rms <= 500 -> bass <= 1000 ->
  fst (fst (MusicRhythmTest.detect_beat cfg st rms bass now)) = false.
Proof.
  intros Hr Hb. unfold MusicRhythmTest.detect_beat.
  destruct (len _ <? 5)%nat; [reflexivity |].
  destruct (Qltb _ (COOLDOWN_MS cfg)); [reflexivity |].
  apply Qgtb_false in Hr, Hb. rewrite Hr, Hb, !andb_false_r. reflexivity.
Qed.

Lemma live_quiet_no_beat st rms bass now :
  rms <= 800 -> bass <= 2000 ->
  fst (fst (LiveSongAnalyzer.detect_beat cfg st rms bass now)) = false.
Proof.
  intros Hr Hb. unfold LiveSongAnalyzer.detect_beat.
  destruct (len _ <? 10)%nat; [reflexivity |].
  destruct (Qltb _ (COOLDOWN_MS cfg)); [reflexivity |].
  apply Qgtb_false in Hr, Hb. rewrite Hr, Hb, !andb_false_r. reflexivity.
Qed.

Lemma ai_no_drop_below_floor last now bass mid bh mh :
  bass <= 5000 ->
  AiAudioAnalyzer.detect_rhythm_event cfg last now bass mid bh mh
  <> Some AiAudioAnalyzer.bass_drop.
Proof.
  intros Hb. unfold AiAudioAnalyzer.detect_rhythm_event, AiAudioAnalyzer.detect_bass_drop.
  apply Qgtb_false in Hb. rewrite Hb, andb_false_r.
  destruct (len bh <? 5)%nat; cbn [orb];
    [destruct (Qltb _ _); discriminate |].
  repeat match goal with
         | |- context [if ?c then _ else _] => destruct c
         end; discriminate.
Qed.

Lemma ai_no_rhythm_below_floor last now bass mid bh mh :
  bass <= 3000 ->
  AiAudioAnalyzer.detect_rhythm_event cfg last now bass mid bh mh
  <> Some AiAudioAnalyzer.rhythm.
Proof.
  intros Hb. unfold AiAudioAnalyzer.detect_rhythm_event.
  apply Qgtb_false in Hb. rewrite Hb, andb_false_r.
  repeat match goal with
         | |- context [if ?c then _ else _] => destruct c
         end; discriminate.
Qed.
End Floors.

(** C2, as stated, fails. A click of amplitude 1 after four silent chunks
    has RMS 1/32 and band energies 5, 41, 139 and 72, all far below every
    floor of the configuration, and [ai_audio_analyzer] emits a ['vocal']
    event for it; [simple_rhythm_demo] fires on a chunk of RMS 1 and bass 0
    after four silent chunks. *)
Lemma near_silence_still_fires :
  (AiAudioAnalyzer.calculate_rms Fixtures.sqrt_exact Fixtures.click
     < MIN_VOLUME_THRESHOLD config
   /\ AiAudioAnalyzer.analyze_frequency_bands Fixtures.rfft_abs_impulse
        Fixtures.click (SAMPLE_RATE config) = (5, 41, 139, 72)
   /\ map AiAudioAnalyzer.ev_event_type
        (snd (Fixtures.ai_run Fixtures.ai_init Fixtures.quiet_then_click))
      = [AiAudioAnalyzer.vocal])
  /\ (1 < MIN_VOLUME_THRESHOLD config
      /\ fst (fst (SimpleRhythmDemo.detect_beat config Fixtures.demo_four_quiet 1 0 1))
         = true).
Proof.
  split; [split; [| split] | split]; vm_compute; reflexivity.
Qed.

(** C2, amended. A chunk at or below the absolute floors of the volume and
    bass criteria triggers none of them, for any history state:
    [dj_listener] never fires when the RMS is at most
    [MIN_VOLUME_THRESHOLD]; [music_rhythm_test] when the RMS is at most 500
    and the bass energy at most 1000; [live_song_analyzer] when they are at
    most 800 and 2000; [ai_audio_analyzer] never answers ['bass_drop'] for
    a bass energy of at most 5000 nor ['rhythm'] for one of at most 3000. *)
Theorem absolute_floors_guard_volume_and_bass :
  forall cfg : Config,
    (forall st rms now,
        rms <= MIN_VOLUME_THRESHOLD cfg ->
        fst (DjListener.detect_beat cfg st rms now) = false)
    /\ (forall st rms bass now,
          rms <= 500 -> bass <= 1000 ->
          fst (fst (MusicRhythmTest.detect_beat cfg st rms bass now)) = false)
    /\ (forall st rms bass now,
          rms <= 800 -> bass <= 2000 ->
          fst (fst (LiveSongAnalyzer.detect_beat cfg st rms bass now)) = false)
    /\ (forall last now bass mid bh mh,
          (bass <= 5000 ->
           AiAudioAnalyzer.detect_rhythm_event cfg last now bass mid bh mh
           <> Some AiAudioAnalyzer.bass_drop)
          /\ (bass <= 3000 ->
              AiAudioAnalyzer.detect_rhythm_event cfg last now bass mid bh mh
              <> Some AiAudioAnalyzer.rhythm)).
Proof.
  intros cfg. repeat split.
  - apply dj_quiet_no_beat.
  - apply mrt_quiet_no_beat.
  - apply live_quiet_no_beat.
  - apply ai_no_drop_below_floor.
  - apply ai_no_rhythm_below_floor.
Qed.

(** The amended claim on chunks of RMS 50 (scenario 1 of the
    specification) and bass energy 100, after a few silent chunks. *)
Lemma absolute_floors_guard_volume_and_bass_witness :
  (50 <= MIN_VOLUME_THRESHOLD config
   /\ fst (DjListener.detect_beat config Fixtures.dj_two_quiet 50 1) = false)
  /\ (50 <= 500 /\ 100 <= 1000
      /\ fst (fst (MusicRhythmTest.detect_beat config Fixtures.mrt_four_quiet 50 100 1))
         = false)
  /\ (50 <= 800 /\ 100 <= 2000
      /\ fst (fst (LiveSongAnalyzer.detect_beat config Fixtures.live_nine_quiet 50 100 1))
         = false)
  /\ (100 <= 3000
      /\ AiAudioAnalyzer.detect_rhythm_event config 0 1 100 0
           (extend (Deque.empty 10) [0; 0; 0; 0; 100])
           (extend (Deque.empty 10) [0; 0; 0; 0; 0])
         <> Some AiAudioAnalyzer.rhythm).
Proof.
  destruct (absolute_floors_guard_volume_and_bass config)
    as (Hdj & Hmrt & Hlive & Hai).
  assert (H50 : 50 <= MIN_VOLUME_THRESHOLD config) by (vm_compute; discriminate).
  assert (H500 : 50 <= 500) by lra.
  assert (H1000 : 100 <= 1000) by lra.
  assert (H800 : 50 <= 800) by lra.
  assert (H2000 : 100 <= 2000) by lra.
  assert (H3000 : 100 <= 3000) by lra.
  refine (conj (conj H50 _) (conj (conj H500 (conj H1000 _))
            (conj (conj H800 (conj H2000 _)) (conj H3000 _)))).
  - exact (Hdj Fixtures.dj_two_quiet 50 1 H50).
  - exact (Hmrt Fixtures.mrt_four_quiet 50 100 1 H500 H1000).
  - exact (Hlive Fixtures.live_nine_quiet 50 100 1 H800 H2000).
  - exact (proj2 (Hai 0 1 100 0 _ _) H3000).
Defined.

(** ** [ai_audio_analyzer]: the tempo update *)

Section AiTempo.
Import AiAudioAnalyzer.
Variable rfft_abs : list Q -> list Q.
Variable np_sqrt : Q -> Q.
Variable beat_track : list Q -> Q -> option Q.
Variable cfg : Config.

(** The part of the state that [send_flash_event] leaves alone. *)
Lemma send_flash_event_frame st e k i bpm b m h :
  current_bpm (fst (send_flash_event st e k i bpm b m h)) = current_bpm st
  /\ frame_counter (fst (send_flash_event st e k i bpm b m h)) = frame_counter st
  /\ bass_history (fst (send_flash_event st e k i bpm b m h)) = bass_history st
  /\ mid_history (fst (send_flash_event st e k i bpm b m h)) = mid_history st
  /\ volume_history (fst (send_flash_event st e k i bpm b m h)) = volume_history st.
Proof.
  unfold send_flash_event. destruct (emit_ok e); repeat split; reflexivity.
Qed.

(** The tempo and the frame counter after one call. *)
Lemma audio_callback_tempo st audio e :
  let st' := fst (audio_callback rfft_abs np_sqrt beat_track cfg st audio e) in
  frame_counter st' = S (frame_counter st)
  /\ current_bpm st'
     = if (S (frame_counter st) mod 20 =? 0)%nat
       then estimate_bpm beat_track audio (SAMPLE_RATE cfg)
       else current_bpm st.
Proof.
  unfold audio_callback.
  destruct (analyze_frequency_bands rfft_abs audio (SAMPLE_RATE cfg))
    as [[[bass mid] high] voc].
  cbv zeta.
  destruct (detect_rhythm_event cfg _ _ _ _ _ _) as [k |].
  - match goal with
    | |- context [send_flash_event ?s ?e ?k ?i ?b ?x ?y ?z] =>
        destruct (send_flash_event_frame s e k i b x y z) as (-> & -> & _)
    end.
    split; reflexivity.
  - split; reflexivity.
Qed.
End AiTempo.

(** C3, as stated, fails. With a tempo of 120 known since chunk 20, the
    scheduled update at chunk 40 finds the estimator raising, and the
    shared tempo becomes 0 instead of staying at 120. *)
Lemma estimator_failure_resets_tempo :
  let st39 := fst (Fixtures.ai_run Fixtures.ai_init (firstn 39 Fixtures.tempo_stream)) in
  let st40 := fst (Fixtures.ai_callback st39 Fixtures.silence (Fixtures.at_time 1.897)) in
  AiAudioAnalyzer.current_bpm st39 == 120
  /\ (S (AiAudioAnalyzer.frame_counter st39) mod 20 = 0)%nat
  /\ Fixtures.beat_track_click
       (map (fun x => inject_Z x / 32767) Fixtures.silence) (SAMPLE_RATE config)
     = None
  /\ AiAudioAnalyzer.current_bpm st40 == 0
  /\ ~ AiAudioAnalyzer.current_bpm st40 == AiAudioAnalyzer.current_bpm st39.
Proof.
  cbv zeta. split; [| split; [| split; [| split]]].
  - vm_compute. reflexivity.
  - vm_compute. reflexivity.
  - vm_compute. reflexivity.
  - vm_compute. reflexivity.
  - apply Qeq_bool_neq. vm_compute. reflexivity.
Qed.

(** C3, amended. [estimate_bpm] answers 0 when the estimator raises, so
    the failure never reaches the caller; on a scheduled update (every 20th
    call) the shared tempo becomes the estimate, that is 0 after a failure;
    on every other call it is retained unchanged. *)
Theorem tempo_update_every_20th_chunk :
  forall rfft_abs np_sqrt beat_track cfg st audio e,
    let st' := fst (AiAudioAnalyzer.audio_callback rfft_abs np_sqrt beat_track cfg
                      st audio e) in
    let y := map (fun x => inject_Z x / 32767) audio in
    let scheduled := (S (AiAudioAnalyzer.frame_counter st) mod 20 = 0)%nat in
    AiAudioAnalyzer.frame_counter st' = S (AiAudioAnalyzer.frame_counter st)
    /\ (beat_track y (SAMPLE_RATE cfg) = None ->
        AiAudioAnalyzer.estimate_bpm beat_track audio (SAMPLE_RATE cfg) = 0
        /\ (scheduled -> AiAudioAnalyzer.current_bpm st' = 0))
    /\ (forall tempo, beat_track y (SAMPLE_RATE cfg) = Some tempo ->
        scheduled -> AiAudioAnalyzer.current_bpm st' = tempo)
    /\ (~ scheduled ->
        AiAudioAnalyzer.current_bpm st' = AiAudioAnalyzer.current_bpm st).
Proof.
  intros rfft_abs np_sqrt beat_track cfg st audio e st' y scheduled.
  destruct (audio_callback_tempo rfft_abs np_sqrt beat_track cfg st audio e)
    as [Hfc Hbpm].
  fold st' in Hfc, Hbpm. unfold scheduled.
  split; [exact Hfc |].
  unfold AiAudioAnalyzer.estimate_bpm in *. fold y in Hbpm |- *.
  repeat split.
  - now rewrite H.
  - intros Hs. rewrite Hbpm, Hs, H. reflexivity.
  - intros tempo Ht Hs. rewrite Hbpm, Hs, Ht. reflexivity.
  - intros Hn. rewrite Hbpm. apply Nat.eqb_neq in Hn. now rewrite Hn.
Qed.

(** The amended claim on the forty-chunk stream: the failing update at
    chunk 40 sets the tempo to 0, and chunk 39, which is not scheduled,
    kept it. *)
Lemma tempo_update_every_20th_chunk_witness :
  let st38 := fst (Fixtures.ai_run Fixtures.ai_init (firstn 38 Fixtures.tempo_stream)) in
  let st39 := fst (Fixtures.ai_callback st38 Fixtures.silence (Fixtures.at_time 1.874)) in
  let st40 := fst (Fixtures.ai_callback st39 Fixtures.silence (Fixtures.at_time 1.897)) in
  AiAudioAnalyzer.current_bpm st39 = AiAudioAnalyzer.current_bpm st38
  /\ AiAudioAnalyzer.current_bpm st40 = 0.
Proof.
  intros st38 st39 st40. split.
  - refine (proj2 (proj2 (proj2 (tempo_update_every_20th_chunk
      Fixtures.rfft_abs_impulse Fixtures.sqrt_exact Fixtures.beat_track_click
      config st38 Fixtures.silence (Fixtures.at_time 1.874)))) _).
    vm_compute. discriminate.
  - refine (proj2 (proj1 (proj2 (tempo_update_every_20th_chunk
      Fixtures.rfft_abs_impulse Fixtures.sqrt_exact Fixtures.beat_track_click
      config st39 Fixtures.silence (Fixtures.at_time 1.897))) _) _).
    + vm_compute. reflexivity.
    + vm_compute. reflexivity.
Defined.

(** ** The gates and the cooldown clock *)

Section GateClock.
Variable cfg : Config.

Lemma dj_gate_clock st rms now :
  let r := DjListener.detect_beat cfg st rms now in
  (fst r = true -> DjListener.last_flash_time (snd r) = now * 1000)
  /\ (fst r = false ->
      DjListener.last_flash_time (snd r) = DjListener.last_flash_time st).
Proof.
  unfold DjListener.detect_beat.
  destruct (len _ <? 3)%nat; cbn; [split; [discriminate | reflexivity] |].
  destruct (Qgtb _ _ && Qgeb _ _); cbn; split;
    first [discriminate | reflexivity].
Qed.

Lemma mrt_gate_clock st rms bass now :
  let r := MusicRhythmTest.detect_beat cfg st rms bass now in
  (fst (fst r) = true -> MusicRhythmTest.last_flash_time (snd r) = now * 1000)
  /\ (fst (fst r) = false ->
      MusicRhythmTest.last_flash_time (snd r) = MusicRhythmTest.last_flash_time st).
Proof.
  unfold MusicRhythmTest.detect_beat.
  destruct (len _ <? 5)%nat; cbn; [split; [discriminate | reflexivity] |].
  destruct (Qltb _ _); cbn; [split; [discriminate | reflexivity] |].
  destruct (_ || _); cbn; split; first [discriminate | reflexivity].
Qed.

Lemma demo_gate_clock st rms bass now :
  let r := SimpleRhythmDemo.detect_beat cfg st rms bass now in
  (fst (fst r) = true -> SimpleRhythmDemo.last_flash_time (snd r) = now * 1000)
  /\ (fst (fst r) = false ->
      SimpleRhythmDemo.last_flash_time (snd r) = SimpleRhythmDemo.last_flash_time st).
Proof.
  unfold SimpleRhythmDemo.detect_beat.
  destruct (len _ <? 5)%nat; cbn; [split; [discriminate | reflexivity] |].
  destruct (_ && _); cbn; split; first [discriminate | reflexivity].
Qed.

Lemma live_gate_clock st rms bass now :
  let r := LiveSongAnalyzer.detect_beat cfg st rms bass now in
  (fst (fst r) = true -> LiveSongAnalyzer.last_flash_time (snd r) = now * 1000)
  /\ (fst (fst r) = false ->
      LiveSongAnalyzer.last_flash_time (snd r) = LiveSongAnalyzer.last_flash_time st).
Proof.
  unfold LiveSongAnalyzer.detect_beat.
  destruct (len _ <? 10)%nat; cbn; [split; [discriminate | reflexivity] |].
  destruct (Qltb _ _); cbn; [split; [discriminate | reflexivity] |].
  destruct (_ || _); cbn; split; first [discriminate | reflexivity].
Qed.
End GateClock.

(** C4, as stated, fails. After two silent chunks, [dj_listener]'s
    [detect_beat] answers [True] for a chunk of RMS 1000 read at second 1,
    and the call itself moved [last_flash_time] from 0 to 1000. *)
Lemma gate_moves_cooldown_clock :
  let r := DjListener.detect_beat config Fixtures.dj_two_quiet 1000 1 in
  fst r = true
  /\ DjListener.last_flash_time Fixtures.dj_two_quiet == 0
  /\ DjListener.last_flash_time (snd r) == 1000
  /\ ~ DjListener.last_flash_time (snd r)
       == DjListener.last_flash_time Fixtures.dj_two_quiet.
Proof.
  cbv zeta. split; [| split; [| split]].
  - vm_compute. reflexivity.
  - vm_compute. reflexivity.
  - vm_compute. reflexivity.
  - apply Qeq_bool_neq. vm_compute. reflexivity.
Qed.

(** C4, amended. Each [detect_beat] gate ([dj_listener],
    [music_rhythm_test], [simple_rhythm_demo], [live_song_analyzer])
    updates the cooldown clock itself: a call that returns true has set
    [last_flash_time] to the current time in milliseconds, and a call that
    returns false leaves it unchanged. *)
Theorem gate_sets_last_flash_time_when_it_fires :
  forall cfg : Config,
    (forall st rms now,
        let r := DjListener.detect_beat cfg st rms now in
        (fst r = true -> DjListener.last_flash_time (snd r) = now * 1000)
        /\ (fst r = false ->
            DjListener.last_flash_time (snd r) = DjListener.last_flash_time st))
    /\ (forall st rms bass now,
        let r := MusicRhythmTest.detect_beat cfg st rms bass now in
        (fst (fst r) = true ->
         MusicRhythmTest.last_flash_time (snd r) = now * 1000)
        /\ (fst (fst r) = false ->
            MusicRhythmTest.last_flash_time (snd r)
            = MusicRhythmTest.last_flash_time st))
    /\ (forall st rms bass now,
        let r := SimpleRhythmDemo.detect_beat cfg st rms bass now in
        (fst (fst r) = true ->
         SimpleRhythmDemo.last_flash_time (snd r) = now * 1000)
        /\ (fst (fst r) = false ->
            SimpleRhythmDemo.last_flash_time (snd r)
            = SimpleRhythmDemo.last_flash_time st))
    /\ (forall st rms bass now,
        let r := LiveSongAnalyzer.detect_beat cfg st rms bass now in
        (fst (fst r) = true ->
         LiveSongAnalyzer.last_flash_time (snd r) = now * 1000)
        /\ (fst (fst r) = false ->
            LiveSongAnalyzer.last_flash_time (snd r)
            = LiveSongAnalyzer.last_flash_time st)).
Proof.
  intros cfg. split; [| split; [| split]].
  - apply dj_gate_clock.
  - apply mrt_gate_clock.
  - apply demo_gate_clock.
  - apply live_gate_clock.
Qed.

(** The amended claim on a firing call (RMS 1000) and on a silent call
    (RMS 50) of [dj_listener], and on a firing call of the three other
    gates. *)
Lemma gate_sets_last_flash_time_when_it_fires_witness :
  DjListener.last_flash_time
    (snd (DjListener.detect_beat config Fixtures.dj_two_quiet 1000 1)) = 1 * 1000
  /\ DjListener.last_flash_time
       (snd (DjListener.detect_beat config Fixtures.dj_two_quiet 50 1))
     = DjListener.last_flash_time Fixtures.dj_two_quiet
  /\ MusicRhythmTest.last_flash_time
       (snd (MusicRhythmTest.detect_beat config Fixtures.mrt_four_quiet 1000 0 1))
     = 1 * 1000
  /\ SimpleRhythmDemo.last_flash_time
       (snd (SimpleRhythmDemo.detect_beat config Fixtures.demo_four_quiet 1000 0 1))
     = 1 * 1000
  /\ LiveSongAnalyzer.last_flash_time
       (snd (LiveSongAnalyzer.detect_beat config Fixtures.live_nine_quiet 1000 0 1))
     = 1 * 1000.
Proof.
  destruct (gate_sets_last_flash_time_when_it_fires config)
    as (Hdj & Hmrt & Hdemo & Hlive).
  split; [| split; [| split; [| split]]].
  - apply (proj1 (Hdj Fixtures.dj_two_quiet 1000 1)). vm_compute. reflexivity.
  - apply (proj2 (Hdj Fixtures.dj_two_quiet 50 1)). vm_compute. reflexivity.
  - apply (proj1 (Hmrt Fixtures.mrt_four_quiet 1000 0 1)). vm_compute. reflexivity.
  - apply (proj1 (Hdemo Fixtures.demo_four_quiet 1000 0 1)). vm_compute. reflexivity.
  - apply (proj1 (Hlive Fixtures.live_nine_quiet 1000 0 1)). vm_compute. reflexivity.
Defined.

(** ** [ai_audio_analyzer]: the order of the classification *)

Section AiClassifier.
Import AiAudioAnalyzer.
Variable cfg : Config.

Lemma both_gt_false (a b c d : Q) :
  ~ (b < a /\ d < c) -> Qgtb a b && Qgtb c d = false.
Proof.
  intros Hn. destruct (Qgtb a b) eqn:E1; [| reflexivity].
  destruct (Qgtb c d) eqn:E2; [| reflexivity].
  exfalso. apply Hn. split; now apply Qgtb_true.
Qed.

Lemma both_gt_true (a b c d : Q) :
  b < a -> d < c -> Qgtb a b && Qgtb c d = true.
Proof.
  intros H1 H2. apply andb_true_iff. split; now apply Qgtb_true.
Qed.

(** The specification's reading of "strictly increasing", by position. *)
Lemma increasing_nth (l : list Q) :
  Spec.increasing l
  <-> (forall i, (i + 1 < length l)%nat -> nth i l 0 < nth (i + 1) l 0).
Proof.
  induction l as [| a [| b t] IH].
  - split; [cbn; intros _ i Hi; lia | constructor].
  - split; [cbn; intros _ i Hi; lia | constructor].
  - change (Spec.increasing (a :: b :: t)) with (a < b /\ Spec.increasing (b :: t)).
    rewrite IH. split.
    + intros [Hab Hrest] [| j] Hj; [exact Hab |].
      apply (Hrest j). cbn [length] in *. lia.
    + intros Hall. split; [apply (Hall 0%nat); cbn; lia |].
      intros i Hi. apply (Hall (S i)). cbn [length] in *. lia.
Qed.

(** The test of the build-up branch decides exactly that. *)
Lemma strictly_increasing_spec (l : list Q) :
  strictly_increasing l = true <-> Spec.increasing l.
Proof.
  unfold strictly_increasing. rewrite forallb_forall, increasing_nth.
  split.
  - intros H i Hi. apply Qltb_true, H, in_seq. lia.
  - intros H i Hi. apply in_seq in Hi. apply Qltb_true, H. lia.
Qed.

(** The classifier outside the guards, branch by branch. *)
Lemma detect_rhythm_event_ready last now bass mid bh mh :
  COOLDOWN_MS cfg <= now * 1000 - last ->
  (5 <= len bh)%nat -> (5 <= len mh)%nat ->
  detect_rhythm_event cfg last now bass mid bh mh
  = if Qgtb bass (np_mean (items bh) * 2.0) && Qgtb bass 5000
    then Some bass_drop
    else if Qgtb bass (np_mean (items bh) * 1.5) && Qgtb bass 3000
    then Some rhythm
    else if Qgtb mid (np_mean (items mh) * 1.3) && Qgtb mid (bass * 1.2)
    then Some vocal
    else if strictly_increasing (lastn 5 (items bh)) then Some build
    else None.
Proof.
  intros Hcd Hb Hm. unfold detect_rhythm_event, detect_bass_drop.
  apply Qltb_false in Hcd. rewrite Hcd.
  apply Nat.ltb_ge in Hb, Hm. rewrite Hb, Hm. cbn [orb].
  apply Nat.ltb_ge, Nat.leb_le in Hb. rewrite Hb. cbn [andb].
  reflexivity.
Qed.

(** The guards in front of the classifier. *)
Lemma detect_rhythm_event_guarded last now bass mid bh mh :
  now * 1000 - last < COOLDOWN_MS cfg \/ (len bh < 5)%nat \/ (len mh < 5)%nat ->
  detect_rhythm_event cfg last now bass mid bh mh = None.
Proof.
  intros H. unfold detect_rhythm_event.
  destruct (Qltb (now * 1000 - last) (COOLDOWN_MS cfg)) eqn:Hcd; [reflexivity |].
  apply Qltb_false in Hcd.
  destruct H as [H | [H | H]]; [lra | |]; apply Nat.ltb_lt in H; rewrite H.
  - reflexivity.
  - now rewrite orb_true_r.
Qed.
End AiClassifier.

(** C5, as stated, fails. Both criteria hold for a bass energy of 6000 on
    the third chunk of a stream (history 0, 0, 6000), and again with five
    samples of history 100 ms after an event; the classifier answers
    [None] in both cases, not ['bass_drop']. *)
Lemma both_criteria_without_bass_drop :
  (let bh := extend (Deque.empty 10) [0; 0; 6000] in
   let mh := extend (Deque.empty 10) [0; 0; 0] in
   (np_mean (items bh) * 2.0 < 6000 /\ 5000 < 6000)
   /\ (np_mean (items bh) * 1.5 < 6000 /\ 3000 < 6000)
   /\ AiAudioAnalyzer.detect_rhythm_event config 0 1 6000 0 bh mh = None)
  /\ (let bh := extend (Deque.empty 10) [1000; 1000; 1000; 1000; 6000] in
      let mh := extend (Deque.empty 10) [0; 0; 0; 0; 0] in
      (np_mean (items bh) * 2.0 < 6000 /\ 5000 < 6000)
      /\ (np_mean (items bh) * 1.5 < 6000 /\ 3000 < 6000)
      /\ AiAudioAnalyzer.detect_rhythm_event config 1000 1.1 6000 0 bh mh = None).
Proof.
  cbv zeta. repeat split; vm_compute; reflexivity.
Qed.

(** C5, amended. Whenever a chunk and its history satisfy both the
    BassDrop and the Rhythm criterion the classifier never answers
    ['rhythm']; it answers ['bass_drop'] provided both histories hold at
    least five samples and the cooldown has elapsed, and nothing inside
    the cooldown or with a shorter history. *)
Theorem bass_drop_wins_over_rhythm :
  forall cfg last now bass mid bh mh,
    np_mean (items bh) * 2.0 < bass -> 5000 < bass ->
    np_mean (items bh) * 1.5 < bass -> 3000 < bass ->
    AiAudioAnalyzer.detect_rhythm_event cfg last now bass mid bh mh
    <> Some AiAudioAnalyzer.rhythm
    /\ ((5 <= len bh)%nat -> (5 <= len mh)%nat ->
        COOLDOWN_MS cfg <= now * 1000 - last ->
        AiAudioAnalyzer.detect_rhythm_event cfg last now bass mid bh mh
        = Some AiAudioAnalyzer.bass_drop)
    /\ (now * 1000 - last < COOLDOWN_MS cfg
        \/ (len bh < 5)%nat \/ (len mh < 5)%nat ->
        AiAudioAnalyzer.detect_rhythm_event cfg last now bass mid bh mh = None).
Proof.
  intros cfg last now bass mid bh mh Hd1 Hd2 Hr1 Hr2.
  assert (Hready :
    (5 <= len bh)%nat -> (5 <= len mh)%nat ->
    COOLDOWN_MS cfg <= now * 1000 - last ->
    AiAudioAnalyzer.detect_rhythm_event cfg last now bass mid bh mh
    = Some AiAudioAnalyzer.bass_drop).
  { intros Hb Hm Hcd.
    rewrite detect_rhythm_event_ready by assumption.
    now rewrite both_gt_true. }
  split; [| split; [exact Hready | apply detect_rhythm_event_guarded]].
  destruct (Qlt_le_dec (now * 1000 - last) (COOLDOWN_MS cfg)) as [Hin | Hout].
  - rewrite detect_rhythm_event_guarded by auto. discriminate.
  - destruct (Nat.lt_ge_cases (len bh) 5) as [Hb | Hb].
    + rewrite detect_rhythm_event_guarded by auto. discriminate.
    + destruct (Nat.lt_ge_cases (len mh) 5) as [Hm | Hm].
      * rewrite detect_rhythm_event_guarded by auto. discriminate.
      * rewrite Hready by assumption. discriminate.
Qed.

(** Scenario 2 of the specification: a bass energy of 6000 that brings the
    mean of the history to 2000 is a bass drop. *)
Lemma bass_drop_wins_over_rhythm_witness :
  let bh := extend (Deque.empty 10) [1000; 1000; 1000; 1000; 6000] in
  let mh := extend (Deque.empty 10) [0; 0; 0; 0; 0] in
  AiAudioAnalyzer.detect_rhythm_event config 0 1 6000 0 bh mh
  = Some AiAudioAnalyzer.bass_drop.
Proof.
  intros bh mh.
  refine (proj1 (proj2 (bass_drop_wins_over_rhythm config 0 1 6000 0 bh mh
                          _ _ _ _)) _ _ _);
    vm_compute; first [reflexivity | discriminate].
Defined.

(** C6, as stated, fails. With the bass history 100, 200, 300, 400, 500
    and no higher-priority criterion matching, the classifier answers
    [None] 100 ms after an event, and also when the mid history holds
    fewer than five samples. *)
Lemma rising_bass_without_build :
  let bh := extend (Deque.empty 10) [100; 200; 300; 400; 500] in
  let mh := extend (Deque.empty 10) [0; 0; 0; 0; 0] in
  let mh4 := extend (Deque.empty 10) [0; 0; 0; 0] in
  Spec.increasing (lastn 5 (items bh))
  /\ ~ (np_mean (items bh) * 2.0 < 500 /\ 5000 < 500)
  /\ ~ (np_mean (items bh) * 1.5 < 500 /\ 3000 < 500)
  /\ ~ (np_mean (items mh) * 1.3 < 0 /\ 500 * 1.2 < 0)
  /\ ~ (np_mean (items mh4) * 1.3 < 0 /\ 500 * 1.2 < 0)
  /\ AiAudioAnalyzer.detect_rhythm_event config 1000 1.1 500 0 bh mh = None
  /\ AiAudioAnalyzer.detect_rhythm_event config 0 1 500 0 bh mh4 = None.
Proof.
  cbv zeta. split; [| split; [| split; [| split; [| split; [| split]]]]].
  - vm_compute. repeat split.
  - intros [_ H]. vm_compute in H. discriminate.
  - intros [_ H]. vm_compute in H. discriminate.
  - intros [_ H]. vm_compute in H. discriminate.
  - intros [_ H]. vm_compute in H. discriminate.
  - vm_compute. reflexivity.
  - vm_compute. reflexivity.
Qed.

(** C6, amended. When the last five bass-history samples are strictly
    increasing and none of the BassDrop, Rhythm and Vocal criteria
    matches, the classifier answers ['build'], provided the mid history
    also holds at least five samples and the cooldown has elapsed. *)
Theorem build_on_five_rising_bass_samples :
  forall cfg last now bass mid bh mh,
    (5 <= len bh)%nat ->
    Spec.increasing (lastn 5 (items bh)) ->
    ~ (np_mean (items bh) * 2.0 < bass /\ 5000 < bass) ->
    ~ (np_mean (items bh) * 1.5 < bass /\ 3000 < bass) ->
    ~ (np_mean (items mh) * 1.3 < mid /\ bass * 1.2 < mid) ->
    (5 <= len mh)%nat ->
    COOLDOWN_MS cfg <= now * 1000 - last ->
    AiAudioAnalyzer.detect_rhythm_event cfg last now bass mid bh mh
    = Some AiAudioAnalyzer.build.
Proof.
  intros cfg last now bass mid bh mh Hb Hinc Hnd Hnr Hnv Hm Hcd.
  rewrite detect_rhythm_event_ready by assumption.
  rewrite (both_gt_false _ _ _ _ Hnd), (both_gt_false _ _ _ _ Hnr),
          (both_gt_false _ _ _ _ Hnv).
  apply strictly_increasing_spec in Hinc. now rewrite Hinc.
Qed.

(** Scenario 4 of the specification: the bass history
    100, 200, 300, 400, 500 yields a build-up event. *)
Lemma build_on_five_rising_bass_samples_witness :
  let bh := extend (Deque.empty 10) [100; 200; 300; 400; 500] in
  let mh := extend (Deque.empty 10) [0; 0; 0; 0; 0] in
  AiAudioAnalyzer.detect_rhythm_event config 0 1 500 0 bh mh
  = Some AiAudioAnalyzer.build.
Proof.
  intros bh mh.
  apply (build_on_five_rising_bass_samples config 0 1 500 0 bh mh).
  - vm_compute. lia.
  - vm_compute. repeat split.
  - intros [_ H]. vm_compute in H. discriminate.
  - intros [_ H]. vm_compute in H. discriminate.
  - intros [_ H]. vm_compute in H. discriminate.
  - vm_compute. lia.
  - vm_compute. discriminate.
Defined.

(** ** The intensity of an event *)

Section Intensity.
Variable cfg : Config.

Lemma clamp_floor_03 (x : Q) :
  py_min 1.0 (py_max 0.3 x) == Spec.clamp x 0.3 1
  /\ 0 <= py_min 1.0 (py_max 0.3 x) <= 1.
Proof.
  pose proof (py_clamp_bounds x 0.3 1.0) as Hb.
  pose proof (py_clamp_is_clamp x 0.3 1.0 1) as Hc.
  split; [apply Hc; lra | lra].
Qed.

Lemma clamp_floor_04 (x : Q) :
  py_min 1.0 (py_max 0.4 x) == Spec.clamp x 0.4 1
  /\ 0 <= py_min 1.0 (py_max 0.4 x) <= 1.
Proof.
  pose proof (py_clamp_bounds x 0.4 1.0) as Hb.
  pose proof (py_clamp_is_clamp x 0.4 1.0 1) as Hc.
  split; [apply Hc; lra | lra].
Qed.

(** [music_rhythm_test]: when the gate fires and what it answers. *)
Lemma mrt_intensity st rms bass now :
  let r := fst (MusicRhythmTest.detect_beat cfg st rms bass now) in
  let vh := append (MusicRhythmTest.volume_history st) rms in
  let bh := append (MusicRhythmTest.bass_history st) bass in
  (fst r = true
   <-> (5 <= len vh)%nat
       /\ COOLDOWN_MS cfg <= now * 1000 - MusicRhythmTest.last_flash_time st
       /\ ((np_mean (items vh) * 1.5 < rms /\ 500 < rms)
           \/ (np_mean (items bh) * 1.8 < bass /\ 1000 < bass)))
  /\ snd r == (if fst r then Spec.clamp (rms / 5000) 0.3 1 else 0)
  /\ 0 <= snd r <= 1.
Proof.
  cbv zeta. unfold MusicRhythmTest.detect_beat.
  destruct (Nat.ltb_spec (len (append (MusicRhythmTest.volume_history st) rms)) 5)
    as [Hshort | Hlong]; cbn [fst snd].
  - split; [| split; [reflexivity | lra]].
    split; [discriminate | intros (H & _); lia].
  - destruct (Qltb _ (COOLDOWN_MS cfg)) eqn:Ecd; cbn [fst snd].
    + apply Qltb_true in Ecd. split; [| split; [reflexivity | lra]].
      split; [discriminate | intros (_ & H & _); lra].
    + apply Qltb_false in Ecd.
      destruct (_ || _) eqn:E; cbn [fst snd].
      * split; [| apply clamp_floor_03].
        split; [intros _ | reflexivity]. repeat split; try assumption.
        apply orb_true_iff in E.
        destruct E as [E | E]; apply andb_true_iff in E; destruct E as [E1 E2];
          apply Qgtb_true in E1, E2; tauto.
      * split; [| split; [reflexivity | lra]].
        split; [discriminate |]. intros (_ & _ & [[H1 H2] | [H1 H2]]);
          apply Qgtb_true in H1, H2; rewrite H1, H2 in E;
          cbn in E; rewrite ?orb_true_r in E; discriminate.
Qed.

(** [simple_rhythm_demo]: when the gate fires and what it answers. *)
Lemma demo_intensity st rms bass now :
  let r := fst (SimpleRhythmDemo.detect_beat cfg st rms bass now) in
  let vh := append (SimpleRhythmDemo.volume_history st) rms in
  let bh := append (SimpleRhythmDemo.bass_history st) bass in
  (fst r = true
   <-> (5 <= len vh)%nat
       /\ (np_mean (items vh) * 1.5 < rms \/ np_mean (items bh) * 1.8 < bass)
       /\ COOLDOWN_MS cfg <= now * 1000 - SimpleRhythmDemo.last_flash_time st)
  /\ snd r == (if fst r then Spec.clamp (rms / 5000) 0.3 1 else 0)
  /\ 0 <= snd r <= 1.
Proof.
  cbv zeta. unfold SimpleRhythmDemo.detect_beat.
  destruct (Nat.ltb_spec (len (append (SimpleRhythmDemo.volume_history st) rms)) 5)
    as [Hshort | Hlong]; cbn [fst snd].
  - split; [| split; [reflexivity | lra]].
    split; [discriminate | intros (H & _); lia].
  - destruct ((Qgtb _ _ || Qgtb _ _) && Qgeb _ _) eqn:E; cbn [fst snd].
    + split; [| apply clamp_floor_03].
      split; [intros _ | reflexivity].
      apply andb_true_iff in E. destruct E as [E1 E2].
      apply Qgeb_true in E2. apply orb_true_iff in E1.
      repeat split; [exact Hlong | | exact E2].
      destruct E1 as [E1 | E1]; apply Qgtb_true in E1; tauto.
    + split; [| split; [reflexivity | lra]].
      split; [discriminate |]. intros (_ & Hb & Hc).
      apply Qgeb_true in Hc. rewrite Hc in E.
      destruct Hb as [Hb | Hb]; apply Qgtb_true in Hb; rewrite Hb in E;
        cbn in E; rewrite ?orb_true_r in E; discriminate.
Qed.

(** [live_song_analyzer]: when the gate fires and what it answers. *)
Lemma live_intensity st rms bass now :
  let r := fst (LiveSongAnalyzer.detect_beat cfg st rms bass now) in
  let vh := append (LiveSongAnalyzer.volume_history st) rms in
  let bh := append (LiveSongAnalyzer.bass_history st) bass in
  (fst r = true
   <-> (10 <= len vh)%nat
       /\ COOLDOWN_MS cfg <= now * 1000 - LiveSongAnalyzer.last_flash_time st
       /\ ((np_mean (items vh) * 1.6 < rms /\ 800 < rms)
           \/ (np_mean (items bh) * 1.9 < bass /\ 2000 < bass)))
  /\ snd r == (if fst r then Spec.clamp (rms / 4000) 0.4 1 else 0)
  /\ 0 <= snd r <= 1.
Proof.
  cbv zeta. unfold LiveSongAnalyzer.detect_beat.
  destruct (Nat.ltb_spec (len (append (LiveSongAnalyzer.volume_history st) rms)) 10)
    as [Hshort | Hlong]; cbn [fst snd].
  - split; [| split; [reflexivity | lra]].
    split; [discriminate | intros (H & _); lia].
  - destruct (Qltb _ (COOLDOWN_MS cfg)) eqn:Ecd; cbn [fst snd].
    + apply Qltb_true in Ecd. split; [| split; [reflexivity | lra]].
      split; [discriminate | intros (_ & H & _); lra].
    + apply Qltb_false in Ecd.
      destruct (_ || _) eqn:E; cbn [fst snd].
      * split; [| apply clamp_floor_04].
        split; [intros _ | reflexivity]. repeat split; try assumption.
        apply orb_true_iff in E.
        destruct E as [E | E]; apply andb_true_iff in E; destruct E as [E1 E2];
          apply Qgtb_true in E1, E2; tauto.
      * split; [| split; [reflexivity | lra]].
        split; [discriminate |]. intros (_ & _ & [[H1 H2] | [H1 H2]]);
          apply Qgtb_true in H1, H2; rewrite H1, H2 in E;
          cbn in E; rewrite ?orb_true_r in E; discriminate.
Qed.

(** The file mode of [simple_rhythm_demo]: [min(1.0, rms * 10)]. *)
Lemma file_beat_intensity_value rms :
  SimpleRhythmDemo.file_beat_intensity rms == Qmin 1 (rms * 10)
  /\ (0 <= rms -> 0 <= SimpleRhythmDemo.file_beat_intensity rms <= 1).
Proof.
  unfold SimpleRhythmDemo.file_beat_intensity.
  destruct (py_min_cases 1.0 (rms * 10)) as [[H1 ->] | [H1 ->]].
  - split; [| intros; lra]. rewrite Q.min_r by lra. reflexivity.
  - split; [| intros; lra]. rewrite Q.min_l by lra. reflexivity.
Qed.

Lemma intensity_of_table :
  AiAudioAnalyzer.intensity_of AiAudioAnalyzer.bass_drop == 1
  /\ AiAudioAnalyzer.intensity_of AiAudioAnalyzer.rhythm == 0.8
  /\ AiAudioAnalyzer.intensity_of AiAudioAnalyzer.vocal == 0.7
  /\ AiAudioAnalyzer.intensity_of AiAudioAnalyzer.build == 0.5.
Proof. repeat split; reflexivity. Qed.
End Intensity.

(** C7, as stated, fails for the file mode of [simple_rhythm_demo]: the
    intensity it sends, [min(1.0, rms * 10)], is 0 for a silent chunk and
    0.1 for an RMS of 0.01, below every floor between 0.3 and 0.4, so it
    is no [clamp(rms / scale, floor, 1)] whatever the scale. *)
Lemma file_mode_intensity_has_no_floor :
  SimpleRhythmDemo.file_beat_intensity 0 == 0
  /\ SimpleRhythmDemo.file_beat_intensity 0.01 == 0.1
  /\ (forall scale floor : Q,
        0.3 <= floor <= 0.4 ->
        ~ SimpleRhythmDemo.file_beat_intensity 0 == Spec.clamp (0 / scale) floor 1).
Proof.
  split; [| split].
  - apply Qeq_bool_eq. vm_compute. reflexivity.
  - apply Qeq_bool_eq. vm_compute. reflexivity.
  - intros scale floor Hf H.
    assert (H0 : SimpleRhythmDemo.file_beat_intensity 0 == 0)
      by (apply Qeq_bool_eq; vm_compute; reflexivity).
    rewrite H0 in H. unfold Spec.clamp in H.
    assert (Hz : 0 / scale == 0) by (unfold Qdiv; ring).
    pose proof (Q.le_max_r (0 / scale) floor) as Hmax.
    destruct (Q.min_spec (Qmax (0 / scale) floor) 1) as [[_ Hm] | [_ Hm]];
      rewrite Hm in H; lra.
Qed.

(** C7, amended. For every non-negative signal value the intensity lies
    in [[0, 1]]. The [detect_beat] of [music_rhythm_test] and of
    [simple_rhythm_demo] answer [clamp(rms / 5000, 0.3, 1)] exactly when
    they report a beat, the one of [live_song_analyzer] answers
    [clamp(rms / 4000, 0.4, 1)], and all three answer 0 otherwise; the
    file mode of [simple_rhythm_demo] sends [min(1, rms * 10)], which has
    no floor; the fixed table of [ai_audio_analyzer] holds 1, 0.8, 0.7
    and 0.5. *)
Theorem intensity_clamped_except_in_file_mode :
  forall (cfg : Config) (v : Q),
    0 <= v ->
    (forall st bass now,
        let r := fst (MusicRhythmTest.detect_beat cfg st v bass now) in
        let vh := append (MusicRhythmTest.volume_history st) v in
        let bh := append (MusicRhythmTest.bass_history st) bass in
        (fst r = true
         <-> (5 <= len vh)%nat
             /\ COOLDOWN_MS cfg <= now * 1000 - MusicRhythmTest.last_flash_time st
             /\ ((np_mean (items vh) * 1.5 < v /\ 500 < v)
                 \/ (np_mean (items bh) * 1.8 < bass /\ 1000 < bass)))
        /\ snd r == (if fst r then Spec.clamp (v / 5000) 0.3 1 else 0)
        /\ 0 <= snd r <= 1)
    /\ (forall st bass now,
        let r := fst (SimpleRhythmDemo.detect_beat cfg st v bass now) in
        let vh := append (SimpleRhythmDemo.volume_history st) v in
        let bh := append (SimpleRhythmDemo.bass_history st) bass in
        (fst r = true
         <-> (5 <= len vh)%nat
             /\ (np_mean (items vh) * 1.5 < v \/ np_mean (items bh) * 1.8 < bass)
             /\ COOLDOWN_MS cfg <= now * 1000 - SimpleRhythmDemo.last_flash_time st)
        /\ snd r == (if fst r then Spec.clamp (v / 5000) 0.3 1 else 0)
        /\ 0 <= snd r <= 1)
    /\ (forall st bass now,
        let r := fst (LiveSongAnalyzer.detect_beat cfg st v bass now) in
        let vh := append (LiveSongAnalyzer.volume_history st) v in
        let bh := append (LiveSongAnalyzer.bass_history st) bass in
        (fst r = true
         <-> (10 <= len vh)%nat
             /\ COOLDOWN_MS cfg <= now * 1000 - LiveSongAnalyzer.last_flash_time st
             /\ ((np_mean (items vh) * 1.6 < v /\ 800 < v)
                 \/ (np_mean (items bh) * 1.9 < bass /\ 2000 < bass)))
        /\ snd r == (if fst r then Spec.clamp (v / 4000) 0.4 1 else 0)
        /\ 0 <= snd r <= 1)
    /\ (SimpleRhythmDemo.file_beat_intensity v == Qmin 1 (v * 10)
        /\ 0 <= SimpleRhythmDemo.file_beat_intensity v <= 1)
    /\ (AiAudioAnalyzer.intensity_of AiAudioAnalyzer.bass_drop == 1
        /\ AiAudioAnalyzer.intensity_of AiAudioAnalyzer.rhythm == 0.8
        /\ AiAudioAnalyzer.intensity_of AiAudioAnalyzer.vocal == 0.7
        /\ AiAudioAnalyzer.intensity_of AiAudioAnalyzer.build == 0.5).
Proof.
  intros cfg v Hv. split; [| split; [| split; [| split]]].
  - intros st bass now. apply mrt_intensity.
  - intros st bass now. apply demo_intensity.
  - intros st bass now. apply live_intensity.
  - destruct (file_beat_intensity_value v) as [H1 H2]. split; [exact H1 | now apply H2].
  - apply intensity_of_table.
Qed.

(** The amended claim at the signal values 0 and 1000000. At 0 the gates
    of [music_rhythm_test] and [simple_rhythm_demo] fire on the bass and
    answer the floor 0.3, and the file mode sends 0; at 1000000 the gates
    of [simple_rhythm_demo] and [live_song_analyzer] fire on the volume
    and answer the ceiling 1; during the cooldown the answer is 0. *)
Lemma intensity_clamped_except_in_file_mode_witness :
  (0 <= 0
   /\ snd (fst (MusicRhythmTest.detect_beat config Fixtures.mrt_four_quiet 0 5000 1))
      == Spec.clamp (0 / 5000) 0.3 1
   /\ snd (fst (SimpleRhythmDemo.detect_beat config Fixtures.demo_four_quiet 0 5000 1))
      == Spec.clamp (0 / 5000) 0.3 1
   /\ SimpleRhythmDemo.file_beat_intensity 0 == Qmin 1 (0 * 10))
  /\ (0 <= 1000000
      /\ fst (fst (SimpleRhythmDemo.detect_beat config Fixtures.demo_four_quiet
                     1000000 0 1)) = true
      /\ snd (fst (SimpleRhythmDemo.detect_beat config Fixtures.demo_four_quiet
                     1000000 0 1))
         == Spec.clamp (1000000 / 5000) 0.3 1
      /\ snd (fst (LiveSongAnalyzer.detect_beat config Fixtures.live_nine_quiet
                     1000000 0 1))
         == Spec.clamp (1000000 / 4000) 0.4 1
      /\ snd (fst (LiveSongAnalyzer.detect_beat config Fixtures.live_nine_quiet
                     1000000 0 (1 # 10)))
         == 0).
Proof.
  assert (H0 : 0 <= 0) by lra.
  assert (H1 : 0 <= 1000000) by lra.
  destruct (intensity_clamped_except_in_file_mode config 0 H0)
    as (Hmrt & Hdemo0 & _ & Hfile & _).
  destruct (intensity_clamped_except_in_file_mode config 1000000 H1)
    as (_ & Hdemo & Hlive & _).
  refine (conj (conj H0 (conj _ (conj _ (proj1 Hfile))))
               (conj H1 (conj _ (conj _ (conj _ _))))).
  - pose proof (proj1 (proj2 (Hmrt Fixtures.mrt_four_quiet 5000 1))) as H.
    cbv zeta in H.
    replace (fst (fst (MusicRhythmTest.detect_beat config Fixtures.mrt_four_quiet
                         0 5000 1))) with true in H by (vm_compute; reflexivity).
    exact H.
  - pose proof (proj1 (proj2 (Hdemo0 Fixtures.demo_four_quiet 5000 1))) as H.
    cbv zeta in H.
    replace (fst (fst (SimpleRhythmDemo.detect_beat config Fixtures.demo_four_quiet
                         0 5000 1))) with true in H by (vm_compute; reflexivity).
    exact H.
  - apply (proj1 (Hdemo Fixtures.demo_four_quiet 0 1)).
    cbn [SimpleRhythmDemo.volume_history SimpleRhythmDemo.bass_history
         SimpleRhythmDemo.last_flash_time Fixtures.demo_four_quiet].
    split; [vm_compute; lia
          | split; [left; vm_compute; reflexivity | vm_compute; discriminate]].
  - pose proof (proj1 (proj2 (Hdemo Fixtures.demo_four_quiet 0 1))) as H.
    cbv zeta in H.
    replace (fst (fst (SimpleRhythmDemo.detect_beat config Fixtures.demo_four_quiet
                         1000000 0 1))) with true in H by (vm_compute; reflexivity).
    exact H.
  - pose proof (proj1 (proj2 (Hlive Fixtures.live_nine_quiet 0 1))) as H.
    cbv zeta in H.
    replace (fst (fst (LiveSongAnalyzer.detect_beat config Fixtures.live_nine_quiet
                         1000000 0 1))) with true in H by (vm_compute; reflexivity).
    exact H.
  - pose proof (proj1 (proj2 (Hlive Fixtures.live_nine_quiet 0 (1 # 10)))) as H.
    cbv zeta in H.
    replace (fst (fst (LiveSongAnalyzer.detect_beat config Fixtures.live_nine_quiet
                         1000000 0 (1 # 10)))) with false in H
      by (vm_compute; reflexivity).
    exact H.
Defined.

(** ** The frequency band analyzers *)

Section Bands.
Variable rfft_abs : list Q -> list Q.

(** Selecting by the boolean mask of a range and summing is the energy of
    the closed band over the same frequencies. *)
Lemma masked_sum_band_energy (mags : list Q) :
  forall (fs : list Q) (lo hi : Q),
    np_sum (mask_select mags (band_mask fs (lo, hi)))
    == Spec.band_energy fs mags lo hi.
Proof.
  unfold Spec.band_energy.
  induction mags as [| m ms IH]; intros fs lo hi.
  - rewrite combine_nil. reflexivity.
  - destruct fs as [| f fs]; [reflexivity |].
    cbn [band_mask map mask_select combine fst snd np_sum fold_right].
    specialize (IH fs lo hi). unfold band_mask in IH. cbn [fst snd] in IH.
    unfold Qgeb, Qleb in *.
    destruct (Qle_bool lo f && Qle_bool f hi);
      cbn [np_sum fold_right]; fold (np_sum); rewrite IH; unfold np_sum; ring.
Qed.

(** Samples of an [int16] stream, divided by 32768, lie in [[-1, 1]]. *)
Lemma normalize_range (audio : list Z) :
  Forall is_int16 audio ->
  Forall (fun x => -1 <= x <= 1) (LiveSongAnalyzer.normalize audio).
Proof.
  unfold LiveSongAnalyzer.normalize. intros H. apply Forall_map.
  eapply Forall_impl; [| exact H]. intros z [Hlo Hhi]. cbn beta.
  assert (Hlo' : inject_Z (-32768) <= inject_Z z) by now rewrite <- Zle_Qle.
  assert (Hhi' : inject_Z z <= inject_Z 32767) by now rewrite <- Zle_Qle.
  change (inject_Z (-32768)) with (-32768) in Hlo'.
  change (inject_Z 32767) with 32767 in Hhi'.
  split; [apply Qle_shift_div_l | apply Qle_shift_div_r]; lra.
Qed.

(** [music_rhythm_test]: after [astype(np.float32)] the test
    [dtype == np.int16] is false, and the transform receives the samples
    as they are. *)
Lemma mrt_fft_input_unscaled (samples : list Z) :
  MusicRhythmTest.arr_data
    (MusicRhythmTest.fft_input (MusicRhythmTest.frombuffer_int16 samples))
  = map inject_Z samples.
Proof. reflexivity. Qed.
End Bands.

(** The chunk of 1323 samples at 44100 Hz, in binary64 and by bin
    centres, evaluated once. *)
Lemma band_edge_check :
  (let computed :=
     Float64.rfftfreq Float64.binary64 1323
       (Float64.div Float64.binary64 1 44100) in
   let centres := Spec.bin_frequencies 1323 44100 in
   let raw := Fixtures.rfft_abs_impulse (map inject_Z FloatFixtures.click_1323) in
   let code :=
     AiAudioAnalyzerF.analyze_frequency_bands Float64.binary64
       Fixtures.rfft_abs_impulse FloatFixtures.click_1323 44100 in
   Qeq_bool (nth 60 centres 0) 2000
   && Qltb 2000 (nth 60 computed 0)
   && Qeq_bool (fst (fst (fst code))) 7 && Qeq_bool (snd (fst (fst code))) 52
   && Qeq_bool (snd (fst code)) 180 && Qeq_bool (snd code) 93
   && Qeq_bool (Spec.band_energy centres raw 20 250) 7
   && Qeq_bool (Spec.band_energy centres raw 250 2000) 53
   && Qeq_bool (Spec.band_energy centres raw 2000 8000) 181
   && Qeq_bool (Spec.band_energy centres raw 300 3400) 94) = true.
Proof. vm_compute. reflexivity. Qed.

(** C8, as stated, fails in two ways. On a chunk holding one full-scale
    click, [ai_audio_analyzer] reports a bass energy of
    5 * 32767 = 163835, the energy of the raw samples; the analyzer that
    first divides the samples by 32768 reports 163835 / 32768, below 5.
    And on a chunk of 1323 samples at 44100 Hz, bin 60 is centred on
    2000 Hz, yet [np.fft.rfftfreq] computes 2000.0000000000002 for it in
    binary64, so the bin is left out of the mid band: on a unit click
    the code answers the energies 7, 52, 180 and 93 where the bins centred
    in the closed ranges number 7, 53, 181 and 94. *)
Lemma band_analyzer_departs_from_the_claim :
  (let code := AiAudioAnalyzer.analyze_frequency_bands Fixtures.rfft_abs_impulse
                 Fixtures.loud_click (SAMPLE_RATE config) in
   let spec := Spec.analyze Fixtures.rfft_abs_impulse Fixtures.loud_click
                 (SAMPLE_RATE config) in
   fst (fst (fst code)) == 163835
   /\ fst (fst (fst spec)) == 163835 / 32768
   /\ ~ fst (fst (fst code)) == fst (fst (fst spec)))
  /\ (let computed :=
        Float64.rfftfreq Float64.binary64 1323
          (Float64.div Float64.binary64 1 44100) in
      let centres := Spec.bin_frequencies 1323 44100 in
      let raw := Fixtures.rfft_abs_impulse (map inject_Z FloatFixtures.click_1323) in
      let code :=
        AiAudioAnalyzerF.analyze_frequency_bands Float64.binary64
          Fixtures.rfft_abs_impulse FloatFixtures.click_1323 44100 in
      nth 60 centres 0 == 2000
      /\ 2000 < nth 60 computed 0
      /\ (fst (fst (fst code)) == 7 /\ snd (fst (fst code)) == 52
          /\ snd (fst code) == 180 /\ snd code == 93)
      /\ (Spec.band_energy centres raw 20 250 == 7
          /\ Spec.band_energy centres raw 250 2000 == 53
          /\ Spec.band_energy centres raw 2000 8000 == 181
          /\ Spec.band_energy centres raw 300 3400 == 94)).
Proof.
  pose proof band_edge_check as H. cbv zeta in H |- *.
  apply andb_true_iff in H. destruct H as [H H10].
  apply andb_true_iff in H. destruct H as [H H9].
  apply andb_true_iff in H. destruct H as [H H8].
  apply andb_true_iff in H. destruct H as [H H7].
  apply andb_true_iff in H. destruct H as [H H6].
  apply andb_true_iff in H. destruct H as [H H5].
  apply andb_true_iff in H. destruct H as [H H4].
  apply andb_true_iff in H. destruct H as [H H3].
  apply andb_true_iff in H. destruct H as [H1 H2].
  refine (conj (conj _ (conj _ _))
            (conj (Qeq_bool_eq _ _ H1)
               (conj (proj1 (Qltb_true _ _) H2)
                  (conj (conj (Qeq_bool_eq _ _ H3)
                           (conj (Qeq_bool_eq _ _ H4)
                              (conj (Qeq_bool_eq _ _ H5) (Qeq_bool_eq _ _ H6))))
                        (conj (Qeq_bool_eq _ _ H7)
                           (conj (Qeq_bool_eq _ _ H8)
                              (conj (Qeq_bool_eq _ _ H9) (Qeq_bool_eq _ _ H10)))))))).
  - apply Qeq_bool_eq. vm_compute. reflexivity.
  - apply Qeq_bool_eq. vm_compute. reflexivity.
  - apply Qeq_bool_neq. vm_compute. reflexivity.
Qed.

(** C8, amended. [live_song_analyzer]'s [analyze_bass] divides the
    [int16] samples by 32768, which puts them in [[-1, 1]], before the
    transform; [ai_audio_analyzer]'s [analyze_frequency_bands] transforms
    the raw samples, without normalisation. Both sum, per band, the
    magnitudes of all bins whose frequency, as [np.fft.rfftfreq] computes
    it with the float operations, lies in the closed range: bass
    [[20, 250]], mid [[250, 2000]], high [[2000, 8000]] and vocal
    [[300, 3400]]. *)
Theorem band_energies_over_computed_frequencies :
  forall (A : Float64.arith) (rfft_abs : list Q -> list Q) (audio : list Z)
         (sample_rate : Q),
    let frequencies :=
      Float64.rfftfreq A (length audio) (Float64.div A 1 sample_rate) in
    let raw := rfft_abs (map inject_Z audio) in
    let scaled := rfft_abs (map (fun x => inject_Z x / 32768) audio) in
    let r := AiAudioAnalyzerF.analyze_frequency_bands A rfft_abs audio sample_rate in
    (fst (fst (fst r)) == Spec.band_energy frequencies raw 20 250
     /\ snd (fst (fst r)) == Spec.band_energy frequencies raw 250 2000
     /\ snd (fst r) == Spec.band_energy frequencies raw 2000 8000
     /\ snd r == Spec.band_energy frequencies raw 300 3400)
    /\ LiveSongAnalyzerF.analyze_bass A rfft_abs audio sample_rate
       == Spec.band_energy frequencies scaled 20 250
    /\ (Forall is_int16 audio ->
        Forall (fun x => -1 <= x <= 1) (LiveSongAnalyzer.normalize audio)).
Proof.
  intros A rfft_abs audio sample_rate frequencies raw scaled r.
  split; [| split].
  - unfold r, AiAudioAnalyzerF.analyze_frequency_bands. cbn [fst snd].
    repeat split; apply masked_sum_band_energy.
  - unfold LiveSongAnalyzerF.analyze_bass, LiveSongAnalyzer.normalize.
    rewrite length_map. apply masked_sum_band_energy.
  - apply normalize_range.
Qed.

(** The amended claim in binary64: on the full-scale click the normalised
    samples lie in [[-1, 1]] and the bass energy of [ai_audio_analyzer] is
    that of the five bins between 20 Hz and 250 Hz of the raw spectrum; on
    the chunk of 1323 samples the mid energy is that of the 52 bins whose
    computed frequency lies between 250 Hz and 2000 Hz. *)
Lemma band_energies_over_computed_frequencies_witness :
  Forall is_int16 Fixtures.loud_click
  /\ Forall (fun x => -1 <= x <= 1) (LiveSongAnalyzer.normalize Fixtures.loud_click)
  /\ fst (fst (fst (AiAudioAnalyzerF.analyze_frequency_bands Float64.binary64
                      Fixtures.rfft_abs_impulse Fixtures.loud_click
                      (SAMPLE_RATE config))))
     == Spec.band_energy
          (Float64.rfftfreq Float64.binary64 (length Fixtures.loud_click)
             (Float64.div Float64.binary64 1 (SAMPLE_RATE config)))
          (Fixtures.rfft_abs_impulse (map inject_Z Fixtures.loud_click))
          20 250
  /\ Spec.band_energy
       (Float64.rfftfreq Float64.binary64 (length FloatFixtures.click_1323)
          (Float64.div Float64.binary64 1 44100))
       (Fixtures.rfft_abs_impulse (map inject_Z FloatFixtures.click_1323))
       250 2000
     == 52.
Proof.
  assert (Hint : Forall is_int16 Fixtures.loud_click).
  { unfold Fixtures.loud_click. constructor; [unfold is_int16; lia |].
    apply Forall_forall. intros z Hz. apply repeat_spec in Hz. subst z.
    unfold is_int16. lia. }
  destruct (band_energies_over_computed_frequencies Float64.binary64
              Fixtures.rfft_abs_impulse Fixtures.loud_click (SAMPLE_RATE config))
    as ((Hbass & _) & _ & Hnorm).
  destruct (band_energies_over_computed_frequencies Float64.binary64
              Fixtures.rfft_abs_impulse FloatFixtures.click_1323 44100)
    as ((_ & Hmid & _) & _).
  split; [exact Hint | split; [exact (Hnorm Hint) | split; [exact Hbass |]]].
  rewrite <- Hmid. apply Qeq_bool_eq. vm_compute. reflexivity.
Defined.

(** ** The histories are updated first *)

Section HistoryFirst.
Variable cfg : Config.

Lemma dj_history_first st rms now :
  let r := DjListener.detect_beat cfg st rms now in
  let h := append (DjListener.volume_history st) rms in
  DjListener.volume_history (snd r) = h
  /\ (fst r = true
      <-> (3 <= len h)%nat
          /\ DjListener.threshold_of cfg (np_mean (items h)) < rms
          /\ COOLDOWN_MS cfg <= now * 1000 - DjListener.last_flash_time st).
Proof.
  unfold DjListener.detect_beat.
  destruct (Nat.ltb_spec (len (append (DjListener.volume_history st) rms)) 3)
    as [Hshort | Hlong]; cbn [fst snd DjListener.volume_history].
  - split; [reflexivity |]. split; [discriminate | intros (H & _); lia].
  - destruct (Qgtb _ _ && Qgeb _ _) eqn:E;
      cbn [fst snd DjListener.volume_history]; (split; [reflexivity |]).
    + apply andb_true_iff in E. destruct E as [E1 E2].
      apply Qgtb_true in E1. apply Qgeb_true in E2. tauto.
    + split; [discriminate |]. intros (_ & H1 & H2).
      apply Qgtb_true in H1. apply Qgeb_true in H2.
      rewrite H1, H2 in E. discriminate.
Qed.

Lemma mrt_history_first st rms bass now :
  let r := MusicRhythmTest.detect_beat cfg st rms bass now in
  let vh := append (MusicRhythmTest.volume_history st) rms in
  let bh := append (MusicRhythmTest.bass_history st) bass in
  MusicRhythmTest.volume_history (snd r) = vh
  /\ MusicRhythmTest.bass_history (snd r) = bh
  /\ (fst (fst r) = true
      <-> (5 <= len vh)%nat
          /\ COOLDOWN_MS cfg <= now * 1000 - MusicRhythmTest.last_flash_time st
          /\ ((np_mean (items vh) * 1.5 < rms /\ 500 < rms)
              \/ (np_mean (items bh) * 1.8 < bass /\ 1000 < bass))).
Proof.
  unfold MusicRhythmTest.detect_beat.
  destruct (Nat.ltb_spec (len (append (MusicRhythmTest.volume_history st) rms)) 5)
    as [Hshort | Hlong];
    cbn [fst snd MusicRhythmTest.volume_history MusicRhythmTest.bass_history].
  - repeat split; try discriminate. intros (H & _); lia.
  - destruct (Qltb _ (COOLDOWN_MS cfg)) eqn:Ecd;
      cbn [fst snd MusicRhythmTest.volume_history MusicRhythmTest.bass_history].
    + apply Qltb_true in Ecd. repeat split; try discriminate.
      intros (_ & H & _). lra.
    + apply Qltb_false in Ecd.
      destruct (_ || _) eqn:E;
        cbn [fst snd MusicRhythmTest.volume_history MusicRhythmTest.bass_history];
        (split; [reflexivity |]); (split; [reflexivity |]).
      * split; [intros _ | reflexivity]. repeat split; try assumption.
        apply orb_true_iff in E.
        destruct E as [E | E]; apply andb_true_iff in E; destruct E as [E1 E2];
          apply Qgtb_true in E1, E2; tauto.
      * split; [discriminate |]. intros (_ & _ & [[H1 H2] | [H1 H2]]);
          apply Qgtb_true in H1, H2; rewrite H1, H2 in E;
          cbn in E; rewrite ?orb_true_r in E; discriminate.
Qed.
End HistoryFirst.

Section AiHistoryFirst.
Import AiAudioAnalyzer.
Variable rfft_abs : list Q -> list Q.
Variable np_sqrt : Q -> Q.
Variable beat_track : list Q -> Q -> option Q.
Variable cfg : Config.

Lemma ai_history_first st audio e :
  let r := audio_callback rfft_abs np_sqrt beat_track cfg st audio e in
  let a := analyze_frequency_bands rfft_abs audio (SAMPLE_RATE cfg) in
  let bass := fst (fst (fst a)) in
  let mid := snd (fst (fst a)) in
  let bh := append (bass_history st) bass in
  let mh := append (mid_history st) mid in
  volume_history (fst r) = append (volume_history st) (calculate_rms np_sqrt audio)
  /\ bass_history (fst r) = bh
  /\ mid_history (fst r) = mh
  /\ (forall ev, snd r = Some ev ->
        detect_rhythm_event cfg (last_flash_time st) (t_detect e) bass mid bh mh
        = Some (ev_event_type ev)).
Proof.
  unfold audio_callback.
  destruct (analyze_frequency_bands rfft_abs audio (SAMPLE_RATE cfg))
    as [[[bass mid] high] voc].
  cbv zeta. cbn [fst snd last_flash_time].
  destruct (detect_rhythm_event cfg _ _ _ _ _ _) as [k |] eqn:Hd.
  - match goal with
    | |- context [send_flash_event ?s ?e ?k ?i ?b ?x ?y ?z] =>
        destruct (send_flash_event_frame s e k i b x y z)
          as (_ & _ & -> & -> & ->)
    end.
    repeat split. unfold send_flash_event.
    destruct (emit_ok e); cbn [snd]; intros ev Hev; [| discriminate].
    injection Hev as <-. reflexivity.
  - repeat split. discriminate.
Qed.

(** After a run the bass history is the initial one extended, in order, by
    the bass energy of every chunk. *)
Lemma ai_run_bass_history chunks :
  forall st,
    bass_history (fst (run rfft_abs np_sqrt beat_track cfg st chunks))
    = extend (bass_history st)
        (map (fun c => fst (fst (fst (analyze_frequency_bands rfft_abs (fst c)
                                        (SAMPLE_RATE cfg)))))
             chunks).
Proof.
  induction chunks as [| [audio e] rest IH]; intros st; [reflexivity |].
  cbn [run map fst extend fold_left].
  destruct (ai_history_first st audio e) as (_ & Hb & _).
  destruct (audio_callback rfft_abs np_sqrt beat_track cfg st audio e)
    as [st1 oev].
  specialize (IH st1).
  destruct (run rfft_abs np_sqrt beat_track cfg st1 rest) as [st2 evs].
  cbn [fst] in *. rewrite IH, Hb. reflexivity.
Qed.
End AiHistoryFirst.

(** C10. On every chunk the current value is appended to its rolling
    history before any comparison: whatever the outcome of the call
    (warm-up, cooldown, no criterion met, or an event) the histories of the
    new state are the old ones with the current value appended, the
    decision is taken on the means of these updated histories, and in a
    history of positive capacity the current value is their newest item. *)
Theorem history_is_updated_before_detection :
  forall cfg : Config,
    (forall st rms now,
        let r := DjListener.detect_beat cfg st rms now in
        let h := append (DjListener.volume_history st) rms in
        DjListener.volume_history (snd r) = h
        /\ (fst r = true
            <-> (3 <= len h)%nat
                /\ DjListener.threshold_of cfg (np_mean (items h)) < rms
                /\ COOLDOWN_MS cfg <= now * 1000 - DjListener.last_flash_time st))
    /\ (forall st rms bass now,
        let r := MusicRhythmTest.detect_beat cfg st rms bass now in
        let vh := append (MusicRhythmTest.volume_history st) rms in
        let bh := append (MusicRhythmTest.bass_history st) bass in
        MusicRhythmTest.volume_history (snd r) = vh
        /\ MusicRhythmTest.bass_history (snd r) = bh
        /\ (fst (fst r) = true
            <-> (5 <= len vh)%nat
                /\ COOLDOWN_MS cfg
                   <= now * 1000 - MusicRhythmTest.last_flash_time st
                /\ ((np_mean (items vh) * 1.5 < rms /\ 500 < rms)
                    \/ (np_mean (items bh) * 1.8 < bass /\ 1000 < bass))))
    /\ (forall rfft_abs np_sqrt beat_track st audio e,
        let r := AiAudioAnalyzer.audio_callback rfft_abs np_sqrt beat_track cfg
                   st audio e in
        let a := AiAudioAnalyzer.analyze_frequency_bands rfft_abs audio
                   (SAMPLE_RATE cfg) in
        let bass := fst (fst (fst a)) in
        let mid := snd (fst (fst a)) in
        let bh := append (AiAudioAnalyzer.bass_history st) bass in
        let mh := append (AiAudioAnalyzer.mid_history st) mid in
        AiAudioAnalyzer.volume_history (fst r)
        = append (AiAudioAnalyzer.volume_history st)
                 (AiAudioAnalyzer.calculate_rms np_sqrt audio)
        /\ AiAudioAnalyzer.bass_history (fst r) = bh
        /\ AiAudioAnalyzer.mid_history (fst r) = mh
        /\ (forall ev, snd r = Some ev ->
              AiAudioAnalyzer.detect_rhythm_event cfg
                (AiAudioAnalyzer.last_flash_time st) (AiAudioAnalyzer.t_detect e)
                bass mid bh mh
              = Some (AiAudioAnalyzer.ev_event_type ev)))
    /\ (forall (history : deque Q) (value : Q),
        (0 < maxlen history)%nat -> bounded history ->
        exists older, items (append history value) = older ++ [value]).
Proof.
  intros cfg. split; [| split; [| split]].
  - intros st rms now. apply dj_history_first.
  - intros st rms bass now. apply mrt_history_first.
  - intros rfft_abs np_sqrt beat_track st audio e. apply ai_history_first.
  - intros history value Hpos Hb. now apply append_last.
Qed.

(** The claim on the third chunk of [dj_listener]: an RMS of 1000 after
    two silent chunks is compared with the mean 1000/3 of the updated
    history, in which it is the newest item, and fires; an RMS of 50 does
    not fire and is recorded all the same. *)
Lemma history_is_updated_before_detection_witness :
  (exists older,
      items (append (DjListener.volume_history Fixtures.dj_two_quiet) 1000)
      = older ++ [1000])
  /\ fst (DjListener.detect_beat config Fixtures.dj_two_quiet 1000 1) = true
  /\ fst (DjListener.detect_beat config Fixtures.dj_two_quiet 50 1) = false
  /\ DjListener.volume_history
       (snd (DjListener.detect_beat config Fixtures.dj_two_quiet 50 1))
     = append (DjListener.volume_history Fixtures.dj_two_quiet) 50.
Proof.
  destruct (history_is_updated_before_detection config) as (Hdj & _ & _ & Hnew).
  destruct (Hdj Fixtures.dj_two_quiet 1000 1) as (_ & Hfire).
  destruct (Hdj Fixtures.dj_two_quiet 50 1) as (Hrec & _).
  split; [| split; [| split]].
  - apply Hnew; [vm_compute; lia | vm_compute; lia].
  - apply (proj2 Hfire). split; [vm_compute; lia | split].
    + vm_compute. reflexivity.
    + vm_compute. discriminate.
  - vm_compute. reflexivity.
  - exact Hrec.
Defined.

(** ** The rolling histories *)

(** C9. A rolling history of capacity [N] that received the values [xs],
    oldest first, never holds more than [N] values and holds exactly the
    most recent [N] of them in chronological order; once [N + 1] values
    were pushed its length is [N] and the first value pushed is gone: the
    content is [xs] without its head (and, when the pushed values are
    pairwise distinct, the oldest value does not occur in it). Every single
    [append] on a full history drops the oldest item and nothing else. In
    particular the bass history of [ai_audio_analyzer] holds, after any
    run, the bass energies of the ten most recent chunks, oldest first. *)
Theorem rolling_history_fifo_eviction :
  forall (A : Type) (N : nat) (xs : list A),
    let d := extend (Deque.empty N) xs in
    (len d <= N)%nat
    /\ items d = lastn N xs
    /\ (length xs = S N ->
        len d = N
        /\ items d = tl xs
        /\ (NoDup xs -> forall oldest, hd_error xs = Some oldest ->
                                       ~ In oldest (items d)))
    /\ (forall (h : deque A) (x : A), bounded h ->
          bounded (append h x)
          /\ (len h = maxlen h -> items (append h x) = tl (items h ++ [x]))
          /\ ((len h < maxlen h)%nat -> items (append h x) = items h ++ [x]))
    /\ (forall rfft_abs np_sqrt beat_track cfg chunks,
          items (AiAudioAnalyzer.bass_history
                   (fst (AiAudioAnalyzer.run rfft_abs np_sqrt beat_track cfg
                           (AiAudioAnalyzer.init cfg) chunks)))
          = lastn 10
              (map (fun c =>
                      fst (fst (fst (AiAudioAnalyzer.analyze_frequency_bands
                                       rfft_abs (fst c) (SAMPLE_RATE cfg)))))
                   chunks)).
Proof.
  intros A N xs d.
  assert (Hitems : items d = lastn N xs).
  { unfold d. rewrite extend_items by auto with deque. reflexivity. }
  assert (Hb : bounded d) by (unfold d; auto with deque).
  repeat split.
  - unfold bounded in Hb. unfold d in *. now rewrite extend_maxlen in Hb.
  - exact Hitems.
  - unfold len. rewrite Hitems, lastn_length. lia.
  - rewrite Hitems. unfold lastn. rewrite H.
    replace (S N - N)%nat with 1%nat by lia. now destruct xs.
  - intros Hnd oldest Hhd Hin. rewrite Hitems in Hin. unfold lastn in Hin.
    rewrite H in Hin. replace (S N - N)%nat with 1%nat in Hin by lia.
    destruct xs as [| y ys]; [discriminate |].
    injection Hhd as ->. cbn in Hin. now inversion Hnd.
  - now apply append_bounded.
  - intros Hfull. rewrite append_items by assumption.
    apply lastn_snoc_tl. exact Hfull.
  - intros Hroom. rewrite append_items by assumption.
    apply lastn_all. rewrite length_app. unfold len in Hroom. simpl. lia.
  - intros rfft_abs np_sqrt beat_track cfg chunks.
    rewrite ai_run_bass_history, extend_items by apply empty_bounded.
    reflexivity.
Qed.

(** The claim at capacity 3 with the pushes 1, 2, 3, 4. *)
Lemma rolling_history_fifo_eviction_witness :
  length [1; 2; 3; 4]%Z = 4%nat
  /\ items (extend (Deque.empty 3) [1; 2; 3; 4]%Z) = [2; 3; 4]%Z
  /\ len (extend (Deque.empty 3) [1; 2; 3; 4]%Z) = 3%nat.
Proof.
  destruct (rolling_history_fifo_eviction Z 3 [1; 2; 3; 4]%Z)
    as (_ & _ & Hfull & _ & _).
  destruct (Hfull eq_refl) as (Hlen & Htl & _).
  split; [reflexivity | split; [exact Htl | exact Hlen]].
Defined.

(** * Further properties of the scripts *)

(** ** [calculate_rms]: the squares are taken in [int16] *)

Section RmsOverflow.

Lemma int16_wrap_range (z : Z) : is_int16 (int16_wrap z).
Proof.
  unfold is_int16, int16_wrap.
  pose proof (Z.mod_pos_bound (z + 32768) 65536 eq_refl). lia.
Qed.

Lemma int16_wrap_small (z : Z) : is_int16 z -> int16_wrap z = z.
Proof.
  unfold is_int16, int16_wrap. intros H.
  rewrite Z.mod_small by lia. lia.
Qed.

(** The stored square never exceeds the true one. *)
Lemma int16_wrap_square_le (x : Z) : (int16_wrap (x * x) <= x * x)%Z.
Proof.
  destruct (Z_le_gt_dec (x * x) 32767) as [Hs | Hb].
  - rewrite int16_wrap_small; [lia | unfold is_int16; nia].
  - pose proof (int16_wrap_range (x * x)) as [_ H]. lia.
Qed.

(** It is the true one exactly for samples of magnitude at most 181. *)
Lemma int16_wrap_square_exact (x : Z) :
  int16_wrap (x * x) = (x * x)%Z <-> (Z.abs x <= 181)%Z.
Proof.
  split.
  - intros H. pose proof (int16_wrap_range (x * x)) as [_ Hr].
    rewrite H in Hr. nia.
  - intros H. apply int16_wrap_small. unfold is_int16. nia.
Qed.

Lemma np_sum_le (f g : Z -> Q) (l : list Z) :
  (forall x, f x <= g x) -> np_sum (map f l) <= np_sum (map g l).
Proof.
  intros H. induction l as [| x l IH]; cbn; [lra |].
  specialize (H x). unfold np_sum in IH. lra.
Qed.

Lemma np_sum_lt (f g : Z -> Q) (l : list Z) (P : Z -> Prop) :
  (forall x, f x <= g x) -> (forall x, P x -> f x < g x) ->
  Exists P l -> np_sum (map f l) < np_sum (map g l).
Proof.
  intros Hle Hlt Hex. induction Hex as [x l Hx | x l _ IH]; cbn.
  - pose proof (np_sum_le f g l Hle) as Hs. specialize (Hlt x Hx).
    unfold np_sum in Hs. lra.
  - specialize (Hle x). unfold np_sum in IH. lra.
Qed.
End RmsOverflow.

(** X1. [calculate_rms] squares the samples inside the [int16] array, so
    the squares wrap around modulo 2^16. If every sample of the chunk has
    a magnitude of at most 181 the function takes the root of the true
    mean square; as soon as one sample is louder, the mean it takes the
    root of is strictly smaller than the true mean square. *)
Theorem calculate_rms_wraps_above_181 :
  forall (np_sqrt : Q -> Q) (audio : list Z),
    let true_mean := np_mean (map (fun x => inject_Z (x * x)) audio) in
    let used_mean := np_mean (map (fun x => inject_Z (int16_wrap (x * x))) audio) in
    AiAudioAnalyzer.calculate_rms np_sqrt audio = np_sqrt used_mean
    /\ (Forall (fun x => (Z.abs x <= 181)%Z) audio -> used_mean = true_mean)
    /\ (Exists (fun x => (181 < Z.abs x)%Z) audio -> used_mean < true_mean).
Proof.
  intros np_sqrt audio true_mean used_mean. split; [reflexivity | split].
  - intros Hsmall. unfold used_mean, true_mean. f_equal.
    apply map_ext_in. intros x Hx. rewrite Forall_forall in Hsmall.
    f_equal. apply int16_wrap_square_exact, Hsmall, Hx.
  - intros Hloud. unfold used_mean, true_mean, np_mean.
    rewrite !length_map.
    assert (Hlen : 0 < inject_Z (Z.of_nat (length audio))).
    { destruct Hloud; cbn [length]; rewrite Nat2Z.inj_succ;
        change 0 with (inject_Z 0); rewrite <- Zlt_Qlt; lia. }
    apply Qmult_lt_compat_r; [now apply Qinv_lt_0_compat |].
    apply (np_sum_lt _ _ audio (fun x => (181 < Z.abs x)%Z)).
    + intros x. rewrite <- Zle_Qle. apply int16_wrap_square_le.
    + intros x Hx. rewrite <- Zlt_Qlt.
      pose proof (int16_wrap_square_le x) as Hle.
      destruct (Z.eq_dec (int16_wrap (x * x)) (x * x)) as [He | Hne]; [| lia].
      apply int16_wrap_square_exact in He. lia.
    + exact Hloud.
Qed.

(** A chunk of samples [100, -181] keeps its mean square; the chunk
    [182, 0] does not. *)
Lemma calculate_rms_wraps_above_181_witness :
  np_mean (map (fun x => inject_Z (int16_wrap (x * x))) [100; -181]%Z)
  = np_mean (map (fun x => inject_Z (x * x)) [100; -181]%Z)
  /\ np_mean (map (fun x => inject_Z (int16_wrap (x * x))) [182; 0]%Z)
     < np_mean (map (fun x => inject_Z (x * x)) [182; 0]%Z).
Proof.
  split.
  - apply (proj1 (proj2 (calculate_rms_wraps_above_181 Fixtures.sqrt_exact
                           [100; -181]%Z))).
    repeat constructor; cbn; lia.
  - apply (proj2 (proj2 (calculate_rms_wraps_above_181 Fixtures.sqrt_exact
                           [182; 0]%Z))).
    constructor. cbn. lia.
Defined.

(** ** The band energies of [ai_audio_analyzer] *)

Section BandFacts.

Lemma masked_sum_nonneg (mags : list Q) :
  Forall (fun m => 0 <= m) mags ->
  forall mask, 0 <= np_sum (mask_select mags mask).
Proof.
  induction 1 as [| m ms Hm _ IH]; intros mask; [cbn; lra |].
  destruct mask as [| b bs]; [cbn; lra |].
  specialize (IH bs). destruct b; cbn in *; unfold np_sum in IH; lra.
Qed.

(** A band covered by two others has at most their joint energy. *)
Lemma masked_sum_covered (mags : list Q) :
  Forall (fun m => 0 <= m) mags ->
  forall (fs : list Q) (r r1 r2 : Q * Q),
    (forall f, Qgeb f (fst r) && Qleb f (snd r) = true ->
               Qgeb f (fst r1) && Qleb f (snd r1) = true
               \/ Qgeb f (fst r2) && Qleb f (snd r2) = true) ->
    np_sum (mask_select mags (band_mask fs r))
    <= np_sum (mask_select mags (band_mask fs r1))
       + np_sum (mask_select mags (band_mask fs r2)).
Proof.
  induction 1 as [| m ms Hm Hms IH]; intros fs r r1 r2 Hcov; [cbn; lra |].
  destruct fs as [| f fs]; [cbn; lra |].
  specialize (IH fs r r1 r2 Hcov).
  pose proof (masked_sum_nonneg ms Hms (band_mask fs r1)) as H1.
  pose proof (masked_sum_nonneg ms Hms (band_mask fs r2)) as H2.
  cbn [band_mask map mask_select]. fold (band_mask fs r).
  fold (band_mask fs r1). fold (band_mask fs r2).
  specialize (Hcov f).
  destruct (Qgeb f (fst r) && Qleb f (snd r)) eqn:E;
  destruct (Qgeb f (fst r1) && Qleb f (snd r1)) eqn:E1;
  destruct (Qgeb f (fst r2) && Qleb f (snd r2)) eqn:E2;
  cbn [np_sum fold_right] in *; unfold np_sum in *;
    first [lra | destruct (Hcov eq_refl); discriminate].
Qed.

Lemma vocal_range_covered (f : Q) :
  Qgeb f (fst AiAudioAnalyzer.VOCAL_RANGE) && Qleb f (snd AiAudioAnalyzer.VOCAL_RANGE) = true ->
  Qgeb f (fst AiAudioAnalyzer.MID_RANGE) && Qleb f (snd AiAudioAnalyzer.MID_RANGE) = true
  \/ Qgeb f (fst AiAudioAnalyzer.HIGH_RANGE) && Qleb f (snd AiAudioAnalyzer.HIGH_RANGE) = true.
Proof.
  cbn [fst snd AiAudioAnalyzer.VOCAL_RANGE AiAudioAnalyzer.MID_RANGE
       AiAudioAnalyzer.HIGH_RANGE].
  rewrite !andb_true_iff, !Qgeb_true, !Qleb_true. intros [Hlo Hhi].
  destruct (Qlt_le_dec f 2000); [left | right]; split; lra.
Qed.

Lemma band_energy_facts (rfft_abs : list Q -> list Q) (audio : list Z) (sample_rate : Q) :
  Forall (fun m => 0 <= m) (rfft_abs (map inject_Z audio)) ->
  let r := AiAudioAnalyzer.analyze_frequency_bands rfft_abs audio sample_rate in
  0 <= fst (fst (fst r)) /\ 0 <= snd (fst (fst r)) /\ 0 <= snd (fst r)
  /\ 0 <= snd r /\ snd r <= snd (fst (fst r)) + snd (fst r).
Proof.
  intros Hpos.
  unfold AiAudioAnalyzer.analyze_frequency_bands. cbn [fst snd].
  repeat split; try (apply masked_sum_nonneg; exact Hpos).
  apply masked_sum_covered; [exact Hpos | apply vocal_range_covered].
Qed.
End BandFacts.

(** X2. Whatever the chunk, when the magnitude spectrum is non-negative
    the four band energies of [analyze_frequency_bands] are non-negative,
    and the vocal energy (300-3400 Hz) is at most the sum of the mid and
    the high energy, whose bands cover the vocal band. *)
Theorem band_energies_nonneg_and_vocal_bounded :
  forall (rfft_abs : list Q -> list Q) (audio : list Z) (sample_rate : Q),
    Forall (fun m => 0 <= m) (rfft_abs (map inject_Z audio)) ->
    let r := AiAudioAnalyzer.analyze_frequency_bands rfft_abs audio sample_rate in
    let bass := fst (fst (fst r)) in
    let mid := snd (fst (fst r)) in
    let high := snd (fst r) in
    let vocal := snd r in
    0 <= bass /\ 0 <= mid /\ 0 <= high /\ 0 <= vocal /\ vocal <= mid + high.
Proof.
  intros rfft_abs audio sample_rate Hpos. now apply band_energy_facts.
Qed.

(** The property on a click of amplitude 1: the energies are 5, 41, 139
    and 72. *)
Lemma band_energies_nonneg_and_vocal_bounded_witness :
  let r := AiAudioAnalyzer.analyze_frequency_bands Fixtures.rfft_abs_impulse
             Fixtures.click (SAMPLE_RATE config) in
  0 <= fst (fst (fst r)) /\ snd r <= snd (fst (fst r)) + snd (fst r).
Proof.
  assert (Hpos : Forall (fun m => 0 <= m)
                   (Fixtures.rfft_abs_impulse (map inject_Z Fixtures.click))).
  { unfold Fixtures.rfft_abs_impulse. apply Forall_forall. intros m Hm.
    apply repeat_spec in Hm. subst m. apply Qabs_nonneg. }
  destruct (band_energies_nonneg_and_vocal_bounded Fixtures.rfft_abs_impulse
              Fixtures.click (SAMPLE_RATE config) Hpos) as (Hb & _ & _ & _ & Hv).
  split; [exact Hb | exact Hv].
Defined.

(** ** [detect_bass_drop] against the rhythm criterion *)

(** X3. [detect_bass_drop] answers [False] while the bass history holds
    fewer than five samples, and whenever it answers [True] the rhythm
    criterion of [detect_rhythm_event] (bass above 1.5 times the mean and
    above 3000) holds as well: every bass drop would also pass as a
    rhythm hit, and only the order of the tests tells them apart. *)
Theorem bass_drop_implies_rhythm_criterion :
  forall (bass : Q) (bh : deque Q),
    ((len bh < 5)%nat -> AiAudioAnalyzer.detect_bass_drop bass bh = false)
    /\ (AiAudioAnalyzer.detect_bass_drop bass bh = true ->
        (5 <= len bh)%nat
        /\ Qgtb bass (np_mean (items bh) * 1.5) && Qgtb bass 3000 = true).
Proof.
  intros bass bh. unfold AiAudioAnalyzer.detect_bass_drop. split.
  - intros H. apply Nat.ltb_lt in H. now rewrite H.
  - destruct (Nat.ltb_spec (len bh) 5) as [Hs | Hl]; [discriminate |].
    intros H. apply andb_true_iff in H. destruct H as [H1 H2].
    apply Qgtb_true in H1, H2. split; [exact Hl |].
    apply andb_true_iff. split; apply Qgtb_true; [| lra].
    destruct (Qlt_le_dec (np_mean (items bh)) 0); lra.
Qed.

(** A bass energy of 6000 on a history of mean 2000 is a bass drop and
    passes the rhythm test; with three samples of history it is none. *)
Lemma bass_drop_implies_rhythm_criterion_witness :
  let bh := extend (Deque.empty 10) [1000; 1000; 1000; 1000; 6000] in
  let bh3 := extend (Deque.empty 10) [0; 0; 6000] in
  Qgtb 6000 (np_mean (items bh) * 1.5) && Qgtb 6000 3000 = true
  /\ AiAudioAnalyzer.detect_bass_drop 6000 bh3 = false.
Proof.
  intros bh bh3. split.
  - apply (proj2 (bass_drop_implies_rhythm_criterion 6000 bh)).
    vm_compute. reflexivity.
  - apply (proj1 (bass_drop_implies_rhythm_criterion 6000 bh3)).
    vm_compute. lia.
Defined.

(** ** Successive calls of the gates *)

Section GateSchedule.
Context {State Input : Type}.
Variable step : State -> Input -> Q -> bool * State.
Variable last : State -> Q.
Variable cd scale : Q.
Hypothesis scale_nonneg : 0 <= scale.
Hypothesis step_fires :
  forall s x now, fst (step s x now) = true ->
    cd <= now * scale - last s /\ last (snd (step s x now)) == now * scale.
Hypothesis step_quiet :
  forall s x now, fst (step s x now) = false ->
    last (snd (step s x now)) == last s.

(** The firing calls of a gate that keeps its own cooldown clock are a
    cooldown apart. *)
Lemma firing_times_apart (calls : list (Input * Q)) :
  forall st t0,
    Calls.nondecreasing t0 (map snd calls) ->
    let ts := Calls.firing_times step st calls in
    Forall (fun t => t0 <= t) ts
    /\ match ts with
       | t :: _ => cd <= t * scale - last st
       | [] => True
       end
    /\ ForallOrdPairs (fun a b => cd <= (b - a) * scale) ts.
Proof.
  induction calls as [| [x now] rest IH]; intros st t0 Hclock.
  - cbn. repeat split; constructor.
  - cbn [map snd Calls.nondecreasing] in Hclock.
    destruct Hclock as [H0 Hrest]. cbn [Calls.firing_times].
    specialize (IH (snd (step st x now)) now Hrest). cbn zeta in IH.
    destruct IH as (Hlow & Hhead & Hpairs).
    assert (Hlow0 : Forall (fun t => t0 <= t)
                      (Calls.firing_times step (snd (step st x now)) rest)).
    { eapply Forall_impl; [| exact Hlow]. cbn. intros; lra. }
    destruct (fst (step st x now)) eqn:Hf.
    + destruct (step_fires st x now Hf) as [Hgap Hlast].
      repeat split.
      * constructor; [exact H0 | exact Hlow0].
      * exact Hgap.
      * constructor; [| exact Hpairs].
        apply Forall_forall. intros t Ht.
        destruct (Calls.firing_times step (snd (step st x now)) rest)
          as [| h tl]; [contradiction |].
        assert (Hh : cd <= (h - now) * scale) by (rewrite Hlast in Hhead; lra).
        destruct Ht as [<- | Ht]; [exact Hh |].
        inversion Hpairs as [| ? ? Hall _]; subst.
        rewrite Forall_forall in Hall. specialize (Hall t Ht). cbn in Hall.
        inversion Hlow as [| ? ? Hnow _]; subst.
        assert (Hm : now * scale <= h * scale)
          by (apply Qmult_le_compat_r; assumption).
        lra.
    + pose proof (step_quiet st x now Hf) as Hlast.
      repeat split; [exact Hlow0 | | exact Hpairs].
      destruct (Calls.firing_times step (snd (step st x now)) rest); [exact I |].
      rewrite Hlast in Hhead. exact Hhead.
Qed.
End GateSchedule.

Section GateScheduleF.
Context {State Input : Type}.
Variable A : Float64.arith.
Variable step : State -> Input -> Q -> bool * State.
Variable last : State -> Q.
Variable cd : Q.
Hypothesis A_monotone : Float64.monotone A.
Hypothesis step_fires :
  forall s x now, fst (step s x now) = true ->
    cd <= Float64.sub A (Float64.mul A now 1000) (last s)
    /\ last (snd (step s x now)) = Float64.mul A now 1000.
Hypothesis step_quiet :
  forall s x now, fst (step s x now) = false ->
    last (snd (step s x now)) = last s.

(** The firing calls of a gate that keeps its own cooldown clock in
    milliseconds: the measured gap between any two of them is at least the
    cooldown. *)
Lemma firing_times_measured_apart (calls : list (Input * Q)) :
  forall st t0,
    Calls.nondecreasing t0 (map snd calls) ->
    let ts := Calls.firing_times step st calls in
    Forall (fun t => t0 <= t) ts
    /\ match ts with
       | t :: _ => cd <= Float64.sub A (Float64.mul A t 1000) (last st)
       | [] => True
       end
    /\ ForallOrdPairs (fun a b => cd <= CallsF.measured_gap A a b) ts.
Proof.
  destruct A_monotone as [Hmul Hsub].
  induction calls as [| [x now] rest IH]; intros st t0 Hclock.
  - cbn. repeat split; constructor.
  - cbn [map snd Calls.nondecreasing] in Hclock.
    destruct Hclock as [H0 Hrest]. cbn [Calls.firing_times].
    specialize (IH (snd (step st x now)) now Hrest). cbn zeta in IH.
    destruct IH as (Hlow & Hhead & Hpairs).
    assert (Hlow0 : Forall (fun t => t0 <= t)
                      (Calls.firing_times step (snd (step st x now)) rest)).
    { eapply Forall_impl; [| exact Hlow]. cbn. intros; lra. }
    destruct (fst (step st x now)) eqn:Hf.
    + destruct (step_fires st x now Hf) as [Hgap Hlast].
      repeat split.
      * constructor; [exact H0 | exact Hlow0].
      * exact Hgap.
      * constructor; [| exact Hpairs].
        apply Forall_forall. intros t Ht. unfold CallsF.measured_gap.
        destruct (Calls.firing_times step (snd (step st x now)) rest)
          as [| h tl]; [contradiction |].
        rewrite Hlast in Hhead.
        destruct Ht as [<- | Ht]; [exact Hhead |].
        inversion Hpairs as [| ? ? Hall _]; subst.
        rewrite Forall_forall in Hall. specialize (Hall t Ht).
        unfold CallsF.measured_gap in Hall.
        inversion Hlow as [| ? ? Hnow _]; subst.
        eapply Qle_trans; [exact Hall |].
        apply Hsub; [apply Qle_refl |]. apply Hmul; [lra | exact Hnow].
    + pose proof (step_quiet st x now Hf) as Hlast.
      repeat split; [exact Hlow0 | | exact Hpairs].
      destruct (Calls.firing_times step (snd (step st x now)) rest); [exact I |].
      rewrite Hlast in Hhead. exact Hhead.
Qed.

(** A firing call is one of the calls. *)
Lemma firing_times_before (hi : Q) (calls : list (Input * Q)) :
  forall st,
    Forall (fun t => t <= hi) (map snd calls) ->
    Forall (fun t => t <= hi) (Calls.firing_times step st calls).
Proof.
  induction calls as [| [x now] rest IH]; intros st Hhi; [constructor |].
  cbn [map snd] in Hhi. inversion Hhi as [| ? ? Hnow Hrest]; subst.
  cbn [Calls.firing_times].
  destruct (fst (step st x now)); [constructor; [exact Hnow |] |]; now apply IH.
Qed.

(** Both conclusions about the firing calls: the measured gap, and the
    gap between the readings up to the accuracy of the arithmetic. *)
Lemma firing_times_apart_up_to_rounding (calls : list (Input * Q)) st t0 :
  Calls.nondecreasing t0 (map snd calls) ->
  let ts := Calls.firing_times step st calls in
  ForallOrdPairs (fun a b => cd <= CallsF.measured_gap A a b) ts
  /\ (forall hi delta,
        Float64.accurate A t0 hi delta ->
        Forall (fun t => t <= hi) (map snd calls) ->
        ForallOrdPairs (fun a b => cd - 3 * delta <= (b - a) * 1000) ts).
Proof.
  intros Hclock ts.
  destruct (firing_times_measured_apart calls st t0 Hclock) as (Hlow & _ & Hpairs).
  split; [exact Hpairs |]. intros hi delta Hacc Hhi.
  pose proof (firing_times_before hi calls st Hhi) as Hup.
  apply (ForallOrdPairs_impl_on (fun t => t0 <= t <= hi)
           (fun a b => cd <= CallsF.measured_gap A a b)).
  - intros a b Ha Hb Hgap.
    apply (measured_gap_tolerance A t0 hi delta); assumption.
  - fold ts in Hlow. rewrite Forall_forall in *.
    intros t Ht. split; [apply Hlow | apply Hup]; exact Ht.
  - exact Hpairs.
Qed.
End GateScheduleF.

Section GateCooldown.
Variable A : Float64.arith.
Variable cfg : Config.

(** What a call of each gate does to its cooldown clock. *)
Lemma dj_gate_step s x now :
  let r := CallsF.dj_gate A cfg s x now in
  (fst r = true ->
   COOLDOWN_MS cfg
   <= Float64.sub A (Float64.mul A now 1000) (DjListener.last_flash_time s)
   /\ DjListener.last_flash_time (snd r) = Float64.mul A now 1000)
  /\ (fst r = false -> DjListener.last_flash_time (snd r) = DjListener.last_flash_time s).
Proof.
  cbv zeta. unfold CallsF.dj_gate, DjListenerF.detect_beat.
  destruct (len _ <? 3)%nat; cbn [fst snd DjListener.last_flash_time];
    [split; [discriminate | reflexivity] |].
  destruct (Qgtb _ _ && Qgeb _ _) eqn:E; cbn [fst snd DjListener.last_flash_time];
    (split; [| try discriminate; reflexivity]); [| discriminate].
  intros _. apply andb_true_iff in E. destruct E as [_ E].
  apply Qgeb_true in E. split; [exact E | reflexivity].
Qed.

Lemma mrt_gate_step s x now :
  let r := CallsF.mrt_gate A cfg s x now in
  (fst r = true ->
   COOLDOWN_MS cfg
   <= Float64.sub A (Float64.mul A now 1000) (MusicRhythmTest.last_flash_time s)
   /\ MusicRhythmTest.last_flash_time (snd r) = Float64.mul A now 1000)
  /\ (fst r = false ->
      MusicRhythmTest.last_flash_time (snd r) = MusicRhythmTest.last_flash_time s).
Proof.
  cbv zeta. unfold CallsF.mrt_gate, MusicRhythmTestF.detect_beat.
  destruct (len _ <? 5)%nat; cbn [fst snd MusicRhythmTest.last_flash_time];
    [split; [discriminate | reflexivity] |].
  destruct (Qltb _ (COOLDOWN_MS cfg)) eqn:E;
    cbn [fst snd MusicRhythmTest.last_flash_time];
    [split; [discriminate | reflexivity] |].
  apply Qltb_false in E.
  destruct (_ || _); cbn [fst snd MusicRhythmTest.last_flash_time];
    (split; [| try discriminate; reflexivity]); [| discriminate].
  intros _. split; [exact E | reflexivity].
Qed.

Lemma demo_gate_step s x now :
  let r := CallsF.demo_gate A cfg s x now in
  (fst r = true ->
   COOLDOWN_MS cfg
   <= Float64.sub A (Float64.mul A now 1000) (SimpleRhythmDemo.last_flash_time s)
   /\ SimpleRhythmDemo.last_flash_time (snd r) = Float64.mul A now 1000)
  /\ (fst r = false ->
      SimpleRhythmDemo.last_flash_time (snd r) = SimpleRhythmDemo.last_flash_time s).
Proof.
  cbv zeta. unfold CallsF.demo_gate, SimpleRhythmDemoF.detect_beat.
  destruct (len _ <? 5)%nat; cbn [fst snd SimpleRhythmDemo.last_flash_time];
    [split; [discriminate | reflexivity] |].
  destruct ((Qgtb _ _ || Qgtb _ _) && Qgeb _ _) eqn:E;
    cbn [fst snd SimpleRhythmDemo.last_flash_time];
    (split; [| try discriminate; reflexivity]); [| discriminate].
  intros _. apply andb_true_iff in E. destruct E as [_ E].
  apply Qgeb_true in E. split; [exact E | reflexivity].
Qed.

Lemma live_gate_step s x now :
  let r := CallsF.live_gate A cfg s x now in
  (fst r = true ->
   COOLDOWN_MS cfg
   <= Float64.sub A (Float64.mul A now 1000) (LiveSongAnalyzer.last_flash_time s)
   /\ LiveSongAnalyzer.last_flash_time (snd r) = Float64.mul A now 1000)
  /\ (fst r = false ->
      LiveSongAnalyzer.last_flash_time (snd r) = LiveSongAnalyzer.last_flash_time s).
Proof.
  cbv zeta. unfold CallsF.live_gate, LiveSongAnalyzerF.detect_beat.
  destruct (len _ <? 10)%nat; cbn [fst snd LiveSongAnalyzer.last_flash_time];
    [split; [discriminate | reflexivity] |].
  destruct (Qltb _ (COOLDOWN_MS cfg)) eqn:E;
    cbn [fst snd LiveSongAnalyzer.last_flash_time];
    [split; [discriminate | reflexivity] |].
  apply Qltb_false in E.
  destruct (_ || _); cbn [fst snd LiveSongAnalyzer.last_flash_time];
    (split; [| try discriminate; reflexivity]); [| discriminate].
  intros _. split; [exact E | reflexivity].
Qed.
End GateCooldown.

(** In binary64 the gates fire twice at two clock readings that are
    0.25 s - 2^-22 s apart: the products [time.time() * 1000] of the two
    readings are exactly 250 apart. Without rounding only the first call
    fires. *)
Lemma gates_fire_within_the_cooldown :
  Calls.firing_times (CallsF.dj_gate Float64.binary64 config)
    Fixtures.dj_two_quiet FloatFixtures.boundary_calls
  = [FloatFixtures.t_first; FloatFixtures.t_second]
  /\ Calls.firing_times (CallsF.mrt_gate Float64.binary64 config)
       Fixtures.mrt_four_quiet FloatFixtures.boundary_calls2
     = [FloatFixtures.t_first; FloatFixtures.t_second]
  /\ Calls.firing_times (CallsF.dj_gate Float64.exact config)
       Fixtures.dj_two_quiet FloatFixtures.boundary_calls
     = [FloatFixtures.t_first]
  /\ CallsF.measured_gap Float64.binary64 FloatFixtures.t_first FloatFixtures.t_second
     == 250
  /\ (FloatFixtures.t_second - FloatFixtures.t_first) * 1000 < 250.
Proof.
  split; [| split; [| split; [| split]]].
  - vm_compute. reflexivity.
  - vm_compute. reflexivity.
  - vm_compute. reflexivity.
  - apply Qeq_bool_eq. vm_compute. reflexivity.
  - vm_compute. reflexivity.
Qed.

(** X4. Over any sequence of calls of [dj_listener]'s [detect_beat], from
    any state and with any volumes, made under a clock that never runs
    backwards and with float operations that keep the order, two calls
    that both answer [True] are a cooldown apart up to rounding: their
    millisecond values [time.time() * 1000], subtracted as the gate
    subtracts them, differ by at least [COOLDOWN_MS]; hence the readings
    are at least [COOLDOWN_MS - 3 * delta] milliseconds apart when the
    millisecond value of a reading and the difference of two such values
    are each within [delta] of the exact result. *)
Theorem dj_listener_beats_apart_up_to_rounding :
  forall (A : Float64.arith) (cfg : Config) (st : DjListener.state)
         (calls : list (Q * Q)) (t0 : Q),
    Float64.monotone A ->
    Calls.nondecreasing t0 (map snd calls) ->
    let beats := Calls.firing_times (CallsF.dj_gate A cfg) st calls in
    ForallOrdPairs (fun a b => COOLDOWN_MS cfg <= CallsF.measured_gap A a b) beats
    /\ (forall hi delta,
          Float64.accurate A t0 hi delta ->
          Forall (fun t => t <= hi) (map snd calls) ->
          ForallOrdPairs
            (fun a b => COOLDOWN_MS cfg - 3 * delta <= (b - a) * 1000) beats).
Proof.
  intros A cfg st calls t0 Hmono Hclock.
  apply (firing_times_apart_up_to_rounding A (CallsF.dj_gate A cfg)
           DjListener.last_flash_time (COOLDOWN_MS cfg) Hmono); [| | exact Hclock].
  - intros s x now. apply (proj1 (dj_gate_step A cfg s x now)).
  - intros s x now. apply (proj2 (dj_gate_step A cfg s x now)).
Qed.

(** In binary64, two loud chunks at readings 0.25 s - 2^-22 s apart after
    two silent ones: both calls fire, their measured gap is at least
    250 ms and the readings are at least 250 - 3/4096 ms apart. *)
Lemma dj_listener_beats_apart_up_to_rounding_witness :
  Float64.monotone Float64.binary64
  /\ Calls.nondecreasing 0 (map snd FloatFixtures.boundary_calls)
  /\ Calls.firing_times (CallsF.dj_gate Float64.binary64 config)
       Fixtures.dj_two_quiet FloatFixtures.boundary_calls
     = [FloatFixtures.t_first; FloatFixtures.t_second]
  /\ ForallOrdPairs
       (fun a b => COOLDOWN_MS config <= CallsF.measured_gap Float64.binary64 a b)
       (Calls.firing_times (CallsF.dj_gate Float64.binary64 config)
          Fixtures.dj_two_quiet FloatFixtures.boundary_calls)
  /\ ForallOrdPairs
       (fun a b => COOLDOWN_MS config - 3 * (1 # 4096) <= (b - a) * 1000)
       (Calls.firing_times (CallsF.dj_gate Float64.binary64 config)
          Fixtures.dj_two_quiet FloatFixtures.boundary_calls).
Proof.
  assert (Hclock : Calls.nondecreasing 0 (map snd FloatFixtures.boundary_calls)).
  { cbn. repeat split; try (unfold Qle; cbn; lia). }
  destruct (dj_listener_beats_apart_up_to_rounding Float64.binary64 config
              Fixtures.dj_two_quiet FloatFixtures.boundary_calls 0
              binary64_monotone Hclock) as [Hgap Htol].
  split; [exact binary64_monotone | split; [exact Hclock | split; [| split]]].
  - vm_compute. reflexivity.
  - exact Hgap.
  - apply (Htol 1700000001 (1 # 4096)).
    + apply binary64_accurate; [lra | vm_compute; reflexivity].
    + repeat constructor; cbn; unfold Qle; cbn; lia.
Defined.

(** X5. The same holds for the [detect_beat] of [music_rhythm_test],
    [simple_rhythm_demo] and [live_song_analyzer]: over any sequence of
    calls under a clock that never runs backwards and with float
    operations that keep the order, two calls that both report a beat
    have millisecond values [time.time() * 1000] whose difference, as the
    gate computes it, is at least [COOLDOWN_MS], and readings at least
    [COOLDOWN_MS - 3 * delta] milliseconds apart when the arithmetic is
    accurate to [delta]. *)
Theorem detect_beat_beats_apart_up_to_rounding :
  forall (A : Float64.arith) (cfg : Config) (calls : list ((Q * Q) * Q)) (t0 : Q),
    Float64.monotone A ->
    Calls.nondecreasing t0 (map snd calls) ->
    (forall st,
        let beats := Calls.firing_times (CallsF.mrt_gate A cfg) st calls in
        ForallOrdPairs (fun a b => COOLDOWN_MS cfg <= CallsF.measured_gap A a b) beats
        /\ (forall hi delta,
              Float64.accurate A t0 hi delta ->
              Forall (fun t => t <= hi) (map snd calls) ->
              ForallOrdPairs
                (fun a b => COOLDOWN_MS cfg - 3 * delta <= (b - a) * 1000) beats))
    /\ (forall st,
        let beats := Calls.firing_times (CallsF.demo_gate A cfg) st calls in
        ForallOrdPairs (fun a b => COOLDOWN_MS cfg <= CallsF.measured_gap A a b) beats
        /\ (forall hi delta,
              Float64.accurate A t0 hi delta ->
              Forall (fun t => t <= hi) (map snd calls) ->
              ForallOrdPairs
                (fun a b => COOLDOWN_MS cfg - 3 * delta <= (b - a) * 1000) beats))
    /\ (forall st,
        let beats := Calls.firing_times (CallsF.live_gate A cfg) st calls in
        ForallOrdPairs (fun a b => COOLDOWN_MS cfg <= CallsF.measured_gap A a b) beats
        /\ (forall hi delta,
              Float64.accurate A t0 hi delta ->
              Forall (fun t => t <= hi) (map snd calls) ->
              ForallOrdPairs
                (fun a b => COOLDOWN_MS cfg - 3 * delta <= (b - a) * 1000) beats)).
Proof.
  intros A cfg calls t0 Hmono Hclock. split; [| split]; intros st.
  - apply (firing_times_apart_up_to_rounding A (CallsF.mrt_gate A cfg)
             MusicRhythmTest.last_flash_time (COOLDOWN_MS cfg) Hmono);
      [| | exact Hclock].
    + intros s x now. apply (proj1 (mrt_gate_step A cfg s x now)).
    + intros s x now. apply (proj2 (mrt_gate_step A cfg s x now)).
  - apply (firing_times_apart_up_to_rounding A (CallsF.demo_gate A cfg)
             SimpleRhythmDemo.last_flash_time (COOLDOWN_MS cfg) Hmono);
      [| | exact Hclock].
    + intros s x now. apply (proj1 (demo_gate_step A cfg s x now)).
    + intros s x now. apply (proj2 (demo_gate_step A cfg s x now)).
  - apply (firing_times_apart_up_to_rounding A (CallsF.live_gate A cfg)
             LiveSongAnalyzer.last_flash_time (COOLDOWN_MS cfg) Hmono);
      [| | exact Hclock].
    + intros s x now. apply (proj1 (live_gate_step A cfg s x now)).
    + intros s x now. apply (proj2 (live_gate_step A cfg s x now)).
Qed.

(** In binary64, two loud chunks at readings 0.25 s - 2^-22 s apart after
    the warm-up of each script: both calls report a beat, their measured
    gap is at least 250 ms and the readings are at least 250 - 3/4096 ms
    apart. *)
Lemma detect_beat_beats_apart_up_to_rounding_witness :
  Float64.monotone Float64.binary64
  /\ Calls.nondecreasing 0 (map snd FloatFixtures.boundary_calls2)
  /\ Calls.firing_times (CallsF.mrt_gate Float64.binary64 config)
       Fixtures.mrt_four_quiet FloatFixtures.boundary_calls2
     = [FloatFixtures.t_first; FloatFixtures.t_second]
  /\ Calls.firing_times (CallsF.live_gate Float64.binary64 config)
       Fixtures.live_nine_quiet FloatFixtures.boundary_calls2
     = [FloatFixtures.t_first; FloatFixtures.t_second]
  /\ ForallOrdPairs
       (fun a b => COOLDOWN_MS config <= CallsF.measured_gap Float64.binary64 a b)
       (Calls.firing_times (CallsF.demo_gate Float64.binary64 config)
          Fixtures.demo_four_quiet FloatFixtures.boundary_calls2)
  /\ ForallOrdPairs
       (fun a b => COOLDOWN_MS config - 3 * (1 # 4096) <= (b - a) * 1000)
       (Calls.firing_times (CallsF.mrt_gate Float64.binary64 config)
          Fixtures.mrt_four_quiet FloatFixtures.boundary_calls2).
Proof.
  assert (Hclock : Calls.nondecreasing 0 (map snd FloatFixtures.boundary_calls2)).
  { cbn. repeat split; try (unfold Qle; cbn; lia). }
  destruct (detect_beat_beats_apart_up_to_rounding Float64.binary64 config
              FloatFixtures.boundary_calls2 0 binary64_monotone Hclock)
    as (Hmrt & Hdemo & _).
  split; [exact binary64_monotone
         | split; [exact Hclock | split; [| split; [| split]]]].
  - vm_compute. reflexivity.
  - vm_compute. reflexivity.
  - apply (proj1 (Hdemo Fixtures.demo_four_quiet)).
  - apply (proj2 (Hmrt Fixtures.mrt_four_quiet) 1700000001 (1 # 4096)).
    + apply binary64_accurate; [lra | vm_compute; reflexivity].
    + repeat constructor; cbn; unfold Qle; cbn; lia.
Defined.

(** ** [dj_listener]: the threshold band and the warm-up *)

Section DjThreshold.
Variable cfg : Config.

Lemma len_append_le {A : Type} (d : deque A) (x : A) :
  (len (append d x) <= S (len d))%nat.
Proof.
  unfold len, append. cbn [items].
  destruct (maxlen d <? length (items d ++ [x]))%nat.
  - destruct (items d ++ [x]) eqn:E; cbn; [lia |].
    apply (f_equal (@length A)) in E. rewrite length_app in E. cbn in E. lia.
  - rewrite length_app. cbn. lia.
Qed.

Lemma dj_threshold_band avg :
  MIN_VOLUME_THRESHOLD cfg <= MAX_VOLUME_THRESHOLD cfg ->
  MIN_VOLUME_THRESHOLD cfg <= DjListener.threshold_of cfg avg
  <= MAX_VOLUME_THRESHOLD cfg.
Proof.
  intros Hb. unfold DjListener.threshold_of.
  destruct (py_min_cases (avg * VOLUME_THRESHOLD_MULTIPLIER cfg)
              (MAX_VOLUME_THRESHOLD cfg)) as [[H1 E1] | [H1 E1]]; rewrite E1;
  match goal with
  | |- _ <= py_max ?a ?b <= _ =>
      destruct (py_max_cases a b) as [[H2 ->] | [H2 ->]]
  end; lra.
Qed.

Lemma dj_threshold_inverted avg :
  MAX_VOLUME_THRESHOLD cfg <= MIN_VOLUME_THRESHOLD cfg ->
  DjListener.threshold_of cfg avg = MIN_VOLUME_THRESHOLD cfg.
Proof.
  intros Hb. unfold DjListener.threshold_of.
  destruct (py_min_cases (avg * VOLUME_THRESHOLD_MULTIPLIER cfg)
              (MAX_VOLUME_THRESHOLD cfg)) as [[H1 E1] | [H1 E1]]; rewrite E1;
  match goal with
  | |- py_max ?a ?b = _ =>
      destruct (py_max_cases a b) as [[H2 E2] | [H2 E2]]
  end; first [exact E2 | lra].
Qed.

(** While the history holds fewer than three samples after the append,
    nothing fires. *)
Lemma dj_short_history_quiet st rms now :
  (len (append (DjListener.volume_history st) rms) < 3)%nat ->
  fst (DjListener.detect_beat cfg st rms now) = false.
Proof.
  intros H. destruct (dj_history_first cfg st rms now) as [_ Hiff].
  destruct (fst (DjListener.detect_beat cfg st rms now)); [| reflexivity].
  destruct (proj1 Hiff eq_refl) as [Hl _]. lia.
Qed.

Lemma dj_first_calls_quiet calls :
  forall st,
    (len (DjListener.volume_history st) + length calls <= 2)%nat ->
    Calls.firing_times (Calls.dj_gate cfg) st calls = [].
Proof.
  induction calls as [| [rms now] rest IH]; intros st Hl; [reflexivity |].
  cbn [Calls.firing_times length] in *. unfold Calls.dj_gate at 1 2.
  pose proof (len_append_le (DjListener.volume_history st) rms) as Hle.
  destruct (dj_history_first cfg st rms now) as [Hh _].
  rewrite dj_short_history_quiet by lia.
  apply IH. unfold Calls.dj_gate. rewrite Hh. lia.
Qed.

Lemma dj_small_history_quiet calls :
  forall st,
    bounded (DjListener.volume_history st) ->
    (maxlen (DjListener.volume_history st) < 3)%nat ->
    Calls.firing_times (Calls.dj_gate cfg) st calls = [].
Proof.
  induction calls as [| [rms now] rest IH]; intros st Hb Hm; [reflexivity |].
  cbn [Calls.firing_times]. unfold Calls.dj_gate at 1 2.
  pose proof (append_bounded (DjListener.volume_history st) rms Hb) as Hb'.
  destruct (dj_history_first cfg st rms now) as [Hh _].
  rewrite dj_short_history_quiet
    by (unfold bounded in Hb'; rewrite append_maxlen in Hb'; lia).
  apply IH; unfold Calls.dj_gate; rewrite Hh; [exact Hb' |].
  rewrite append_maxlen. exact Hm.
Qed.
End DjThreshold.

(** X6. The dynamic threshold of [dj_listener] always lies between
    [MIN_VOLUME_THRESHOLD] and [MAX_VOLUME_THRESHOLD] when these are
    ordered, and is [MIN_VOLUME_THRESHOLD] when they are inverted. Hence a
    chunk whose volume exceeds [MAX_VOLUME_THRESHOLD] fires whatever the
    recent average, as soon as three samples are in the history and the
    cooldown has elapsed. *)
Theorem dj_threshold_is_clamped_and_loud_chunks_fire :
  forall cfg : Config,
    (forall avg,
        MIN_VOLUME_THRESHOLD cfg <= MAX_VOLUME_THRESHOLD cfg ->
        MIN_VOLUME_THRESHOLD cfg <= DjListener.threshold_of cfg avg
        <= MAX_VOLUME_THRESHOLD cfg)
    /\ (forall avg,
        MAX_VOLUME_THRESHOLD cfg <= MIN_VOLUME_THRESHOLD cfg ->
        DjListener.threshold_of cfg avg = MIN_VOLUME_THRESHOLD cfg)
    /\ (forall st rms now,
        MIN_VOLUME_THRESHOLD cfg <= MAX_VOLUME_THRESHOLD cfg ->
        MAX_VOLUME_THRESHOLD cfg < rms ->
        (3 <= len (append (DjListener.volume_history st) rms))%nat ->
        COOLDOWN_MS cfg <= now * 1000 - DjListener.last_flash_time st ->
        fst (DjListener.detect_beat cfg st rms now) = true).
Proof.
  intros cfg. split; [| split].
  - apply dj_threshold_band.
  - apply dj_threshold_inverted.
  - intros st rms now Hb Hloud Hlen Hcd.
    apply (proj2 (dj_history_first cfg st rms now)).
    pose proof (dj_threshold_band cfg
      (np_mean (items (append (DjListener.volume_history st) rms))) Hb).
    repeat split; [exact Hlen | lra | exact Hcd].
Qed.

(** With [config.py] a volume of 20000 fires on a history made of volumes
    of 30000, whose mean is far above it. *)
Lemma dj_threshold_is_clamped_and_loud_chunks_fire_witness :
  let st := {| DjListener.volume_history :=
                 extend (Deque.empty 10) [30000; 30000; 30000];
               DjListener.last_flash_time := 0 |} in
  fst (DjListener.detect_beat config st 20000 1) = true.
Proof.
  intros st.
  apply (proj2 (proj2 (dj_threshold_is_clamped_and_loud_chunks_fire config))
           st 20000 1).
  - vm_compute. discriminate.
  - vm_compute. reflexivity.
  - vm_compute. lia.
  - vm_compute. discriminate.
Defined.

(** X7. [dj_listener] needs three samples of history: from the initial
    state the first two calls of [detect_beat] never fire, and when
    [HISTORY_SIZE] is configured below 3 no call ever fires, whatever the
    volumes. *)
Theorem dj_listener_needs_three_samples :
  forall (cfg : Config) (calls : list (Q * Q)),
    ((length calls <= 2)%nat ->
     Calls.firing_times (Calls.dj_gate cfg) (DjListener.init cfg) calls = [])
    /\ ((HISTORY_SIZE cfg < 3)%nat ->
        Calls.firing_times (Calls.dj_gate cfg) (DjListener.init cfg) calls = []).
Proof.
  intros cfg calls. split; intros H.
  - apply dj_first_calls_quiet. cbn. lia.
  - apply dj_small_history_quiet; [apply empty_bounded | exact H].
Qed.

(** Two deafening chunks right after the start do not fire; with a
    history of two samples ten of them do not either. *)
Lemma dj_listener_needs_three_samples_witness :
  Calls.firing_times (Calls.dj_gate config) (DjListener.init config)
    [(30000, 1.0); (30000, 2.0)] = []
  /\ Calls.firing_times
       (Calls.dj_gate {| SAMPLE_RATE := 44100; CHUNK_SIZE := 1024;
                        VOLUME_THRESHOLD_MULTIPLIER := 1.5; COOLDOWN_MS := 250;
                        HISTORY_SIZE := 2; MIN_VOLUME_THRESHOLD := 500;
                        MAX_VOLUME_THRESHOLD := 10000 |})
       (DjListener.init {| SAMPLE_RATE := 44100; CHUNK_SIZE := 1024;
                           VOLUME_THRESHOLD_MULTIPLIER := 1.5; COOLDOWN_MS := 250;
                           HISTORY_SIZE := 2; MIN_VOLUME_THRESHOLD := 500;
                           MAX_VOLUME_THRESHOLD := 10000 |})
       (map (fun k => (30000, inject_Z (Z.of_nat k))) (seq 1 10)) = [].
Proof.
  split.
  - apply (proj1 (dj_listener_needs_three_samples config _)). cbn. lia.
  - apply (proj2 (dj_listener_needs_three_samples _ _)). cbn. lia.
Defined.

(** ** [ai_audio_analyzer]: steady signals and the warm-up *)

Section AiQuiet.
Import AiAudioAnalyzer.
Variable rfft_abs : list Q -> list Q.
Variable np_sqrt : Q -> Q.
Variable beat_track : list Q -> Q -> option Q.
Variable cfg : Config.

Lemma np_sum_constant (b : Q) (l : list Q) :
  Forall (fun x => x == b) l ->
  np_sum l == inject_Z (Z.of_nat (length l)) * b.
Proof.
  induction 1 as [| x l Hx _ IH].
  - cbn. ring.
  - cbn [np_sum fold_right length]. fold (np_sum l).
    rewrite IH, Hx, Nat2Z.inj_succ. unfold Z.succ. rewrite inject_Z_plus. ring.
Qed.

Lemma np_mean_constant (b : Q) (l : list Q) :
  l <> [] -> Forall (fun x => x == b) l -> np_mean l == b.
Proof.
  intros Hne Hall. unfold np_mean. rewrite (np_sum_constant b l Hall).
  field. destruct l as [| x l]; [contradiction |].
  cbn [length]. rewrite Nat2Z.inj_succ.
  intros Hz. unfold Qeq in Hz. cbn [Qnum Qden inject_Z] in Hz. lia.
Qed.

Lemma Forall_append {A : Type} (P : A -> Prop) (d : deque A) (x : A) :
  Forall P (items d) -> P x -> Forall P (items (append d x)).
Proof.
  intros Hd Hx. unfold append. cbn [items].
  assert (Hall : Forall P (items d ++ [x])).
  { apply Forall_app. split; [exact Hd | constructor; [exact Hx | constructor]]. }
  destruct (maxlen d <? length (items d ++ [x]))%nat; [| exact Hall].
  destruct (items d ++ [x]); [constructor | now inversion Hall].
Qed.

Lemma lastn_Forall {A : Type} (P : A -> Prop) (n : nat) (l : list A) :
  Forall P l -> Forall P (lastn n l).
Proof.
  intros H. unfold lastn. rewrite <- (firstn_skipn (length l - n) l) in H.
  apply Forall_app in H. tauto.
Qed.

Lemma constant_not_increasing (b : Q) (l : list Q) :
  (2 <= length l)%nat -> Forall (fun x => x == b) l ->
  strictly_increasing l = false.
Proof.
  intros Hl Hall. destruct (strictly_increasing l) eqn:E; [| reflexivity].
  apply strictly_increasing_spec in E.
  destruct l as [| x [| y t]]; cbn in Hl; try lia.
  inversion Hall as [| ? ? Hx Hrest]; subst.
  inversion Hrest as [| ? ? Hy _]; subst.
  destruct E as [E _]. lra.
Qed.

(** A chunk whose energies equal every sample of the histories is not
    classified. *)
Lemma steady_not_classified last now bass mid bh mh :
  0 <= bass -> 0 <= mid ->
  Forall (fun x => x == bass) (items bh) ->
  Forall (fun x => x == mid) (items mh) ->
  detect_rhythm_event cfg last now bass mid bh mh = None.
Proof.
  intros Hb Hm Hbh Hmh.
  destruct (Qlt_le_dec (now * 1000 - last) (COOLDOWN_MS cfg)) as [Hin | Hout];
    [apply detect_rhythm_event_guarded; auto |].
  destruct (Nat.lt_ge_cases (len bh) 5) as [Hs | Hlb];
    [apply detect_rhythm_event_guarded; auto |].
  destruct (Nat.lt_ge_cases (len mh) 5) as [Hs | Hlm];
    [apply detect_rhythm_event_guarded; auto |].
  rewrite detect_rhythm_event_ready by assumption.
  assert (Eb : np_mean (items bh) == bass).
  { apply np_mean_constant; [| exact Hbh].
    unfold len in Hlb. destruct (items bh); [cbn in Hlb; lia | discriminate]. }
  assert (Em : np_mean (items mh) == mid).
  { apply np_mean_constant; [| exact Hmh].
    unfold len in Hlm. destruct (items mh); [cbn in Hlm; lia | discriminate]. }
  rewrite (both_gt_false bass _ bass 5000) by (rewrite Eb; intros [H _]; lra).
  rewrite (both_gt_false bass _ bass 3000) by (rewrite Eb; intros [H _]; lra).
  rewrite (both_gt_false mid _ mid _) by (rewrite Em; intros [H _]; lra).
  rewrite (constant_not_increasing bass); [reflexivity | | now apply lastn_Forall].
  rewrite lastn_length. unfold len in Hlb. lia.
Qed.

Lemma steady_run_silent (audio : list Z) (envs : list env) :
  let a := analyze_frequency_bands rfft_abs audio (SAMPLE_RATE cfg) in
  0 <= fst (fst (fst a)) -> 0 <= snd (fst (fst a)) ->
  forall st,
    Forall (fun x => x == fst (fst (fst a))) (items (bass_history st)) ->
    Forall (fun x => x == snd (fst (fst a))) (items (mid_history st)) ->
    snd (run rfft_abs np_sqrt beat_track cfg st (map (fun e => (audio, e)) envs))
    = [].
Proof.
  intros a Hb Hm. induction envs as [| e rest IH]; intros st Hbh Hmh;
    [reflexivity |].
  cbn [map run].
  destruct (ai_history_first rfft_abs np_sqrt beat_track cfg st audio e)
    as (_ & Eb & Em & Hev).
  fold a in Eb, Em, Hev.
  destruct (audio_callback rfft_abs np_sqrt beat_track cfg st audio e)
    as [st1 oev].
  cbn [fst snd] in Eb, Em, Hev.
  assert (Hbh1 : Forall (fun x => x == fst (fst (fst a))) (items (bass_history st1))).
  { rewrite Eb. apply Forall_append; [exact Hbh | reflexivity]. }
  assert (Hmh1 : Forall (fun x => x == snd (fst (fst a))) (items (mid_history st1))).
  { rewrite Em. apply Forall_append; [exact Hmh | reflexivity]. }
  specialize (IH st1 Hbh1 Hmh1).
  destruct (run rfft_abs np_sqrt beat_track cfg st1
              (map (fun e0 => (audio, e0)) rest)) as [st2 evs].
  cbn [snd] in *. subst evs.
  destruct oev as [ev |]; [| reflexivity].
  specialize (Hev ev eq_refl).
  rewrite steady_not_classified in Hev; try assumption; try discriminate.
  - rewrite <- Eb. exact Hbh1.
  - rewrite <- Em. exact Hmh1.
Qed.

Lemma warm_up_run_silent chunks :
  forall st,
    (len (bass_history st) + length chunks <= 4)%nat ->
    snd (run rfft_abs np_sqrt beat_track cfg st chunks) = [].
Proof.
  induction chunks as [| [audio e] rest IH]; intros st Hl; [reflexivity |].
  cbn [run length] in *.
  destruct (ai_history_first rfft_abs np_sqrt beat_track cfg st audio e)
    as (_ & Eb & _ & Hev).
  destruct (audio_callback rfft_abs np_sqrt beat_track cfg st audio e)
    as [st1 oev].
  cbn [fst snd] in Eb, Hev.
  pose proof (len_append_le (bass_history st)
    (fst (fst (fst (analyze_frequency_bands rfft_abs audio (SAMPLE_RATE cfg))))))
    as Hle.
  rewrite <- Eb in Hle.
  specialize (IH st1 ltac:(lia)).
  destruct (run rfft_abs np_sqrt beat_track cfg st1 rest) as [st2 evs].
  cbn [snd] in *. subst evs.
  destruct oev as [ev |]; [| reflexivity].
  specialize (Hev ev eq_refl).
  rewrite detect_rhythm_event_guarded in Hev; [discriminate |].
  right. left. rewrite <- Eb. lia.
Qed.
End AiQuiet.

(** X8. A stream that repeats one and the same chunk never makes
    [ai_audio_analyzer] emit an event, however loud the chunk is: with a
    spectrum of non-negative magnitudes, every run from the initial state
    over copies of a chunk emits nothing. *)
Theorem steady_stream_emits_nothing :
  forall rfft_abs np_sqrt beat_track cfg (audio : list Z)
         (envs : list AiAudioAnalyzer.env),
    Forall (fun m => 0 <= m) (rfft_abs (map inject_Z audio)) ->
    snd (AiAudioAnalyzer.run rfft_abs np_sqrt beat_track cfg
           (AiAudioAnalyzer.init cfg) (map (fun e => (audio, e)) envs))
    = [].
Proof.
  intros rfft_abs np_sqrt beat_track cfg audio envs Hpos.
  destruct (band_energy_facts rfft_abs audio (SAMPLE_RATE cfg) Hpos)
    as (Hb & Hm & _).
  apply steady_run_silent; try assumption; constructor.
Qed.

(** Eight full-scale clicks in a row, one second apart, emit nothing. *)
Lemma steady_stream_emits_nothing_witness :
  snd (Fixtures.ai_run Fixtures.ai_init
         (map (fun e => (Fixtures.loud_click, e))
              (map (fun k => Fixtures.at_time (inject_Z (Z.of_nat k))) (seq 1 8))))
  = [].
Proof.
  apply (steady_stream_emits_nothing Fixtures.rfft_abs_impulse Fixtures.sqrt_exact
           Fixtures.beat_track_click config Fixtures.loud_click).
  unfold Fixtures.rfft_abs_impulse. apply Forall_forall. intros m Hm.
  apply repeat_spec in Hm. subst m. apply Qabs_nonneg.
Defined.

(** X9. [ai_audio_analyzer] emits no event during the first four chunks
    of a run, whatever they contain: the histories are still shorter than
    five samples. *)
Theorem first_four_chunks_emit_nothing :
  forall rfft_abs np_sqrt beat_track cfg
         (chunks : list (list Z * AiAudioAnalyzer.env)),
    (length chunks <= 4)%nat ->
    snd (AiAudioAnalyzer.run rfft_abs np_sqrt beat_track cfg
           (AiAudioAnalyzer.init cfg) chunks)
    = [].
Proof.
  intros rfft_abs np_sqrt beat_track cfg chunks Hl.
  apply warm_up_run_silent. cbn. lia.
Qed.

(** A click after three silent chunks is not reported. *)
Lemma first_four_chunks_emit_nothing_witness :
  snd (Fixtures.ai_run Fixtures.ai_init
         [ (Fixtures.silence, Fixtures.at_time 1.000);
           (Fixtures.silence, Fixtures.at_time 1.023);
           (Fixtures.silence, Fixtures.at_time 1.046);
           (Fixtures.click, Fixtures.at_time 1.069) ])
  = [].
Proof.
  apply (first_four_chunks_emit_nothing Fixtures.rfft_abs_impulse
           Fixtures.sqrt_exact Fixtures.beat_track_click config).
  cbn. lia.
Defined.

(** ** [ai_audio_analyzer]: the tempo over a run *)

Section AiTempoRun.
Import AiAudioAnalyzer.
Variable rfft_abs : list Q -> list Q.
Variable np_sqrt : Q -> Q.
Variable beat_track : list Q -> Q -> option Q.
Variable cfg : Config.

#[local] Abbreviation callback := (audio_callback rfft_abs np_sqrt beat_track cfg).
#[local] Abbreviation stream := (run rfft_abs np_sqrt beat_track cfg).

(** The state after one more chunk. *)
Lemma run_snoc_state (chunks : list (list Z * env)) (audio : list Z) (e : env) :
  forall st,
    fst (stream st (chunks ++ [(audio, e)]))
    = fst (callback (fst (stream st chunks)) audio e).
Proof.
  induction chunks as [| [a0 e0] rest IH]; intros st.
  - cbn [app run fst]. destruct (callback st audio e) as [st1 oev]. reflexivity.
  - cbn [app run]. destruct (callback st a0 e0) as [st1 oev].
    specialize (IH st1).
    destruct (stream st1 (rest ++ [(audio, e)])) as [st2 evs].
    destruct (stream st1 rest) as [st3 evs3]. cbn [fst] in *. exact IH.
Qed.

Lemma run_tempo (chunks : list (list Z * env)) :
  let st := fst (stream (init cfg) chunks) in
  let n := length chunks in
  frame_counter st = n
  /\ current_bpm st
     = if (n <? 20)%nat then 0
       else estimate_bpm beat_track
              (nth (20 * (n / 20) - 1) (map fst chunks) []) (SAMPLE_RATE cfg).
Proof.
  induction chunks as [| [audio e] chunks IH] using rev_ind.
  - split; reflexivity.
  - cbv zeta in *. rewrite run_snoc_state.
    destruct IH as [Hfc Hbpm].
    destruct (audio_callback_tempo rfft_abs np_sqrt beat_track cfg
                (fst (stream (init cfg) chunks)) audio e) as [Hfc' Hbpm'].
    rewrite Hfc', Hbpm', Hfc, Hbpm. clear Hfc' Hbpm' Hfc Hbpm.
    rewrite length_app, map_app. cbn [length map fst].
    set (n := length chunks).
    replace (n + 1)%nat with (S n) by lia.
    split; [reflexivity |].
    pose proof (Nat.div_mod_eq n 20) as Dn.
    pose proof (Nat.mod_upper_bound n 20 ltac:(lia)) as Bn.
    pose proof (Nat.div_mod_eq (S n) 20) as Ds.
    pose proof (Nat.mod_upper_bound (S n) 20 ltac:(lia)) as Bs.
    destruct (Nat.eqb_spec (S n mod 20) 0) as [Hz | Hnz].
    + destruct (Nat.ltb_spec (S n) 20) as [Hlt | Hge]; [lia |].
      replace (20 * (S n / 20) - 1)%nat with n by lia.
      rewrite app_nth2 by (rewrite length_map; fold n; lia).
      rewrite length_map. fold n. rewrite Nat.sub_diag. reflexivity.
    + assert (Hq : (S n / 20 = n / 20)%nat) by lia.
      rewrite Hq.
      destruct (Nat.ltb_spec n 20) as [Hlt | Hge];
        destruct (Nat.ltb_spec (S n) 20) as [Hlt' | Hge']; try lia;
        try reflexivity.
      rewrite app_nth1 by (rewrite length_map; fold n; lia). reflexivity.
Qed.

(** While the tempo is 0 and no update is due, events carry [bpm] 0. *)
Lemma early_events_bpm chunks :
  forall st,
    current_bpm st = 0 ->
    (frame_counter st + length chunks < 20)%nat ->
    Forall (fun ev => ev_bpm ev = 0%Z) (snd (stream st chunks)).
Proof.
  induction chunks as [| [audio e] rest IH]; intros st Hbpm Hfc;
    [constructor |].
  cbn [run length] in *.
  destruct (audio_callback_tempo rfft_abs np_sqrt beat_track cfg st audio e)
    as [Hfc1 Hbpm1].
  assert (Hmod : (S (frame_counter st) mod 20 =? 0)%nat = false).
  { apply Nat.eqb_neq. rewrite Nat.mod_small by lia. lia. }
  rewrite Hmod, Hbpm in Hbpm1.
  assert (Hev : forall ev, snd (callback st audio e) = Some ev -> ev_bpm ev = 0%Z).
  { unfold audio_callback.
    destruct (analyze_frequency_bands rfft_abs audio (SAMPLE_RATE cfg))
      as [[[bass mid] high] voc].
    cbv zeta. rewrite Hmod, Hbpm.
    destruct (detect_rhythm_event cfg _ _ _ _ _ _) as [k |];
      [| discriminate].
    unfold send_flash_event. destruct (emit_ok e); [| discriminate].
    cbn [snd]. intros ev [= <-]. reflexivity. }
  destruct (callback st audio e) as [st1 oev]. cbn [fst snd] in *.
  specialize (IH st1 Hbpm1 ltac:(lia)).
  destruct (stream st1 rest) as [st2 evs]. cbn [snd] in *.
  destruct oev as [ev |]; [constructor; [now apply Hev | exact IH] | exact IH].
Qed.
End AiTempoRun.

(** X10. After a run of [n] chunks from the initial state the frame
    counter of [ai_audio_analyzer] is [n] and the shared tempo is what
    [estimate_bpm] answered on chunk number [20 * (n / 20)], the last
    multiple of 20, or 0 while fewer than 20 chunks were seen; every
    event emitted during the first 19 chunks carries [bpm] 0. *)
Theorem tempo_follows_every_twentieth_chunk :
  forall rfft_abs np_sqrt beat_track cfg
         (chunks : list (list Z * AiAudioAnalyzer.env)),
    let r := AiAudioAnalyzer.run rfft_abs np_sqrt beat_track cfg
               (AiAudioAnalyzer.init cfg) chunks in
    let n := length chunks in
    AiAudioAnalyzer.frame_counter (fst r) = n
    /\ AiAudioAnalyzer.current_bpm (fst r)
       = (if (n <? 20)%nat then 0
          else AiAudioAnalyzer.estimate_bpm beat_track
                 (nth (20 * (n / 20) - 1) (map fst chunks) []) (SAMPLE_RATE cfg))
    /\ ((n < 20)%nat ->
        Forall (fun ev => AiAudioAnalyzer.ev_bpm ev = 0%Z) (snd r)).
Proof.
  intros rfft_abs np_sqrt beat_track cfg chunks r n.
  destruct (run_tempo rfft_abs np_sqrt beat_track cfg chunks) as [Hfc Hbpm].
  split; [exact Hfc | split; [exact Hbpm |]].
  intros Hn. apply early_events_bpm; [reflexivity | cbn; exact Hn].
Qed.

(** On the forty-chunk stream the tempo after 39 chunks is the estimate
    of chunk 20, and the event of the first five chunks carries [bpm] 0. *)
Lemma tempo_follows_every_twentieth_chunk_witness :
  AiAudioAnalyzer.current_bpm
    (fst (Fixtures.ai_run Fixtures.ai_init (firstn 39 Fixtures.tempo_stream)))
  = AiAudioAnalyzer.estimate_bpm Fixtures.beat_track_click Fixtures.click
      (SAMPLE_RATE config)
  /\ Forall (fun ev => AiAudioAnalyzer.ev_bpm ev = 0%Z)
       (snd (Fixtures.ai_run Fixtures.ai_init Fixtures.quiet_then_click)).
Proof.
  split.
  - exact (proj1 (proj2 (tempo_follows_every_twentieth_chunk
             Fixtures.rfft_abs_impulse Fixtures.sqrt_exact
             Fixtures.beat_track_click config
             (firstn 39 Fixtures.tempo_stream)))).
  - apply (proj2 (proj2 (tempo_follows_every_twentieth_chunk
             Fixtures.rfft_abs_impulse Fixtures.sqrt_exact
             Fixtures.beat_track_click config Fixtures.quiet_then_click))).
    cbn. lia.
Defined.

(** ** [ai_audio_analyzer]: what an event carries *)

Section AiPayload.
Import AiAudioAnalyzer.

(** [int(x)] on a non-negative float is its integer part. *)
Lemma py_int_floor (x : Q) :
  0 <= x -> inject_Z (py_int x) <= x /\ x < inject_Z (py_int x) + 1.
Proof.
  destruct x as [n d]. unfold py_int, Qle, Qlt. cbn [Qnum Qden inject_Z Qplus].
  intros Hn. rewrite Z.mul_1_r in Hn. cbn in Hn.
  rewrite Z.quot_div_nonneg by lia.
  pose proof (Z.div_mod n (Zpos d) ltac:(lia)) as Hdm.
  pose proof (Z.mod_pos_bound n (Zpos d) ltac:(lia)) as Hb.
  split; nia.
Qed.

Lemma audio_callback_payload rfft_abs np_sqrt beat_track cfg st audio e ev :
  snd (audio_callback rfft_abs np_sqrt beat_track cfg st audio e) = Some ev ->
  let a := analyze_frequency_bands rfft_abs audio (SAMPLE_RATE cfg) in
  let st' := fst (audio_callback rfft_abs np_sqrt beat_track cfg st audio e) in
  emit_ok e = true
  /\ ev_intensity ev = intensity_of (ev_event_type ev)
  /\ ev_timestamp ev = t_emit e
  /\ ev_bpm ev = py_int (current_bpm st')
  /\ ev_bass_energy ev = py_int (fst (fst (fst a)))
  /\ ev_mid_energy ev = py_int (snd (fst (fst a)))
  /\ ev_high_energy ev = py_int (snd (fst a)).
Proof.
  unfold audio_callback.
  destruct (analyze_frequency_bands rfft_abs audio (SAMPLE_RATE cfg))
    as [[[bass mid] high] voc].
  cbv zeta.
  destruct (detect_rhythm_event cfg _ _ _ _ _ _) as [k |]; [| discriminate].
  unfold send_flash_event. destruct (emit_ok e); [| discriminate].
  cbn [fst snd]. intros [= <-]. cbn. repeat split.
Qed.
End AiPayload.

(** X11. An event is only reported when [sio.emit] returned. It carries
    the intensity its type has in the table, the timestamp read for it,
    and the integer parts of the current tempo and of the bass, mid and
    high energies: when the spectrum is non-negative each reported energy
    is at most the measured one and less than 1 below it. *)
Theorem emitted_event_payload :
  forall rfft_abs np_sqrt beat_track cfg st audio e ev,
    snd (AiAudioAnalyzer.audio_callback rfft_abs np_sqrt beat_track cfg st audio e)
    = Some ev ->
    Forall (fun m => 0 <= m) (rfft_abs (map inject_Z audio)) ->
    let a := AiAudioAnalyzer.analyze_frequency_bands rfft_abs audio
               (SAMPLE_RATE cfg) in
    let st' := fst (AiAudioAnalyzer.audio_callback rfft_abs np_sqrt beat_track
                      cfg st audio e) in
    AiAudioAnalyzer.emit_ok e = true
    /\ AiAudioAnalyzer.ev_intensity ev
       = AiAudioAnalyzer.intensity_of (AiAudioAnalyzer.ev_event_type ev)
    /\ AiAudioAnalyzer.ev_timestamp ev = AiAudioAnalyzer.t_emit e
    /\ AiAudioAnalyzer.ev_bpm ev = py_int (AiAudioAnalyzer.current_bpm st')
    /\ (inject_Z (AiAudioAnalyzer.ev_bass_energy ev) <= fst (fst (fst a))
        /\ fst (fst (fst a)) < inject_Z (AiAudioAnalyzer.ev_bass_energy ev) + 1)
    /\ (inject_Z (AiAudioAnalyzer.ev_mid_energy ev) <= snd (fst (fst a))
        /\ snd (fst (fst a)) < inject_Z (AiAudioAnalyzer.ev_mid_energy ev) + 1)
    /\ (inject_Z (AiAudioAnalyzer.ev_high_energy ev) <= snd (fst a)
        /\ snd (fst a) < inject_Z (AiAudioAnalyzer.ev_high_energy ev) + 1).
Proof.
  intros rfft_abs np_sqrt beat_track cfg st audio e ev Hev Hpos a st'.
  destruct (audio_callback_payload _ _ _ _ _ _ _ _ Hev)
    as (Hok & Hi & Ht & Hbpm & Hb & Hm & Hh).
  destruct (band_energy_facts rfft_abs audio (SAMPLE_RATE cfg) Hpos)
    as (Pb & Pm & Ph & _).
  fold a in Hb, Hm, Hh, Pb, Pm, Ph.
  rewrite Hb, Hm, Hh.
  repeat split; try assumption; now apply py_int_floor.
Qed.

(** The event reported for the click that follows four silent chunks. *)
Lemma emitted_event_payload_witness :
  let st4 := fst (Fixtures.ai_run Fixtures.ai_init
                    (firstn 4 Fixtures.quiet_then_click)) in
  exists ev,
    snd (Fixtures.ai_callback st4 Fixtures.click (Fixtures.at_time 1.092)) = Some ev
    /\ AiAudioAnalyzer.ev_intensity ev
       = AiAudioAnalyzer.intensity_of (AiAudioAnalyzer.ev_event_type ev)
    /\ AiAudioAnalyzer.ev_timestamp ev = 1.092.
Proof.
  intros st4.
  destruct (snd (Fixtures.ai_callback st4 Fixtures.click (Fixtures.at_time 1.092)))
    as [ev |] eqn:Hev; [| vm_compute in Hev; discriminate].
  exists ev. split; [reflexivity |].
  assert (Hpos : Forall (fun m => 0 <= m)
                   (Fixtures.rfft_abs_impulse (map inject_Z Fixtures.click))).
  { unfold Fixtures.rfft_abs_impulse. apply Forall_forall. intros m Hm.
    apply repeat_spec in Hm. subst m. apply Qabs_nonneg. }
  destruct (emitted_event_payload Fixtures.rfft_abs_impulse Fixtures.sqrt_exact
              Fixtures.beat_track_click config st4 Fixtures.click
              (Fixtures.at_time 1.092) ev Hev Hpos) as (_ & Hi & Ht & _).
  split; [exact Hi | exact Ht].
Defined.

(** ** The chunk loop of the file modes *)

Section ChunkLoop.
Context {A : Type}.
Implicit Types (audio : list A).

Lemma firstn_plus audio (a b : nat) :
  firstn (a + b) audio = firstn a audio ++ firstn b (skipn a audio).
Proof.
  revert audio. induction a as [| a IH]; intros audio; [reflexivity |].
  destruct audio as [| x audio]; cbn; [now rewrite firstn_nil |].
  now rewrite IH.
Qed.

(** [m] consecutive slices of [c] items are the first [m * c] items. *)
Lemma concat_slices audio (c m : nat) :
  concat (map (fun k => firstn c (skipn (k * c) audio)) (seq 0 m))
  = firstn (m * c) audio.
Proof.
  induction m as [| m IH]; [reflexivity |].
  rewrite seq_S, map_app, concat_app, IH. cbn [map concat plus].
  rewrite app_nil_r. replace (S m * c)%nat with (m * c + c)%nat by lia.
  symmetry. apply firstn_plus.
Qed.

Lemma chunk_starts_length (n : nat) (c : Z) :
  (0 < c)%Z ->
  length (Py.chunk_starts n c) = Z.to_nat ((Z.of_nat n - 1) / c).
Proof.
  intros Hc. unfold Py.chunk_starts, Py.range.
  rewrite length_map, length_seq. f_equal. f_equal. lia.
Qed.

(** The loop visits the slices at [0], [c], [2c], ... *)
Lemma file_chunks_slices audio (c : Z) :
  (0 < c)%Z ->
  Py.file_chunks audio c
  = map (fun k => firstn (Z.to_nat c) (skipn (k * Z.to_nat c) audio))
        (seq 0 (Z.to_nat ((Z.of_nat (length audio) - 1) / c))).
Proof.
  intros Hc. unfold Py.file_chunks, Py.chunk_starts, Py.range.
  rewrite map_map.
  replace (Z.of_nat (length audio) - c - 0 + c - 1)%Z
    with (Z.of_nat (length audio) - 1)%Z by lia.
  apply map_ext. intros k. unfold Py.slice.
  replace (Z.to_nat (0 + Z.of_nat k * c)) with (k * Z.to_nat c)%nat
    by (rewrite Z.add_0_l, Z2Nat.inj_mul, Nat2Z.id by lia; reflexivity).
  replace (Z.to_nat (0 + Z.of_nat k * c + c)) with (k * Z.to_nat c + Z.to_nat c)%nat
    by (rewrite Z.add_0_l, Z2Nat.inj_add, Z2Nat.inj_mul, Nat2Z.id by lia;
        reflexivity).
  f_equal. lia.
Qed.
End ChunkLoop.

Lemma file_chunks_facts :
  forall (A : Type) (audio : list A) (c : Z),
    (0 < c)%Z ->
    let chunks := Py.file_chunks audio c in
    let n := Z.of_nat (length audio) in
    let count := Z.of_nat (length chunks) in
    Forall (fun ch => Z.of_nat (length ch) = c) chunks
    /\ concat chunks = firstn (Z.to_nat (c * count)) audio
    /\ ((0 < n)%Z -> (c * count < n)%Z)
    /\ ((0 < n)%Z -> (n mod c = 0)%Z -> count = (n / c - 1)%Z)
    /\ ((n mod c <> 0)%Z -> count = (n / c)%Z).
Proof.
  intros A audio c Hc chunks n count.
  assert (Hcount : count = Z.max 0 ((n - 1) / c)).
  { unfold count, chunks, Py.file_chunks. rewrite length_map, chunk_starts_length
      by assumption. fold n. lia. }
  pose proof (Z.div_mod (n - 1) c ltac:(lia)) as D1.
  pose proof (Z.mod_pos_bound (n - 1) c Hc) as B1.
  pose proof (Z.div_mod n c ltac:(lia)) as D0.
  pose proof (Z.mod_pos_bound n c Hc) as B0.
  assert (Hn : (0 <= n)%Z) by (unfold n; lia).
  assert (Hfit : (c * count <= Z.max 0 (n - 1))%Z) by nia.
  split; [| split; [| split; [| split]]].
  - unfold chunks. rewrite file_chunks_slices by assumption.
    apply Forall_forall. intros ch Hin. apply in_map_iff in Hin.
    destruct Hin as (k & <- & Hk). apply in_seq in Hk.
    rewrite length_firstn, length_skipn.
    assert (Hk' : (Z.of_nat k < count)%Z).
    { rewrite Hcount. unfold n. lia. }
    assert (Hend : (Z.of_nat k * c + c <= n)%Z) by nia.
    assert (Hnat : (k * Z.to_nat c + Z.to_nat c <= length audio)%nat).
    { apply Nat2Z.inj_le. rewrite Nat2Z.inj_add, Nat2Z.inj_mul, Z2Nat.id by lia.
      exact Hend. }
    rewrite Nat.min_l by lia. lia.
  - unfold chunks. rewrite file_chunks_slices by assumption.
    rewrite concat_slices. f_equal.
    unfold count, chunks. rewrite file_chunks_slices by assumption.
    rewrite length_map, length_seq.
    rewrite Z2Nat.inj_mul, Nat2Z.id by lia. lia.
  - intros Hpos. lia.
  - intros Hpos Hmod. rewrite Hcount.
    assert (Hq : ((n - 1) / c = n / c - 1)%Z).
    { symmetry. apply (Z.div_unique (n - 1) c (n / c - 1) (c - 1)); lia. }
    rewrite Hq. assert (1 <= n / c)%Z by nia. lia.
  - intros Hmod. rewrite Hcount.
    assert (Hq : ((n - 1) / c = n / c)%Z).
    { symmetry. apply (Z.div_unique (n - 1) c (n / c) (n mod c - 1)); lia. }
    rewrite Hq. assert (0 <= n / c)%Z by (apply Z.div_pos; lia). lia.
Qed.

(** X12. The chunk loop of both [analyze_music_file],
    [for i in range(0, len(audio) - chunk_size, chunk_size)], visits only
    full chunks, which together are a strict prefix of a non-empty
    recording: the tail is never analysed. When the length is a multiple
    of the chunk size the last full chunk is left out, so the loop runs
    one time less than [len(audio) // chunk_size]; otherwise it runs
    [len(audio) // chunk_size] times. *)
Theorem file_mode_skips_the_last_chunk :
  forall (A : Type) (audio : list A) (c : Z),
    (0 < c)%Z ->
    let chunks := Py.file_chunks audio c in
    let n := Z.of_nat (length audio) in
    let count := Z.of_nat (length chunks) in
    Forall (fun ch => Z.of_nat (length ch) = c) chunks
    /\ concat chunks = firstn (Z.to_nat (c * count)) audio
    /\ ((0 < n)%Z -> (c * count < n)%Z)
    /\ ((0 < n)%Z -> (n mod c = 0)%Z -> count = (n / c - 1)%Z)
    /\ ((n mod c <> 0)%Z -> count = (n / c)%Z).
Proof. exact file_chunks_facts. Qed.

(** Eight samples in chunks of four: one chunk is analysed, the second
    is not; nine samples: both full chunks are. *)
Lemma file_mode_skips_the_last_chunk_witness :
  Py.file_chunks [1; 2; 3; 4; 5; 6; 7; 8]%Z 4 = [[1; 2; 3; 4]%Z]
  /\ Z.of_nat (length (Py.file_chunks [1; 2; 3; 4; 5; 6; 7; 8]%Z 4)) = (8 / 4 - 1)%Z
  /\ Z.of_nat (length (Py.file_chunks [1; 2; 3; 4; 5; 6; 7; 8; 9]%Z 4)) = (9 / 4)%Z.
Proof.
  assert (H4 : (0 < 4)%Z) by lia.
  destruct (file_mode_skips_the_last_chunk Z [1; 2; 3; 4; 5; 6; 7; 8]%Z 4 H4)
    as (_ & _ & _ & Hmult & _).
  destruct (file_mode_skips_the_last_chunk Z [1; 2; 3; 4; 5; 6; 7; 8; 9]%Z 4 H4)
    as (_ & _ & _ & _ & Hrest).
  split; [reflexivity | split].
  - apply Hmult; [cbn; lia | reflexivity].
  - apply Hrest. cbn. lia.
Defined.

(** ** [music_rhythm_test]: the file mode *)

Section MrtFile.
Import MusicRhythmTestFile.
Variable rfft_abs : list Q -> list Q.
Variable np_sqrt : Q -> Q.
Variable cfg : Config.

Lemma mrt_beat_intensity st rms bass now :
  let r := fst (MusicRhythmTest.detect_beat cfg st rms bass now) in
  fst r = true -> 0.3 <= snd r <= 1.
Proof.
  unfold MusicRhythmTest.detect_beat.
  destruct (len _ <? 5)%nat; cbn [fst snd]; [discriminate |].
  destruct (Qltb _ _); cbn [fst snd]; [discriminate |].
  destruct (_ || _); cbn [fst snd]; [intros _ | discriminate].
  pose proof (py_clamp_bounds (rms / 5000) 0.3 1.0). lra.
Qed.

(** One iteration adds at most one beat, and exactly one trigger per beat. *)
Lemma process_chunk_counts ls chunk now :
  let ls' := process_chunk rfft_abs np_sqrt cfg ls chunk now in
  (sent ls' = sent ls /\ beat_count ls' = beat_count ls)
  \/ (exists i, 0.3 <= i <= 1 /\ sent ls' = sent ls ++ [i]
                /\ beat_count ls' = S (beat_count ls)).
Proof.
  unfold process_chunk.
  destruct (MusicRhythmTest.analyze_frequency_bands _ _ _) as [[bass mid] high].
  pose proof (mrt_beat_intensity (detector ls)
                (calculate_rms np_sqrt (to_int16 chunk)) bass now) as Hi.
  destruct (MusicRhythmTest.detect_beat cfg (detector ls) _ bass now)
    as [[is_beat intensity] st].
  cbn [fst snd] in Hi. destruct is_beat; cbn [sent beat_count].
  - right. exists intensity. repeat split; try apply Hi; reflexivity.
  - left. split; reflexivity.
Qed.

Lemma process_chunks_counts chunks :
  forall ls,
    (beat_count ls = length (sent ls)) ->
    Forall (fun i => 0.3 <= i <= 1) (sent ls) ->
    let ls' := process_chunks rfft_abs np_sqrt cfg ls chunks in
    beat_count ls' = length (sent ls')
    /\ Forall (fun i => 0.3 <= i <= 1) (sent ls')
    /\ (beat_count ls' <= beat_count ls + length chunks)%nat.
Proof.
  induction chunks as [| [chunk now] rest IH]; intros ls Hc Hs.
  - cbn. repeat split; try assumption. lia.
  - cbn [process_chunks fold_left fst snd length].
    fold (process_chunks rfft_abs np_sqrt cfg
            (process_chunk rfft_abs np_sqrt cfg ls chunk now) rest).
    destruct (process_chunk_counts ls chunk now)
      as [[Es Ec] | (i & Hi & Es & Ec)].
    + destruct (IH (process_chunk rfft_abs np_sqrt cfg ls chunk now))
        as (H1 & H2 & H3); [rewrite Es, Ec; exact Hc | rewrite Es; exact Hs |].
      cbv zeta in *. repeat split; try assumption. lia.
    + destruct (IH (process_chunk rfft_abs np_sqrt cfg ls chunk now))
        as (H1 & H2 & H3).
      * rewrite Es, Ec, length_app. cbn. lia.
      * rewrite Es. apply Forall_app. split; [exact Hs |].
        constructor; [exact Hi | constructor].
      * cbv zeta in *. repeat split; try assumption. lia.
Qed.
End MrtFile.

(** X13. In the file mode of [music_rhythm_test] the final [beat_count]
    is the number of calls of [send_flash_trigger], every intensity
    passed lies between 0.3 and 1, and the beats cannot outnumber the
    chunks visited; for a non-empty recording whose length is a multiple
    of [CHUNK_SIZE] that is at most [total_chunks - 1]. *)
Theorem file_mode_counts_beats :
  forall rfft_abs np_sqrt cfg (audio_data : list Q) (clock : nat -> Q),
    (0 < CHUNK_SIZE cfg)%nat ->
    let r := MusicRhythmTestFile.analyze_chunks rfft_abs np_sqrt cfg audio_data clock in
    let visited := length (Py.file_chunks audio_data (Z.of_nat (CHUNK_SIZE cfg))) in
    MusicRhythmTestFile.beat_count r = length (MusicRhythmTestFile.sent r)
    /\ Forall (fun i => 0.3 <= i <= 1) (MusicRhythmTestFile.sent r)
    /\ (MusicRhythmTestFile.beat_count r <= visited)%nat
    /\ (audio_data <> [] ->
        (length audio_data mod CHUNK_SIZE cfg = 0)%nat ->
        (Z.of_nat (MusicRhythmTestFile.beat_count r)
         <= MusicRhythmTestFile.total_chunks cfg audio_data - 1)%Z).
Proof.
  intros rfft_abs np_sqrt cfg audio_data clock Hc r visited.
  unfold r, MusicRhythmTestFile.analyze_chunks.
  set (chunks := Py.file_chunks audio_data (Z.of_nat (CHUNK_SIZE cfg))).
  destruct (process_chunks_counts rfft_abs np_sqrt cfg
              (combine chunks (map clock (seq 0 (length chunks))))
              MusicRhythmTestFile.start eq_refl (Forall_nil _))
    as (H1 & H2 & H3).
  cbv zeta in H1, H2, H3. cbn [MusicRhythmTestFile.beat_count
    MusicRhythmTestFile.start plus] in H3.
  rewrite length_combine, length_map, length_seq, Nat.min_id in H3.
  fold chunks in visited.
  split; [exact H1 | split; [exact H2 | split; [exact H3 |]]].
  intros Hne Hmod.
  destruct (file_chunks_facts Q audio_data
              (Z.of_nat (CHUNK_SIZE cfg)) ltac:(lia)) as (_ & _ & _ & Hmult & _).
  fold chunks in Hmult. unfold MusicRhythmTestFile.total_chunks.
  rewrite <- Hmult.
  - lia.
  - destruct audio_data; [contradiction | cbn [length]; lia].
  - rewrite <- Nat2Z.inj_mod, Hmod. reflexivity.
Qed.

(** The file loop of [music_rhythm_test] on eight samples with a chunk
    size of four: one chunk is visited, and no beat is counted. *)
Lemma file_mode_counts_beats_witness :
  let cfg4 := {| SAMPLE_RATE := 44100; CHUNK_SIZE := 4;
                 VOLUME_THRESHOLD_MULTIPLIER := 1.5; COOLDOWN_MS := 250;
                 HISTORY_SIZE := 10; MIN_VOLUME_THRESHOLD := 500;
                 MAX_VOLUME_THRESHOLD := 10000 |} in
  let audio := [1; 0; 0; 0; 1; 0; 0; 0] in
  let r := MusicRhythmTestFile.analyze_chunks Fixtures.rfft_abs_impulse
             Fixtures.sqrt_exact cfg4 audio (fun k => inject_Z (Z.of_nat k)) in
  (Z.of_nat (MusicRhythmTestFile.beat_count r)
   <= MusicRhythmTestFile.total_chunks cfg4 audio - 1)%Z
  /\ MusicRhythmTestFile.total_chunks cfg4 audio = 2%Z.
Proof.
  intros cfg4 audio r. split; [| reflexivity].
  apply (proj2 (proj2 (proj2 (file_mode_counts_beats Fixtures.rfft_abs_impulse
           Fixtures.sqrt_exact cfg4 audio (fun k => inject_Z (Z.of_nat k))
           ltac:(cbn; lia)))));
    [discriminate | reflexivity].
Defined.

(** ** [simple_rhythm_demo]: matching the tracked beats *)

Section DemoFile.
Import SimpleRhythmDemoFile.
Variable np_sqrt : Q -> Q.
Variable sr : Q.
Variable beat_times : list Q.
Variable audio : list Q.

#[local] Abbreviation body := (process_chunk np_sqrt sr beat_times audio).
#[local] Abbreviation loop := (match_beats np_sqrt sr beat_times audio).

#[local] Abbreviation matched := (SimpleRhythmDemoFile.matched beat_times).

Lemma process_chunk_matched ls i :
  matched ls ->
  matched (body ls i)
  /\ (beat_idx (body ls i) <= S (beat_idx ls))%nat.
Proof.
  intros (Hc & Hi & Hle & Hk). unfold process_chunk.
  destruct (Nat.ltb_spec (beat_idx ls) (length beat_times)) as [Hlt | Hge];
    cbn [andb]; [| split; [repeat split; assumption | lia]].
  destruct (Qltb _ 0.1) eqn:E; [| split; [repeat split; assumption | lia]].
  apply Qltb_true in E. split; [| cbn; lia].
  unfold SimpleRhythmDemoFile.matched. cbn [beat_count beat_idx sent].
  rewrite length_app. cbn [length].
  split; [lia | split; [lia | split; [lia |]]].
  intros k Hlt'. destruct (Nat.eq_dec k (length (sent ls))) as [-> | Hne].
  - rewrite app_nth2, Nat.sub_diag by lia. cbn [nth fst]. now rewrite <- Hi.
  - rewrite app_nth1 by lia. apply Hk. lia.
Qed.

Lemma match_beats_matched starts :
  forall ls,
    matched ls ->
    matched (loop ls starts)
    /\ (beat_idx (loop ls starts) <= beat_idx ls + length starts)%nat.
Proof.
  induction starts as [| i rest IH]; intros ls Hm.
  - cbn. split; [exact Hm | lia].
  - cbn [match_beats fold_left length].
    destruct (process_chunk_matched ls i Hm) as [Hm1 Hle1].
    destruct (IH (body ls i) Hm1) as [Hm2 Hle2].
    split; [exact Hm2 |]. unfold match_beats in Hle2. lia.
Qed.

(** Once the chunks are 0.1 s or more past the beat that is waited for,
    nothing is sent any more. *)
Lemma match_beats_stuck starts :
  forall ls,
    Forall (fun i => nth (beat_idx ls) beat_times 0 + 0.1 <= inject_Z i / sr)
           starts ->
    loop ls starts = ls.
Proof.
  induction starts as [| i rest IH]; intros ls Hall; [reflexivity |].
  inversion Hall as [| ? ? Hi Hrest]; subst.
  cbn [match_beats fold_left].
  assert (Hbody : body ls i = ls).
  { unfold process_chunk.
    destruct (beat_idx ls <? length beat_times)%nat; [| reflexivity].
    cbn [andb].
    assert (E : Qltb (Qabs (inject_Z i / sr - nth (beat_idx ls) beat_times 0)) 0.1
                = false).
    { apply Qltb_false. rewrite Qabs_pos by lra. lra. }
    now rewrite E. }
  rewrite Hbody. apply IH. exact Hrest.
Qed.
End DemoFile.

(** X14. The file mode of [simple_rhythm_demo] sends its triggers for
    the tracked beats in order: at the end [beat_count], [beat_idx] and
    the number of triggers agree and exceed neither the number of beats
    nor the number of chunks, and trigger [k] comes from a chunk less
    than 0.1 s away from beat [k]. The loop never skips a beat: once the
    beat it waits for lies 0.1 s or more before the current chunk, no
    later chunk sends anything. *)
Theorem file_mode_matches_beats_in_order :
  forall (np_sqrt : Q -> Q) (sr : Q) (beat_times audio : list Q),
    let r := SimpleRhythmDemoFile.analyze_chunks np_sqrt sr beat_times audio in
    (SimpleRhythmDemoFile.beat_count r = SimpleRhythmDemoFile.beat_idx r
     /\ SimpleRhythmDemoFile.beat_idx r = length (SimpleRhythmDemoFile.sent r)
     /\ (SimpleRhythmDemoFile.beat_idx r <= length beat_times)%nat
     /\ (SimpleRhythmDemoFile.beat_idx r
         <= length (Py.chunk_starts (length audio) SimpleRhythmDemoFile.chunk_size))%nat
     /\ forall k, (k < length (SimpleRhythmDemoFile.sent r))%nat ->
          Qabs (fst (nth k (SimpleRhythmDemoFile.sent r) (0, 0)) - nth k beat_times 0)
          < 0.1)
    /\ (forall (ls : SimpleRhythmDemoFile.loop_state) (i0 : Z) (starts : list Z),
          0 < sr ->
          nth (SimpleRhythmDemoFile.beat_idx ls) beat_times 0 + 0.1
          <= inject_Z i0 / sr ->
          Forall (fun i => (i0 <= i)%Z) starts ->
          SimpleRhythmDemoFile.match_beats np_sqrt sr beat_times audio ls starts
          = ls).
Proof.
  intros np_sqrt sr beat_times audio r. split.
  - destruct (match_beats_matched np_sqrt sr beat_times audio
                (Py.chunk_starts (length audio) SimpleRhythmDemoFile.chunk_size)
                SimpleRhythmDemoFile.start) as [(Hc & Hi & Hle & Hk) Hn].
    { repeat split; cbn; try lia. }
    fold (SimpleRhythmDemoFile.analyze_chunks np_sqrt sr beat_times audio) in *.
    fold r in Hc, Hi, Hle, Hk, Hn. cbn [SimpleRhythmDemoFile.beat_idx
      SimpleRhythmDemoFile.start plus] in Hn.
    repeat split; assumption.
  - intros ls i0 starts Hsr Hpast Hlater.
    apply match_beats_stuck. eapply Forall_impl; [| exact Hlater].
    intros i Hi. cbn beta.
    assert (Hm : inject_Z i0 / sr <= inject_Z i / sr).
    { unfold Qdiv. apply Qmult_le_compat_r;
        [now rewrite <- Zle_Qle | apply Qlt_le_weak, Qinv_lt_0_compat, Hsr]. }
    lra.
Qed.

(** Beats tracked at 0 s, 0.001 s, 0.002 s and 0.15 s in a recording of
    four chunks at 22050 Hz: the chunks at 0 s and 0.093 s send the first
    two; at 0.186 s the third beat is more than 0.1 s old and the last
    two chunks send nothing, although the fourth beat is close. *)
Lemma file_mode_matches_beats_in_order_witness :
  let beats := [0; 0.001; 0.002; 0.15] in
  let audio := repeat 0 (4 * 2048 + 1) in
  let after_two :=
    SimpleRhythmDemoFile.match_beats Fixtures.sqrt_exact 22050 beats audio
      SimpleRhythmDemoFile.start [0; 2048]%Z in
  SimpleRhythmDemoFile.beat_idx after_two = 2%nat
  /\ 0 < 22050
  /\ nth 2 beats 0 + 0.1 <= inject_Z 4096 / 22050
  /\ SimpleRhythmDemoFile.match_beats Fixtures.sqrt_exact 22050 beats audio
       after_two [4096; 6144]%Z = after_two.
Proof.
  intros beats audio after_two.
  assert (Hidx : SimpleRhythmDemoFile.beat_idx after_two = 2%nat)
    by (vm_compute; reflexivity).
  assert (Hsr : 0 < 22050) by reflexivity.
  assert (Hpast : nth 2 beats 0 + 0.1 <= inject_Z 4096 / 22050)
    by (vm_compute; discriminate).
  split; [exact Hidx | split; [exact Hsr | split; [exact Hpast |]]].
  apply (proj2 (file_mode_matches_beats_in_order Fixtures.sqrt_exact 22050
                  beats audio) after_two 4096%Z [4096; 6144]%Z Hsr).
  - rewrite Hidx. exact Hpast.
  - repeat constructor; lia.
Defined.

(** ** [live_song_analyzer]: the recognition schedule *)

Section LiveRecognition.
Import LiveSongProcess.
Variable rfft_abs : list Q -> list Q.
Variable np_sqrt : Q -> Q.
Variable recognize : list (list Z) -> option song_data.
Variable cfg : Config.

#[local] Abbreviation process := (process_audio_chunk rfft_abs np_sqrt recognize cfg).

(** What one call does to the recognition state and to the globals it
    does not declare. *)
Lemma process_audio_chunk_cases st audio sample_rate e :
  let r := process st audio sample_rate e in
  let buffer := recognition_buffer st ++ [audio] in
  (current_artist (fst r) = current_artist st
   /\ current_bpm (fst r) = current_bpm st
   /\ (forall f, out_flash (snd r) = Some f -> fl_bpm f = current_bpm st))
  /\ ((out_attempt (snd r) = true
       /\ recognition_buffer (fst r) = []
       /\ last_recognition_time (fst r) = t_recognition e
       /\ out_song (snd r) = recognize buffer
       /\ recognition_cooldown <= t_recognition e - last_recognition_time st
       /\ buffer_duration
          <= inject_Z (Z.of_nat (length buffer))
             * inject_Z (Z.of_nat (CHUNK_SIZE cfg)) / sample_rate)
      \/ (out_attempt (snd r) = false
          /\ recognition_buffer (fst r) = buffer
          /\ last_recognition_time (fst r) = last_recognition_time st
          /\ current_song (fst r) = current_song st
          /\ out_song (snd r) = None)).
Proof.
  unfold process_audio_chunk.
  destruct (LiveSongAnalyzer.detect_beat cfg (beat st) _ _ (t_detect e))
    as [[is_beat intensity] beat1].
  cbv zeta.
  assert (Hflash : forall f,
    (if is_beat
     then send_flash_event st e intensity
            (if Qgtb (LiveSongAnalyzer.analyze_bass rfft_abs audio sample_rate)
                  (np_mean (items (LiveSongAnalyzer.bass_history beat1)) * 2)
             then bass_drop else rhythm)
     else None) = Some f -> fl_bpm f = current_bpm st).
  { intros f. destruct is_beat; [| discriminate].
    unfold send_flash_event. destruct (emit_ok e); [| discriminate].
    intros [= <-]. reflexivity. }
  destruct (Qgeb _ buffer_duration && Qgeb _ recognition_cooldown) eqn:E;
    cbn [fst snd current_artist current_bpm out_flash out_attempt out_song
         recognition_buffer last_recognition_time current_song].
  - apply andb_true_iff in E. destruct E as [E1 E2].
    apply Qgeb_true in E1, E2.
    split; [repeat split; exact Hflash |]. left. repeat split; assumption.
  - split; [repeat split; exact Hflash |]. right. repeat split.
Qed.

Lemma recognition_calls_apart calls st t0 :
  Calls.nondecreasing t0 (map snd calls) ->
  ForallOrdPairs (fun a b => recognition_cooldown <= (b - a) * 1)
    (Calls.firing_times (recognition_gate rfft_abs np_sqrt recognize cfg) st calls).
Proof.
  intros Hclock.
  apply (firing_times_apart (recognition_gate rfft_abs np_sqrt recognize cfg)
           last_recognition_time recognition_cooldown 1) with (t0 := t0);
    try assumption; [lra | |].
  - intros s x now Hf. unfold recognition_gate in *. cbn [fst snd] in *.
    match goal with
    | _ : out_attempt (snd (process ?s0 ?a ?r ?e0)) = true |- _ =>
        destruct (process_audio_chunk_cases s0 a r e0)
          as (_ & [(_ & _ & Hl & _ & Hcd & _) | (Hq & _)])
    end; [| congruence].
    cbn [t_recognition] in Hl, Hcd. rewrite Hl. split; [lra | ring].
  - intros s x now Hf. unfold recognition_gate in *. cbn [fst snd] in *.
    match goal with
    | _ : out_attempt (snd (process ?s0 ?a ?r ?e0)) = false |- _ =>
        destruct (process_audio_chunk_cases s0 a r e0)
          as (_ & [(Hq & _) | (_ & _ & Hl & _)])
    end; [congruence |].
    rewrite Hl. reflexivity.
Qed.

(** The globals that are read but never written, over a run. *)
Lemma run_untouched_globals chunks :
  forall st,
    let r := run rfft_abs np_sqrt recognize cfg st chunks in
    current_artist (fst r) = current_artist st
    /\ current_bpm (fst r) = current_bpm st
    /\ Forall (fun o => forall f, out_flash o = Some f -> fl_bpm f = current_bpm st)
              (snd r).
Proof.
  induction chunks as [| [audio e] rest IH]; intros st.
  - cbn. repeat split. constructor.
  - cbn [run].
    destruct (process_audio_chunk_cases st audio (SAMPLE_RATE cfg) e)
      as ((Ha & Hb & Hf) & _).
    destruct (process st audio (SAMPLE_RATE cfg) e) as [st1 o].
    cbn [fst snd] in Ha, Hb, Hf. specialize (IH st1). cbv zeta in IH.
    destruct (run rfft_abs np_sqrt recognize cfg st1 rest) as [st2 os].
    cbn [fst snd] in *. destruct IH as (Ia & Ib & If).
    rewrite Ia, Ib, Ha, Hb. repeat split.
    constructor; [exact Hf |]. rewrite Hb in If. exact If.
Qed.
End LiveRecognition.

(** X15. [process_audio_chunk] attempts a recognition only when the
    buffer, with the current chunk, holds at least 10 s of audio and 30 s
    have passed since the last attempt; the attempt receives the whole
    buffer, empties it and records the time, and any other call appends
    the chunk to the buffer and announces no song. Under a clock that
    never runs backwards two attempts are at least 30 s apart. *)
Theorem recognition_every_30_seconds :
  forall rfft_abs np_sqrt recognize cfg,
    (forall st audio sample_rate e,
        let r := LiveSongProcess.process_audio_chunk rfft_abs np_sqrt recognize
                   cfg st audio sample_rate e in
        let buffer := LiveSongProcess.recognition_buffer st ++ [audio] in
        (LiveSongProcess.out_attempt (snd r) = true
         /\ LiveSongProcess.recognition_buffer (fst r) = []
         /\ LiveSongProcess.last_recognition_time (fst r)
            = LiveSongProcess.t_recognition e
         /\ LiveSongProcess.out_song (snd r) = recognize buffer
         /\ LiveSongProcess.recognition_cooldown
            <= LiveSongProcess.t_recognition e
               - LiveSongProcess.last_recognition_time st
         /\ LiveSongProcess.buffer_duration
            <= inject_Z (Z.of_nat (length buffer))
               * inject_Z (Z.of_nat (CHUNK_SIZE cfg)) / sample_rate)
        \/ (LiveSongProcess.out_attempt (snd r) = false
            /\ LiveSongProcess.recognition_buffer (fst r) = buffer
            /\ LiveSongProcess.last_recognition_time (fst r)
               = LiveSongProcess.last_recognition_time st
            /\ LiveSongProcess.current_song (fst r)
               = LiveSongProcess.current_song st
            /\ LiveSongProcess.out_song (snd r) = None))
    /\ (forall st calls t0,
        Calls.nondecreasing t0 (map snd calls) ->
        ForallOrdPairs
          (fun a b => LiveSongProcess.recognition_cooldown <= (b - a) * 1)
          (Calls.firing_times
             (LiveSongProcess.recognition_gate rfft_abs np_sqrt recognize cfg)
             st calls)).
Proof.
  intros rfft_abs np_sqrt recognize cfg. split.
  - intros st audio sample_rate e.
    apply (process_audio_chunk_cases rfft_abs np_sqrt recognize cfg).
  - intros st calls t0. apply recognition_calls_apart.
Qed.

(** X16. [process_audio_chunk] never writes the module-level
    [current_artist] (the assignment is to a local name) nor
    [current_bpm]: after any run from the initial state the artist is
    still unset, whatever was recognised, and every flash event carries a
    [bpm] of 0. *)
Theorem live_artist_and_bpm_never_updated :
  forall rfft_abs np_sqrt recognize cfg
         (chunks : list (list Z * LiveSongProcess.env)),
    let r := LiveSongProcess.run rfft_abs np_sqrt recognize cfg
               LiveSongProcess.init chunks in
    LiveSongProcess.current_artist (fst r) = None
    /\ LiveSongProcess.current_bpm (fst r) = 0
    /\ Forall (fun o => forall f, LiveSongProcess.out_flash o = Some f ->
                                  LiveSongProcess.fl_bpm f = 0)
              (snd r).
Proof.
  intros rfft_abs np_sqrt recognize cfg chunks.
  apply (run_untouched_globals rfft_abs np_sqrt recognize cfg chunks
           LiveSongProcess.init).
Qed.

(** With 430 chunks buffered the next chunk, read at 100 s, starts a
    recognition; the chunk read at 120 s does not. *)
Lemma recognition_every_30_seconds_witness :
  let calls := [ ((Fixtures.silence, LiveFixtures.at_time 100), 100);
                 ((Fixtures.silence, LiveFixtures.at_time 120), 120) ] in
  Calls.nondecreasing 0 (map snd calls)
  /\ Calls.firing_times
       (LiveSongProcess.recognition_gate Fixtures.rfft_abs_impulse
          Fixtures.sqrt_exact LiveFixtures.same_song config)
       LiveFixtures.buffered_430 calls = [100]
  /\ ForallOrdPairs
       (fun a b => LiveSongProcess.recognition_cooldown <= (b - a) * 1)
       (Calls.firing_times
          (LiveSongProcess.recognition_gate Fixtures.rfft_abs_impulse
             Fixtures.sqrt_exact LiveFixtures.same_song config)
          LiveFixtures.buffered_430 calls).
Proof.
  intros calls.
  assert (Hclock : Calls.nondecreasing 0 (map snd calls)).
  { cbn. repeat split; try (unfold Qle; cbn; lia). }
  split; [exact Hclock | split].
  - vm_compute. reflexivity.
  - apply (proj2 (recognition_every_30_seconds Fixtures.rfft_abs_impulse
                    Fixtures.sqrt_exact LiveFixtures.same_song config)
             LiveFixtures.buffered_430 calls 0 Hclock).
Defined.

(** After the recognition of a song the artist is still unset, while the
    title is recorded. *)
Lemma live_artist_and_bpm_never_updated_witness :
  LiveSongProcess.current_artist
    (fst (LiveSongProcess.run Fixtures.rfft_abs_impulse Fixtures.sqrt_exact
            LiveFixtures.same_song config LiveSongProcess.init
            LiveFixtures.first_recognition)) = None
  /\ LiveSongProcess.current_song
       (fst (LiveSongProcess.run Fixtures.rfft_abs_impulse Fixtures.sqrt_exact
               LiveFixtures.same_song config LiveSongProcess.init
               LiveFixtures.first_recognition)) <> None.
Proof.
  split.
  - exact (proj1 (live_artist_and_bpm_never_updated Fixtures.rfft_abs_impulse
                    Fixtures.sqrt_exact LiveFixtures.same_song config
                    LiveFixtures.first_recognition)).
  - vm_compute. discriminate.
Defined.

(** ** [music_rhythm_test]: the analyzer and the conversion of the file mode *)

Section MrtAnalyzer.
Variable rfft_abs : list Q -> list Q.

Lemma mrt_fft_input_data (a : MusicRhythmTest.ndarray) :
  MusicRhythmTest.arr_data (MusicRhythmTest.fft_input a)
  = MusicRhythmTest.arr_data a.
Proof. reflexivity. Qed.

Lemma py_int_bounds (q : Q) (b : Z) :
  (0 <= b)%Z -> - inject_Z b <= q -> q <= inject_Z b ->
  (- b <= py_int q <= b)%Z.
Proof.
  destruct q as [n d]. unfold py_int, Qle. cbn [Qnum Qden inject_Z Qopp].
  intros Hb Hlo Hhi. rewrite !Z.mul_1_r in *.
  assert (H1 : ((- b * Zpos d) ÷ Zpos d <= n ÷ Zpos d)%Z)
    by (apply Z.quot_le_mono; lia).
  assert (H2 : (n ÷ Zpos d <= (b * Zpos d) ÷ Zpos d)%Z)
    by (apply Z.quot_le_mono; lia).
  rewrite Z.quot_mul in H1, H2 by lia. lia.
Qed.
End MrtAnalyzer.

(** X17. [music_rhythm_test]'s [analyze_frequency_bands] never scales
    the samples: after [astype(np.float32)] the test [dtype == np.int16]
    of its normalisation step is false for every input array, so the
    array handed to the transform is a [float32] array holding the data
    as it is; on the [int16] samples of a chunk these are the sample
    values themselves, outside [[-1, 1]] as soon as one sample exceeds 1
    in magnitude. *)
Theorem mrt_analyzer_does_not_normalize :
  (forall a : MusicRhythmTest.ndarray,
      MusicRhythmTest.arr_data (MusicRhythmTest.fft_input a)
      = MusicRhythmTest.arr_data a
      /\ MusicRhythmTest.arr_dtype (MusicRhythmTest.fft_input a)
         = MusicRhythmTest.np_float32)
  /\ (forall samples : list Z,
        MusicRhythmTest.arr_data
          (MusicRhythmTest.fft_input (MusicRhythmTest.frombuffer_int16 samples))
        = map inject_Z samples)
  /\ (forall samples : list Z,
        Exists (fun z => (1 < Z.abs z)%Z) samples ->
        ~ Forall (fun x => -1 <= x <= 1)
            (MusicRhythmTest.arr_data
               (MusicRhythmTest.fft_input
                  (MusicRhythmTest.frombuffer_int16 samples)))).
Proof.
  split; [| split].
  - intros a. split; reflexivity.
  - intros samples. reflexivity.
  - intros samples Hex Hall. rewrite mrt_fft_input_data in Hall.
    cbn [MusicRhythmTest.frombuffer_int16 MusicRhythmTest.arr_data] in Hall.
    apply Exists_exists in Hex. destruct Hex as (z & Hin & Hz).
    rewrite Forall_forall in Hall.
    specialize (Hall (inject_Z z) (in_map inject_Z samples z Hin)).
    destruct Hall as [Hlo Hhi].
    change (-1) with (inject_Z (-1)) in Hlo. change 1 with (inject_Z 1) in Hhi.
    rewrite <- Zle_Qle in Hlo, Hhi. lia.
Qed.

(** On the full-scale click the transform receives the sample 32767. *)
Lemma mrt_analyzer_does_not_normalize_witness :
  Exists (fun z => (1 < Z.abs z)%Z) Fixtures.loud_click
  /\ ~ Forall (fun x => -1 <= x <= 1)
         (MusicRhythmTest.arr_data
            (MusicRhythmTest.fft_input
               (MusicRhythmTest.frombuffer_int16 Fixtures.loud_click))).
Proof.
  assert (H : Exists (fun z => (1 < Z.abs z)%Z) Fixtures.loud_click)
    by (constructor; cbn; lia).
  split; [exact H |].
  apply (proj2 (proj2 mrt_analyzer_does_not_normalize) Fixtures.loud_click H).
Defined.

(** X18. The conversion [(chunk * 32767).astype(np.int16)] of the file
    mode of [music_rhythm_test] stays in range for samples between -1 and
    1: every converted sample lies between -32767 and 32767, so nothing
    wraps and -32768 never occurs. *)
Theorem file_mode_conversion_in_range :
  forall (chunk : list Q),
    Forall (fun x => -1 <= x <= 1) chunk ->
    Forall (fun z => (-32767 <= z <= 32767)%Z) (MusicRhythmTestFile.to_int16 chunk)
    /\ MusicRhythmTestFile.to_int16 chunk = map (fun x => py_int (x * 32767)) chunk.
Proof.
  intros chunk Hall. unfold MusicRhythmTestFile.to_int16.
  assert (Hb : forall x, -1 <= x <= 1 -> (-32767 <= py_int (x * 32767) <= 32767)%Z).
  { intros x [Hlo Hhi].
    apply (py_int_bounds (x * 32767) 32767); [lia | |];
      change (inject_Z 32767) with 32767; lra. }
  split.
  - apply Forall_map. eapply Forall_impl; [| exact Hall].
    intros x Hx. cbn beta. specialize (Hb x Hx).
    rewrite int16_wrap_small; [exact Hb | unfold is_int16; lia].
  - apply map_ext_in. intros x Hx. rewrite Forall_forall in Hall.
    specialize (Hb x (Hall x Hx)). apply int16_wrap_small. unfold is_int16. lia.
Qed.

(** The conversion of the samples 1, -1, 0.5 and -0.00001. *)
Lemma file_mode_conversion_in_range_witness :
  MusicRhythmTestFile.to_int16 [1; -1; 0.5; -0.00001]
  = map (fun x => py_int (x * 32767)) [1; -1; 0.5; -0.00001]
  /\ MusicRhythmTestFile.to_int16 [1; -1; 0.5; -0.00001]
     = [32767; -32767; 16383; 0]%Z.
Proof.
  split; [| reflexivity].
  apply (proj2 (file_mode_conversion_in_range [1; -1; 0.5; -0.00001]
    ltac:(repeat constructor; cbn; lra))).
Defined.
